(** * Job orchestration of the encoder bot: downloader, encoder and uploader

    A shallow embedding of the orchestration code of [downloader.py],
    [encoder.py] and [uploader.py], and the properties of its job
    registries, admission gate, artifact resolution and chunked upload.

    Conventions of the embedding
    - a Python [dict] used as a registry is a [gmap string _];
    - a directory is the association list that [os.listdir] enumerates,
      in listing order;
    - [time.time()] readings are rationals ([Q]) standing for the float
      readings; byte sizes and HTTP status codes are integers ([Z]);
      where the code computes with floats (the percent of an encode),
      the floats are IEEE 754 binary64 numbers ([SpecFloat]);
    - a [str] is held as its UTF-8 bytes; [str.lower] is modelled on
      ASCII letters;
    - calls into the outside world (the clock, the file system's consent
      to a rename, the remote server, the spawned process) are inputs of
      the model: every function is deterministic in them;
    - a Python exception is the [Raised] case of [outcome]. *)

From stdpp Require Import gmap strings list fin_maps pretty.
From Stdlib Require Import Ascii QArith.
From Stdlib Require SpecFloat.

Local Open Scope Z_scope.

(** ** Python values shared by the three files *)

Module Py.

(** An exception object: the class as far as the handlers of this
    program tell classes apart, and [str(e)]. *)
Inductive exn_class :=
| HttpError (status : Z)   (* googleapiclient.errors.HttpError, resp.status *)
| OtherException           (* any other subclass of Exception *).

Record exn := Exn { exn_cls : exn_class; exn_str : string }.

Inductive outcome (A : Type) :=
| Returned (a : A)
| Raised (e : exn).
Arguments Returned {A} a.
Arguments Raised {A} e.

(** [int(x)] of a float: truncation toward zero. *)
Definition int (x : Q) : Z := Z.quot (Qnum x) (Zpos (Qden x)).

Definition lower_char (c : ascii) : ascii :=
  let n := nat_of_ascii c in
  if ((65 <=? n)%nat && (n <=? 90)%nat)%bool then ascii_of_nat (n + 32) else c.

(** [s.lower()] *)
Fixpoint lower (s : string) : string :=
  match s with
  | EmptyString => EmptyString
  | String c s' => String (lower_char c) (lower s')
  end.

(** [s.startswith(p)] *)
Fixpoint startswith (s p : string) : bool :=
  match p, s with
  | EmptyString, _ => true
  | String _ _, EmptyString => false
  | String a p', String b s' => Ascii.eqb a b && startswith s' p'
  end.

(** [s.endswith(suf)] *)
Fixpoint endswith (s suf : string) : bool :=
  String.eqb s suf ||
  match s with
  | EmptyString => false
  | String _ s' => endswith s' suf
  end.

(** [sub in s] *)
Fixpoint contains (sub s : string) : bool :=
  startswith s sub ||
  match s with
  | EmptyString => false
  | String _ s' => contains sub s'
  end.

(** [s.replace(a, b)] for single characters *)
Fixpoint replace_char (a b : ascii) (s : string) : string :=
  match s with
  | EmptyString => EmptyString
  | String c s' => String (if Ascii.eqb c a then b else c) (replace_char a b s')
  end.

(** [s[:n]] on bytes *)
Definition take (n : nat) (s : string) : string := String.substring 0 n s.

(** A [str] is held as its UTF-8 bytes; a character is a byte that is
    not a continuation byte ([10xxxxxx]) with the continuation bytes
    that follow it. *)
Definition continuation (c : ascii) : bool :=
  let n := nat_of_ascii c in ((128 <=? n)%nat && (n <? 192)%nat)%bool.

(** [s[:n]] of a [str]: its first [n] characters. *)
Fixpoint take_chars (n : nat) (s : string) : string :=
  match s with
  | EmptyString => EmptyString
  | String c s' =>
      if continuation c then String c (take_chars n s')
      else
        match n with
        | O => EmptyString
        | S n' => String c (take_chars n' s')
        end
  end.

(** [s[n:]] *)
Fixpoint drop (n : nat) (s : string) : string :=
  match n, s with
  | O, _ => s
  | S _, EmptyString => EmptyString
  | S n', String _ s' => drop n' s'
  end.

Fixpoint rfind_from (c : ascii) (s : string) (i acc : Z) : Z :=
  match s with
  | EmptyString => acc
  | String a s' => rfind_from c s' (i + 1) (if Ascii.eqb a c then i else acc)
  end.

(** [s.rfind(c)]: the last index of [c], or [-1] *)
Definition rfind (c : ascii) (s : string) : Z := rfind_from c s 0 (-1).

(** A Python [float]: an IEEE 754 binary64 number, with rounding to
    nearest even. *)
Definition float := SpecFloat.spec_float.

(** [float(n)] of an [int], as the mixed arithmetic of Python converts
    it (the [OverflowError] of a huge [int] is outside the model). *)
Definition float_of_int (n : Z) : float := SpecFloat.binary_normalize 53 1024 n 0 false.

Definition float_add : float -> float -> float := SpecFloat.SFadd 53 1024.
Definition float_mul : float -> float -> float := SpecFloat.SFmul 53 1024.
(** [x / y] for a [y] that is not zero (zero raises). *)
Definition float_truediv : float -> float -> float := SpecFloat.SFdiv 53 1024.
Definition float_lt : float -> float -> bool := SpecFloat.SFltb.

(** [int(x)] of a [float]: the truncation toward zero; [None] stands
    for the [OverflowError] of an infinity and the [ValueError] of a
    NaN. *)
Definition int_of_float (x : float) : option Z :=
  match x with
  | SpecFloat.S754_zero _ => Some 0
  | SpecFloat.S754_finite s m e =>
      Some (SpecFloat.cond_Zopp s
              (match e with
               | Zneg p => Z.pos m / 2 ^ Z.pos p
               | _ => Z.pos m * 2 ^ e
               end))
  | _ => None
  end.

(** The sign that a float carries, if it carries one. *)
Definition signed (sign : bool) (x : float) : Prop :=
  match x with
  | SpecFloat.S754_zero s | SpecFloat.S754_infinity s | SpecFloat.S754_finite s _ _ =>
      s = sign
  | SpecFloat.S754_nan => True
  end.

(** [any(f(x) for x in l)] *)
Definition any {A} (f : A -> bool) (l : list A) : bool := existsb f l.

(** [max(l, key=key)] on a non-empty list: the first element whose key
    is the largest ([None] stands for the [ValueError] on an empty
    list). *)
Fixpoint max_by {A} (key : A -> Z) (l : list A) : option A :=
  match l with
  | [] => None
  | x :: l' =>
      match max_by key l' with
      | None => Some x
      | Some y => if key x <? key y then Some y else Some x
      end
  end.

End Py.

(** ** [os.path] on POSIX paths *)

Module OsPath.

Definition sep : ascii := "/"%char.
Definition extsep : ascii := "."%char.

(** [os.path.join(a, b)] *)
Definition join (a b : string) : string :=
  if Py.startswith b "/" then b
  else if (String.eqb a "" || Py.endswith a "/")%bool then a +:+ b
  else a +:+ "/" +:+ b.

(** [os.path.basename(p)] *)
Definition basename (p : string) : string :=
  Py.drop (Z.to_nat (Py.rfind sep p + 1)) p.

(** The scan of [genericpath._splitext] over the leading characters of
    the file name: is there a character other than the dot in
    [p[i:dot]]? *)
Fixpoint has_non_dot (s : string) : bool :=
  match s with
  | EmptyString => false
  | String c s' => negb (Ascii.eqb c extsep) || has_non_dot s'
  end.

(** [os.path.splitext(p)] *)
Definition splitext (p : string) : string * string :=
  let sepIndex := Py.rfind sep p in
  let dotIndex := Py.rfind extsep p in
  if (sepIndex <? dotIndex) &&
     has_non_dot (Py.take (Z.to_nat (dotIndex - (sepIndex + 1)))
                          (Py.drop (Z.to_nat (sepIndex + 1)) p))
  then (Py.take (Z.to_nat dotIndex) p, Py.drop (Z.to_nat dotIndex) p)
  else (p, "").

End OsPath.

(** ** [encoder.py]: the admission gate and registry of FastVideoEncoder *)

Module Encoder.

Inductive encode_status := running | stopped.

(** The value stored per encode in [active_encodes]. *)
Record encode_info := EncodeInfo {
  user : string;
  start_time : Q;
  status : encode_status
}.

(** The two attributes of [FastVideoEncoder] that the gate reads and
    writes. *)
Record FastVideoEncoder := Build_encoder {
  max_concurrent_encodes : nat;
  active_encodes : gmap string encode_info
}.

(** [__init__] *)
Definition init : FastVideoEncoder :=
  {| max_concurrent_encodes := 3; active_encodes := ∅ |}.

Definition can_start_new_encode (self : FastVideoEncoder) : bool :=
  (size (active_encodes self) <? max_concurrent_encodes self)%nat.

Definition get_active_encode_count (self : FastVideoEncoder) : nat :=
  size (active_encodes self).

Definition add_active_encode (self : FastVideoEncoder) (encode_id user_info : string)
    (now : Q) : FastVideoEncoder :=
  {| max_concurrent_encodes := max_concurrent_encodes self;
     active_encodes :=
       <[encode_id := EncodeInfo user_info now running]> (active_encodes self) |}.

Definition remove_active_encode (self : FastVideoEncoder) (encode_id : string)
    : FastVideoEncoder :=
  {| max_concurrent_encodes := max_concurrent_encodes self;
     active_encodes :=
       match active_encodes self !! encode_id with
       | Some _ => delete encode_id (active_encodes self)
       | None => active_encodes self
       end |}.

(** [stop_encode]: the registry part (the process signalling goes to the
    operating system). *)
Definition stop_encode (self : FastVideoEncoder) (encode_id : string)
    : bool * FastVideoEncoder :=
  match active_encodes self !! encode_id with
  | Some i =>
      (true,
       {| max_concurrent_encodes := max_concurrent_encodes self;
          active_encodes :=
            <[encode_id := EncodeInfo (user i) (start_time i) stopped]>
              (active_encodes self) |})
  | None => (false, self)
  end.

(** [cleanup_all_processes]: the registry part. *)
Definition cleanup_all_processes (self : FastVideoEncoder) : FastVideoEncoder :=
  {| max_concurrent_encodes := max_concurrent_encodes self; active_encodes := ∅ |}.

(** The messages [encode_single_pass] returns. *)
Definition limit_message (active_count max : nat) : string :=
  "❌ Maksimum encode limitine ulaşıldı! Aktif: " +:+ pretty active_count
  +:+ "/" +:+ pretty max.

Definition missing_message (name path : string) : string :=
  name +:+ " dosyası bulunamadı: " +:+ path.

(** What the call reads from the outside before its first suspension:
    the clock (once for the id, once inside [add_active_encode]) and
    [os.path.exists] of the three inputs. *)
Record submit_world := SubmitWorld {
  clock_id : Q;
  clock_add : Q;
  exists_path : string -> bool
}.

Record submit_args := SubmitArgs {
  intro_path : string;
  episode_path : string;
  subtitle_path : string;
  user_info : string
}.

Definition make_encode_id (now : Q) (user_info : string) : string :=
  pretty (Py.int now) +:+ "_" +:+ Py.take_chars 8 (Py.replace_char " " "_" user_info).

(** A coroutine either returns at once or is suspended at an [await]
    with its local state. *)
Inductive started :=
| ReturnedAtOnce (success : bool) (message : string)
| SuspendedWith (encode_id : string).

Fixpoint first_missing (exists_path : string -> bool) (files : list (string * string))
    : option (string * string) :=
  match files with
  | [] => None
  | (name, path) :: rest =>
      if exists_path path then first_missing exists_path rest else Some (name, path)
  end.

(** [encode_single_pass] from its entry to its first [await]: no
    suspension point lies between the admission test and the
    registration, so the event loop runs this part as one step. *)
Definition encode_single_pass_start (self : FastVideoEncoder) (a : submit_args)
    (w : submit_world) : started * FastVideoEncoder :=
  if negb (can_start_new_encode self) then
    let active_count := get_active_encode_count self in
    (ReturnedAtOnce false (limit_message active_count (max_concurrent_encodes self)), self)
  else
    let encode_id := make_encode_id (clock_id w) (user_info a) in
    let files_to_check :=
      [("Intro", intro_path a); ("Episode", episode_path a); ("Subtitle", subtitle_path a)] in
    match first_missing (exists_path w) files_to_check with
    | Some (name, path) => (ReturnedAtOnce false (missing_message name path), self)
    | None =>
        (SuspendedWith encode_id,
         add_active_encode self encode_id (user_info a) (clock_add w))
    end.

(** The dict [_run_simple_encoding] returns, as far as the caller reads
    it. *)
Record encode_result := EncodeResult {
  success : bool;
  message : string
}.

(** [encode_single_pass] from [result = await encoding_task] to its
    return.  The task hands back a dict or the exception that escaped
    [_run_simple_encoding] (its [_setup_logger] call stands outside its
    [try]); the [await] re-raises it, and nothing in [encode_single_pass]
    catches it. *)
Definition encode_single_pass_resume (self : FastVideoEncoder) (encode_id : string)
    (task : Py.outcome encode_result)
    : Py.outcome (bool * string) * FastVideoEncoder :=
  match task with
  | Py.Raised e => (Py.Raised e, self)
  | Py.Returned result =>
      let self' := remove_active_encode self encode_id in
      if success result then (Py.Returned (true, message result), self')
      else (Py.Returned (false, message result), self')
  end.

(** The steps the event loop interleaves on the one encoder object. *)
Inductive action :=
| Submit (a : submit_args) (w : submit_world)
| Resume (encode_id : string) (task : Py.outcome encode_result)
| Stop (encode_id : string)
| Cleanup.

Definition step (self : FastVideoEncoder) (act : action) : FastVideoEncoder :=
  match act with
  | Submit a w => snd (encode_single_pass_start self a w)
  | Resume encode_id task => snd (encode_single_pass_resume self encode_id task)
  | Stop encode_id => snd (stop_encode self encode_id)
  | Cleanup => cleanup_all_processes self
  end.

Definition run (acts : list action) (self : FastVideoEncoder) : FastVideoEncoder :=
  fold_left step acts self.

(** *** Further functions of [encoder.py] *)

Definition search_dirs : list string := ["downloads"; "."; "videos"; "input"; "temp"].

Definition search_extensions : list string :=
  [".mp4"; ".mkv"; ".avi"; ".mov"; ".webm"; ".flv"].

Fixpoint first_existing (exists_path : string -> bool) (candidates : list string)
    : option string :=
  match candidates with
  | [] => None
  | p :: rest => if exists_path p then Some p else first_existing exists_path rest
  end.

(** The paths tried inside one directory: the name itself, then the
    name with each extension. *)
Definition candidates_in (directory filename : string) : list string :=
  OsPath.join directory filename
  :: map (fun ext => OsPath.join directory (filename +:+ ext)) search_extensions.

Fixpoint find_in_dirs (exists_path : string -> bool) (filename : string)
    (dirs : list string) : option string :=
  match dirs with
  | [] => None
  | directory :: rest =>
      if exists_path directory then
        match first_existing exists_path (candidates_in directory filename) with
        | Some p => Some p
        | None => find_in_dirs exists_path filename rest
        end
      else find_in_dirs exists_path filename rest
  end.

(** [FastVideoEncoder.find_video_file]; [exists_path] is
    [os.path.exists]. *)
Definition find_video_file (exists_path : string -> bool) (filename : string)
    : option string :=
  match find_in_dirs exists_path filename search_dirs with
  | Some p => Some p
  | None => if exists_path filename then Some filename else None
  end.

(** [encode_video] up to the first suspension of the
    [encode_single_pass] it awaits. *)
Definition encode_video_start (self : FastVideoEncoder)
    (intro_path episode_file subtitle_path user_info : string) (w : submit_world)
    : started * FastVideoEncoder :=
  match find_video_file (exists_path w) episode_file with
  | Some episode_path =>
      if String.eqb episode_path "" then
        (ReturnedAtOnce false ("Episode dosyası bulunamadı: " +:+ episode_file), self)
      else
        encode_single_pass_start self
          (SubmitArgs intro_path episode_path subtitle_path user_info) w
  | None => (ReturnedAtOnce false ("Episode dosyası bulunamadı: " +:+ episode_file), self)
  end.

(** The progress line of ffmpeg.  [\d] is modelled on the ASCII
    digits. *)
Definition digit (c : ascii) : option Z :=
  let n := nat_of_ascii c in
  if ((48 <=? n)%nat && (n <=? 57)%nat)%bool then Some (Z.of_nat n - 48) else None.

(** [(\d{2})] at the head of a string: the number and what follows. *)
Definition two_digits (s : string) : option (Z * string) :=
  match s with
  | String a (String b rest) =>
      match digit a, digit b with
      | Some x, Some y => Some (10 * x + y, rest)
      | _, _ => None
      end
  | _ => None
  end.

(** A literal at the head of a string: what follows it. *)
Fixpoint literal (lit s : string) : option string :=
  match lit, s with
  | EmptyString, _ => Some s
  | String a lit', String b s' => if Ascii.eqb a b then literal lit' s' else None
  | String _ _, EmptyString => None
  end.

(** [time=(\d{2}):(\d{2}):(\d{2})\.(\d{2})] matched at the head of a
    string. *)
Definition match_time_here (s : string) : option (Z * Z * Z * Z) :=
  match literal "time=" s with
  | None => None
  | Some s1 =>
      match two_digits s1 with
      | None => None
      | Some (hours, s2) =>
          match literal ":" s2 with
          | None => None
          | Some s3 =>
              match two_digits s3 with
              | None => None
              | Some (minutes, s4) =>
                  match literal ":" s4 with
                  | None => None
                  | Some s5 =>
                      match two_digits s5 with
                      | None => None
                      | Some (seconds, s6) =>
                          match literal "." s6 with
                          | None => None
                          | Some s7 =>
                              match two_digits s7 with
                              | None => None
                              | Some (centiseconds, _) =>
                                  Some (hours, minutes, seconds, centiseconds)
                              end
                          end
                      end
                  end
              end
          end
      end
  end.

(** [re.search] of that pattern: the leftmost match. *)
Fixpoint search_time (line : string) : option (Z * Z * Z * Z) :=
  match match_time_here line with
  | Some groups => Some groups
  | None =>
      match line with
      | EmptyString => None
      | String _ rest => search_time rest
      end
  end.

(** The [current_progress] that [_run_ffmpeg_process] assigns on a line
    of stderr ([None]: the line leaves it as it is, also when [int]
    raises inside the bare [except]).  [expected_duration] is the
    float that [_run_simple_encoding] passes. *)
Definition ffmpeg_progress (expected_duration : Py.float) (stderr_line : string)
    : option Z :=
  if Py.contains "time=" stderr_line
     && Py.float_lt (Py.float_of_int 0) expected_duration then
    match search_time stderr_line with
    | Some (hours, minutes, seconds, centiseconds) =>
        let elapsed_time :=
          Py.float_add (Py.float_of_int (hours * 3600 + minutes * 60 + seconds))
                       (Py.float_truediv (Py.float_of_int centiseconds)
                                         (Py.float_of_int 100)) in
        let ratio :=
          Py.float_mul (Py.float_truediv elapsed_time expected_duration)
                       (Py.float_of_int 100) in
        (* [int(min(ratio, 100))]: [min] hands back the int 100 when
           [100 < ratio] *)
        let current_progress :=
          if Py.float_lt (Py.float_of_int 100) ratio then Some 100
          else Py.int_of_float ratio in
        match current_progress with
        | Some current_progress => Some (Z.min current_progress 99)
        | None => None
        end
    | None => None
    end
  else None.

(** [subtitle_path.replace('\\', '/').replace(':', '\\:')] *)
Fixpoint escape_colons (s : string) : string :=
  match s with
  | EmptyString => EmptyString
  | String c s' =>
      if Ascii.eqb c ":"%char then String "\"%char (String ":"%char (escape_colons s'))
      else String c (escape_colons s')
  end.

Definition fix_subtitle_path (subtitle_path : string) : string :=
  escape_colons (Py.replace_char "\"%char "/"%char subtitle_path).

Definition subtitle_markers : list string := ["[Script Info]"; "[V4 Styles]"; "[V4+ Styles]"].

(** [_validate_subtitle_file]; [content] is the value of
    [f.read().strip()], or the exception of opening and reading. *)
Definition _validate_subtitle_file (content : Py.outcome string) (subtitle_path : string)
    : string * bool :=
  match content with
  | Py.Raised _ => (subtitle_path, false)
  | Py.Returned content =>
      if String.eqb content "" then (subtitle_path, false)
      else if negb (Py.any (fun marker => Py.contains marker content) subtitle_markers)
      then (subtitle_path, false)
      else (fix_subtitle_path subtitle_path, true)
  end.

(** In a path for the [ass] filter, a backslash stands only before a
    colon and a colon only after a backslash. *)
Fixpoint well_escaped (s : string) : bool :=
  match s with
  | EmptyString => true
  | String c rest =>
      if Ascii.eqb c "\"%char then
        match rest with
        | String d rest' => Ascii.eqb d ":"%char && well_escaped rest'
        | EmptyString => false
        end
      else negb (Ascii.eqb c ":"%char) && well_escaped rest
  end.

(** Submissions made one after the other, none of them resumed yet. *)
Definition submits (jobs : list (submit_args * submit_world)) : list action :=
  map (fun job => Submit (fst job) (snd job)) jobs.

(** A submission made within the clock second [second], by a user
    whose name, spaces replaced, begins with the eight characters
    [prefix] (or is [prefix], when shorter), with its three files
    present. *)
Definition in_slot (second : Z) (prefix : string) (job : submit_args * submit_world) : Prop :=
  Qle (inject_Z second) (clock_id (snd job)) /\
  Qlt (clock_id (snd job)) (inject_Z (second + 1)) /\
  Py.take_chars 8 (Py.replace_char " " "_" (user_info (fst job))) = prefix /\
  exists_path (snd job) (intro_path (fst job)) = true /\
  exists_path (snd job) (episode_path (fst job)) = true /\
  exists_path (snd job) (subtitle_path (fst job)) = true.

(** The gate invariant: the capacity is the constant of [__init__] and
    the registry does not hold more encodes than the capacity. *)
Definition gate_inv (self : FastVideoEncoder) : Prop :=
  max_concurrent_encodes self = 3%nat /\
  (size (active_encodes self) <= max_concurrent_encodes self)%nat.

(** Sample submissions: three users at the same second, all files
    present. *)
Definition sample_world : submit_world :=
  SubmitWorld 1700000000 1700000000 (fun _ => true).

Definition sample_args (user_info : string) : submit_args :=
  SubmitArgs "intro.mp4" "downloads/ep1.mkv" "ep1.ass" user_info.

Definition three_submits : list action :=
  [Submit (sample_args "alice") sample_world;
   Submit (sample_args "bob") sample_world;
   Submit (sample_args "carol") sample_world].

(** An [/encode] command as [bot.py] submits it, without [user_info]
    (the default [Unknown]), read at [clock]; all files present. *)
Definition encode_command (episode : string) (clock : Q) : submit_args * submit_world :=
  (SubmitArgs "downloads/intro.mp4" episode "subs/episode.ass" "Unknown",
   SubmitWorld clock clock (fun _ => true)).

Definition submit (self : FastVideoEncoder) (job : submit_args * submit_world)
    : started * FastVideoEncoder :=
  encode_single_pass_start self (fst job) (snd job).

End Encoder.

(** ** [downloader.py]: artifact resolution and the fetch driver *)

Module Downloader.

Inductive file_kind := RegularFile | SubDirectory.

(** One name of [os.listdir(output_dir)] with what [os.path.isfile],
    [os.path.getsize] and [os.path.getmtime] answer for it. *)
Record dir_entry := DirEntry {
  name : string;
  kind : file_kind;
  st_size : Z;
  st_mtime : Q
}.

(** Where the operating system finds a path that is not [output_dir]
    joined with a name of one component: at an entry of [output_dir]
    (as [downloads/./X.mp4] is the entry [X.mp4]), or outside of the
    listing, where a file, a directory or nothing lies. *)
Inductive place :=
| InDirectory (entry_name : string)
| Outside (what : option file_kind).

(** What [find_downloaded_file] reads from the outside: the clock, the
    listing of [output_dir] ([None] when the directory does not exist),
    whether the operating system carries out [os.remove] and
    [os.rename] or raises [OSError], and how it resolves a path whose
    last part has a separator in it.  The listing is the directory of
    the model: what a call does outside of it is not recorded. *)
Record world := Build_world {
  now : Q;
  listing : option (list dir_entry);
  remove_permitted : bool;
  rename_permitted : bool;
  resolve : string -> place
}.

(** A world in which the paths with a separator in their last part all
    lead to places where nothing lies. *)
Definition World (now : Q) (listing : option (list dir_entry))
    (remove_permitted rename_permitted : bool) : world :=
  Build_world now listing remove_permitted rename_permitted (fun _ => Outside None).

Definition video_extensions : list string :=
  [".mkv"; ".mp4"; ".avi"; ".mov"; ".wmv"; ".flv"; ".webm"; ".m4v"; ".ts"; ".m2ts"].

Definition temp_patterns : list string := [".aria2"; ".part"; ".downloading"; "*.tmp"].

(** [pattern.replace('*', '')] *)
Fixpoint remove_star (s : string) : string :=
  match s with
  | EmptyString => EmptyString
  | String c s' => if Ascii.eqb c "*"%char then remove_star s' else String c (remove_star s')
  end.

Definition isfile (e : dir_entry) : bool :=
  match kind e with RegularFile => true | SubDirectory => false end.

Definition path_of (output_dir : string) (e : dir_entry) : string :=
  OsPath.join output_dir (name e).

(** [any(file.lower().endswith(ext) for ext in video_extensions)] *)
Definition is_video (file : string) : bool :=
  Py.any (fun ext => Py.endswith (Py.lower file) ext) video_extensions.

(** [(current_time - file_mtime) / 3600] *)
Definition age_hours (current_time file_mtime : Q) : Q :=
  (current_time - file_mtime) / 3600.

(** The first loop over [all_files]: it fills [recent_files] and
    [candidate_files], both in listing order.  A path in these lists is
    represented by the directory entry it names. *)
Fixpoint scan_files (current_time : Q) (all_files : list dir_entry)
    : list dir_entry * list dir_entry :=
  match all_files with
  | [] => ([], [])
  | file :: rest =>
      let '(recent_files, candidate_files) := scan_files current_time rest in
      if negb (isfile file) then (recent_files, candidate_files)
      else if is_video (name file) then
        (if Qle_bool (age_hours current_time (st_mtime file)) 3
         then file :: recent_files else recent_files,
         file :: candidate_files)
      else (recent_files, candidate_files)
  end.

(** [any(pattern.replace('*', '') in file.lower() for pattern in temp_patterns)] *)
Definition is_temp (file : string) : bool :=
  Py.any (fun pattern => Py.contains (remove_star pattern) (Py.lower file)) temp_patterns.

Definition temp_files (all_files : list dir_entry) : list string :=
  map name (List.filter (fun e => is_temp (name e)) all_files).

(** The test of the last-resort loop. *)
Definition desperate_ok (current_time : Q) (e : dir_entry) : bool :=
  isfile e &&
  ((10 * 1024 * 1024 <? st_size e) && Qle_bool (age_hours current_time (st_mtime e)) 2).

Fixpoint desperate_pick (current_time : Q) (all_files : list dir_entry) : option dir_entry :=
  match all_files with
  | [] => None
  | file :: rest =>
      if desperate_ok current_time file then Some file
      else desperate_pick current_time rest
  end.

(** [os.stat(p)] for a path [p] that is [output_dir] joined with a name
    of one component: the entry of that name.  Such paths name the same
    file exactly when they are the same string; the paths with a
    separator in their last part go through [place_of] below. *)
Definition stat (output_dir : string) (dir : list dir_entry) (p : string) : option dir_entry :=
  find (fun e => String.eqb (path_of output_dir e) p) dir.

Definition path_exists (output_dir : string) (dir : list dir_entry) (p : string) : bool :=
  match stat output_dir dir p with Some _ => true | None => false end.

(** [os.remove(p)]: raises on a directory, on a missing path and when
    the operating system refuses. *)
Definition os_remove (w : world) (output_dir : string) (dir : list dir_entry) (p : string)
    : option (list dir_entry) :=
  match stat output_dir dir p with
  | Some e =>
      if isfile e && remove_permitted w
      then Some (List.filter (fun e' => negb (String.eqb (path_of output_dir e') p)) dir)
      else None
  | None => None
  end.

(** [os.rename(src, join(output_dir, new_name))]: the entry keeps its
    size and times under the new name, replacing what is there. *)
Definition os_rename (w : world) (output_dir : string) (dir : list dir_entry)
    (src new_name : string) : option (list dir_entry) :=
  match stat output_dir dir src with
  | Some _ =>
      if rename_permitted w then
        Some (map (fun e' =>
                     if String.eqb (path_of output_dir e') src
                     then DirEntry new_name (kind e') (st_size e') (st_mtime e')
                     else e')
                  (List.filter (fun e' =>
                             negb (String.eqb (path_of output_dir e')
                                              (OsPath.join output_dir new_name)))
                          dir))
      else None
  | None => None
  end.

(** [os.path.splitext(largest_file)[1] or '.mkv'] *)
Definition new_extension (largest_file : string) : string :=
  let e := snd (OsPath.splitext largest_file) in
  if String.eqb e "" then ".mkv" else e.

(** The place of [join(output_dir, new_name)]: the entry [new_name] of
    the directory when the name has no separator in it, and what the
    operating system resolves the path to when it has. *)
Definition place_of (w : world) (output_dir new_name : string) : place :=
  if Py.contains "/" new_name then resolve w (OsPath.join output_dir new_name)
  else InDirectory new_name.

(** [os.path.exists], [os.remove] and [os.rename] at a place. *)
Definition exists_at (output_dir : string) (dir : list dir_entry) (dest : place) : bool :=
  match dest with
  | InDirectory n => path_exists output_dir dir (OsPath.join output_dir n)
  | Outside (Some _) => true
  | Outside None => false
  end.

Definition remove_at (w : world) (output_dir : string) (dir : list dir_entry) (dest : place)
    : option (list dir_entry) :=
  match dest with
  | InDirectory n => os_remove w output_dir dir (OsPath.join output_dir n)
  | Outside (Some RegularFile) => if remove_permitted w then Some dir else None
  | Outside _ => None
  end.

(** A rename to a place outside of the listing takes the entry out of
    the directory. *)
Definition rename_to (w : world) (output_dir : string) (dir : list dir_entry)
    (src : string) (dest : place) : option (list dir_entry) :=
  match dest with
  | InDirectory n => os_rename w output_dir dir src n
  | Outside _ =>
      match stat output_dir dir src with
      | Some _ =>
          if rename_permitted w
          then Some (List.filter (fun e' => negb (String.eqb (path_of output_dir e') src)) dir)
          else None
      | None => None
      end
  end.

(** The renaming at the end of [find_downloaded_file], with its
    [try]/[except]: the path returned and the directory left behind.
    The two comparisons of [new_path] and [largest_file] are
    comparisons of strings; the three calls act on the place the
    operating system finds at [new_path]. *)
Definition rename_to_custom (w : world) (output_dir custom_name : string)
    (dir : list dir_entry) (largest_file : string) : string * list dir_entry :=
  let ext := new_extension largest_file in
  let new_name := custom_name +:+ ext in
  let new_path := OsPath.join output_dir new_name in
  let dest := place_of w output_dir new_name in
  let removed :=
    if exists_at output_dir dir dest && negb (String.eqb new_path largest_file)
    then remove_at w output_dir dir dest
    else Some dir in
  match removed with
  | None => (largest_file, dir)
  | Some dir1 =>
      if negb (String.eqb largest_file new_path) then
        match rename_to w output_dir dir1 largest_file dest with
        | Some dir2 => (new_path, dir2)
        | None => (largest_file, dir1)
        end
      else (new_path, dir1)
  end.

(** [find_downloaded_file]: the value returned ([None] is Python's
    [None]) and the directory left behind. *)
Definition find_downloaded_file (w : world) (output_dir custom_name : string)
    : option string * option (list dir_entry) :=
  let current_time := now w in
  match listing w with
  | None => (None, None)
  | Some all_files =>
      let '(recent_files, candidate_files) := scan_files current_time all_files in
      let target_files :=
        match recent_files with [] => candidate_files | _ => recent_files end in
      match Py.max_by st_size target_files with
      | None =>
          match temp_files all_files with
          | _ :: _ => (None, Some all_files)
          | [] =>
              match desperate_pick current_time all_files with
              | Some file => (Some (path_of output_dir file), Some all_files)
              | None => (None, Some all_files)
              end
          end
      | Some largest =>
          let largest_file := path_of output_dir largest in
          if negb (String.eqb custom_name "") then
            let '(p, dir') := rename_to_custom w output_dir custom_name all_files largest_file in
            (Some p, Some dir')
          else (Some largest_file, Some all_files)
      end
  end.

(** *** The driver [download_magnet_fast] *)

Record download_info := DownloadInfo {
  dl_start_time : Q;
  dl_status : string;
  dl_name : string
}.

(** [SimpleDownloadManager]: the dict [active_downloads]. *)
Definition add_download (active_downloads : gmap string download_info)
    (download_id : string) (info : download_info) : gmap string download_info :=
  <[download_id := info]> active_downloads.

(** [active_downloads.pop(download_id, None)] *)
Definition remove_download (active_downloads : gmap string download_info)
    (download_id : string) : gmap string download_info :=
  delete download_id active_downloads.

(** The two budgets the function declares. *)
Definition max_idle_time : Q := 300.
Definition max_total_time : Q := 1800.

(** What [asyncio.wait_for(process.wait(), timeout=2.0)] does. *)
Inductive wait_result :=
| WaitExited (returncode : Z)
| WaitTimeout
| WaitError.

(** One turn of the monitoring loop as the outside presents it:
    [process.returncode] at the loop head, the clock, the two-second
    wait, and the lines the process wrote since the turn before (read by
    the [read_output] task into [output_lines]). *)
Record tick := Tick {
  head_returncode : option Z;
  current_time : Q;
  waited : wait_result;
  new_output : list string
}.

Inductive monitor_exit :=
| ProcessExited (returncode : Z)   (* the loop condition failed, or the wait returned *)
| TotalTimeout                     (* [break] on the total budget *)
| MonitoringError                  (* [break] in the [except] of the loop *)
| TicksExhausted.                  (* the model's list of turns ran out *)

(** The [while process.returncode is None] loop.  It returns how the
    loop was left, the elapsed minutes of each progress edit (sent when
    there is a progress message) and the [output_lines] of
    [read_output]. *)
Fixpoint monitor (start_time last_update : Q) (output_lines : list string)
    (ticks : list tick) : monitor_exit * list Z * list string :=
  match ticks with
  | [] => (TicksExhausted, [], output_lines)
  | t :: rest =>
      let output_lines := output_lines ++ new_output t in
      match head_returncode t with
      | Some rc => (ProcessExited rc, [], output_lines)
      | None =>
          if negb (Qle_bool (current_time t - start_time) max_total_time)
          then (TotalTimeout, [], output_lines)
          else
            match waited t with
            | WaitExited rc => (ProcessExited rc, [], output_lines)
            | WaitError => (MonitoringError, [], output_lines)
            | WaitTimeout =>
                if negb (Qle_bool (current_time t - last_update) 5) then
                  let '(ex, edits, out) := monitor start_time (current_time t) output_lines rest in
                  (ex, Py.int ((current_time t - start_time) / 60) :: edits, out)
                else monitor start_time last_update output_lines rest
            end
      end
  end.

(** What happens to a process that is still running after the loop:
    [terminate()] and a ten-second wait, [kill()] in the bare [except];
    [kill()] itself may raise. *)
Inductive termination :=
| Terminated (returncode : Z)
| Killed (returncode : option Z)
| KillRaised (e : Py.exn).

Record driver_world := DriverWorld {
  aria2_path : Py.outcome string;          (* [get_aria2_path()] *)
  download_id : string;                    (* [str(uuid.uuid4())[:8].upper()] *)
  start_time : Q;
  spawn : Py.outcome unit;                 (* [asyncio.create_subprocess_exec] *)
  ticks : list tick;
  on_terminate : termination;
  find_world : world;                      (* the world [find_downloaded_file] sees *)
  getsize_result : Py.outcome Z            (* [os.path.getsize(result_file)] afterwards *)
}.

Inductive manager_call :=
| AddDownload (download_id : string)
| RemoveDownload (download_id : string).

Definition show_returncode (rc : option Z) : string :=
  match rc with Some z => pretty z | None => "None" end.

Definition not_found_message (rc : option Z) : string :=
  "İndirilen dosya bulunamadı (return code: " +:+ show_returncode rc +:+ ")".

Definition critical_message (e : Py.exn) : string :=
  "İndirme kritik hatası: " +:+ Py.exn_str e.

Record driver_result := DriverResult {
  returned : bool * string;
  active_downloads : gmap string download_info;
  calls : list manager_call;                (* calls on [download_manager], in order *)
  process_terminated : bool;                (* was [process.terminate()] called *)
  left_by : option monitor_exit
}.

(** [download_magnet_fast].  The outer [except Exception] handler is
    [handler]: it removes the download and returns the critical error. *)
Definition download_magnet_fast (active : gmap string download_info) (w : driver_world)
    (custom_name output_dir : string) : driver_result :=
  let id := download_id w in
  let handler e active calls terminated how_left :=
    DriverResult (false, critical_message e) (remove_download active id)
                 (calls ++ [RemoveDownload id]) terminated how_left in
  match aria2_path w with
  | Py.Raised e => DriverResult (false, Py.exn_str e) active [] false None
  | Py.Returned _ =>
      match spawn w with
      | Py.Raised e => handler e active [] false None
      | Py.Returned _ =>
          let active1 :=
            add_download active id (DownloadInfo (start_time w) "downloading" custom_name) in
          let calls1 := [AddDownload id] in
          let '(how_left, _, _) := monitor (start_time w) 0 [] (ticks w) in
          let after_loop : Py.outcome (option Z * bool) :=
            match how_left with
            | ProcessExited rc => Py.Returned (Some rc, false)
            | _ =>
                match on_terminate w with
                | Terminated rc => Py.Returned (Some rc, true)
                | Killed rc => Py.Returned (rc, true)
                | KillRaised e => Py.Raised e
                end
            end in
          match after_loop with
          | Py.Raised e => handler e active1 calls1 true (Some how_left)
          | Py.Returned (return_code, terminated) =>
              let active2 := remove_download active1 id in
              let calls2 := calls1 ++ [RemoveDownload id] in
              match fst (find_downloaded_file (find_world w) output_dir custom_name) with
              | Some result_file =>
                  match getsize_result w with
                  | Py.Raised e => handler e active2 calls2 terminated (Some how_left)
                  | Py.Returned _ =>
                      DriverResult (true, OsPath.basename result_file) active2 calls2
                                   terminated (Some how_left)
                  end
              | None =>
                  DriverResult (false, not_found_message return_code) active2 calls2
                               terminated (Some how_left)
              end
          end
      end
  end.

(** *** Further functions of [downloader.py] *)

Definition aria2_candidates : list string :=
  ["aria2c"; "aria2c.exe"; "C:\aria2\aria2c.exe"; "C:\Program Files\aria2\aria2c.exe"].

(** The loop of [get_aria2_path]: [probe path] is what
    [subprocess.run([path, "--version"], ...)] does, a return code or an
    exception. *)
Fixpoint first_working (probe : string -> Py.outcome Z) (paths : list string)
    : option string :=
  match paths with
  | [] => None
  | path :: rest =>
      match probe path with
      | Py.Returned 0 => Some path
      | _ => first_working probe rest
      end
  end.

Definition aria2_not_found : Py.exn :=
  Py.Exn Py.OtherException
         "❌ Aria2c bulunamadı! Lütfen aria2c'yi yükleyin ve PATH'e ekleyin.".

Definition get_aria2_path (probe : string -> Py.outcome Z) : Py.outcome string :=
  match first_working probe aria2_candidates with
  | Some path => Py.Returned path
  | None => Py.Raised aria2_not_found
  end.



(** A turn that finds the process running. *)
Definition still_running (t : tick) : Prop :=
  head_returncode t = None /\ waited t = WaitTimeout.

(** A turn whose clock reading is past the total budget. *)
Definition past_budget (start : Q) (t : tick) : Prop :=
  Qlt max_total_time (current_time t - start).

(** Sample runs of the driver.  A process that writes nothing and is
    polled every four seconds; an empty download directory. *)
Definition silent_tick (t : Q) : tick := Tick None t WaitTimeout [].

Fixpoint silent_ticks (n : nat) (from : Q) : list tick :=
  match n with
  | O => []
  | S n' => silent_tick from :: silent_ticks n' (from + 4)
  end.

Definition sample_driver (ticks : list tick) : driver_world :=
  DriverWorld (Py.Returned "aria2c") "AB12CD34" 0 (Py.Returned tt) ticks
              (Terminated (-15)) (World 2000 (Some []) true true) (Py.Returned 0).

(** Silent for 400 seconds, then the process exits by itself. *)
Definition silent_then_exit : driver_world :=
  sample_driver (silent_ticks 101 0 ++ [Tick None 404 (WaitExited 0) []]).

(** Still running at second 1804. *)
Definition runs_too_long : driver_world :=
  sample_driver (silent_ticks 451 0 ++ [silent_tick 1804; silent_tick 1808]).

(** Exits by itself at second 40 with the code of a signalled process. *)
Definition exits_signalled : driver_world :=
  sample_driver (silent_ticks 10 0 ++ [Tick None 40 (WaitExited (-15)) []]).

(** *** The two filters of the loop, as filters of the listing *)

Definition video_candidates (all_files : list dir_entry) : list dir_entry :=
  List.filter (fun e => isfile e && is_video (name e)) all_files.

Definition recent (current_time : Q) (e : dir_entry) : bool :=
  Qle_bool (age_hours current_time (st_mtime e)) 3.

Definition chosen_set (current_time : Q) (all_files : list dir_entry) : list dir_entry :=
  let recent_ones := List.filter (recent current_time) (video_candidates all_files) in
  match recent_ones with
  | [] => video_candidates all_files
  | _ => recent_ones
  end.

(** The markers of an unfinished download, as [temp_patterns] applies
    them. *)
Definition temporary_markers : list string := [".aria2"; ".part"; ".downloading"; ".tmp"].

Definition MiB : Z := 1024 * 1024.


(** *** The rules of the resolver in the words of their description *)

(** A regular file whose name, in lower case, ends with a known video
    extension. *)
Definition video_file (e : dir_entry) : Prop :=
  kind e = RegularFile /\
  exists stem ext,
    In ext [".mkv"; ".mp4"; ".avi"; ".mov"; ".wmv"; ".flv"; ".webm"; ".m4v"; ".ts"; ".m2ts"] /\
    Py.lower (name e) = stem +:+ ext.

(** Modified at most [hours] hours before [now]. *)
Definition modified_within (hours : Z) (now : Q) (e : dir_entry) : Prop :=
  Qle (now - st_mtime e) (inject_Z (hours * 3600)).

(** The chosen set: the video files, and only those modified within
    three hours when there is such a video file. *)
Definition chosen (now : Q) (all_files : list dir_entry) (e : dir_entry) : Prop :=
  In e all_files /\ video_file e /\
  ((exists e', In e' all_files /\ video_file e' /\ modified_within 3 now e') ->
   modified_within 3 now e).

(** An entry, file or directory, whose name in lower case contains a
    marker of an unfinished download. *)
Definition marked (e : dir_entry) : Prop :=
  exists m before after,
    In m [".aria2"; ".part"; ".downloading"; ".tmp"] /\
    Py.lower (name e) = before +:+ m +:+ after.

(** A regular file larger than 10 MiB modified at most two hours ago. *)
Definition eligible (now : Q) (e : dir_entry) : Prop :=
  kind e = RegularFile /\ 10 * 1024 * 1024 < st_size e /\ modified_within 2 now e.



(** Sample directories, seen at second 100000. *)
Definition sample_world (dir : list dir_entry) (rename_permitted : bool) : world :=
  World 100000 (Some dir) true rename_permitted.

Definition movie : dir_entry := DirEntry "X.mp4" RegularFile (50 * MiB) 99940.
Definition part_file : dir_entry := DirEntry "Y.tmp.part" RegularFile (10 * MiB) 99990.
Definition old_movie : dir_entry := DirEntry "old.mkv" RegularFile (700 * MiB) 10000.
Definition image : dir_entry := DirEntry "disc.iso" RegularFile (50 * MiB) 99940.
Definition cache_dir : dir_entry := DirEntry "cache.tmp" SubDirectory 4096 99000.
Definition notes : dir_entry := DirEntry "NOTES.TMP" RegularFile 2048 99000.
Definition readme : dir_entry := DirEntry "readme.txt" RegularFile 2048 99000.

(** A turn with its output removed. *)
Definition silenced (t : tick) : tick :=
  Tick (head_returncode t) (current_time t) (waited t) [].


End Downloader.

(** ** [uploader.py]: the chunked transfer and the upload registry *)

Module Uploader.

(** *** [UploadManager] *)

Record upload_info := UploadInfo {
  file_path : string;
  service_name : string;
  user_info : string;
  start_time : Q;
  progress : Z;
  status : string;
  speed : string;
  eta : string
}.

Definition add_upload (active_uploads : gmap string upload_info)
    (upload_id file_path service user_info : string) (now : Q) : gmap string upload_info :=
  <[upload_id := UploadInfo file_path service user_info now 0 "uploading" "0 MB/s"
                            "Calculating..."]> active_uploads.

(** [update_upload_progress]: an empty [speed] or [eta] leaves the old
    text. *)
Definition update_upload_progress (active_uploads : gmap string upload_info)
    (upload_id : string) (progress : Z) (speed eta : string) : gmap string upload_info :=
  match active_uploads !! upload_id with
  | Some i =>
      <[upload_id :=
          UploadInfo (file_path i) (service_name i) (user_info i) (start_time i) progress
                     (status i)
                     (if String.eqb speed "" then Uploader.speed i else speed)
                     (if String.eqb eta "" then Uploader.eta i else eta)]> active_uploads
  | None => active_uploads
  end.

Definition remove_upload (active_uploads : gmap string upload_info) (upload_id : string)
    : gmap string upload_info :=
  match active_uploads !! upload_id with
  | Some _ => delete upload_id active_uploads
  | None => active_uploads
  end.

(** *** [GoogleDriveUploader.upload_with_progress] *)

(** The [MediaUploadProgress] of one [next_chunk()]: [percent] is the
    integer [int(status.progress() * 100)] and [elapsed_positive] the
    outcome of [elapsed_time > 0] on the clock. *)
Record chunk_status := ChunkStatus {
  percent : Z;
  elapsed_positive : bool
}.

(** The response body as far as it is read; an absent or empty ['id'] is
    the empty string. *)
Record response := Response {
  resp_id : string;
  resp_name : string
}.

(** One call of [request.next_chunk()]. *)
Inductive next_chunk :=
| Chunk (status : option chunk_status) (resp : option response)
| ChunkRaised (e : Py.exn).

(** Which [asyncio.sleep] of the function an event comes from. *)
Inductive pause :=
| Pace             (* [sleep(0.1)] after a status *)
| ChunkBackoff     (* the sleeps of the two chunk-level handlers *)
| AttemptBackoff.  (* [sleep(2 ** attempt)] of the attempt-level handlers *)

(** What the function does to the outside, in order. *)
Inductive event :=
| Authenticate                 (* [self.authenticate()] *)
| CreateRequest                (* a new [MediaFileUpload] and [files().create]: a new session *)
| NextChunk                    (* [request.next_chunk()] *)
| Callback (progress : Z)      (* [progress_callback(progress, ...)] *)
| Sleep (why : pause) (seconds : Q)
| SetPermission.               (* [permissions().create(...).execute()] *)

Inductive upload_result :=
| UploadOk (file_id file_name : string)
| UploadFailed (message : string)
| ScriptExhausted.     (* the model's list of outside answers ran out *)

Inductive loop_exit :=
| GotResponse (r : response)
| LoopRaised (e : Py.exn)
| OutOfChunks.

Definition transient_status (st : Z) : bool :=
  Py.any (Z.eqb st) [500; 502; 503; 504].

(** The sleep of the [HttpError] chunk handler:
    [min(retry_chunk_count * 2, 10)]. *)
Definition chunk_backoff (retry_chunk_count : Z) : Z := Z.min (retry_chunk_count * 2) 10.

Definition stalled : Py.exn := Py.Exn Py.OtherException "Upload progress stalled for too long".

Definition prepend {A B} (evs : list event) (r : A * list event * B) : A * list event * B :=
  let '(a, evs', b) := r in (a, evs ++ evs', b).

(** The [while response is None] loop of one attempt.  It returns how
    the loop was left, the events, and the answers not consumed. *)
Fixpoint chunk_loop (callback : bool) (chunks : list next_chunk)
    (last_progress stall_count retry_chunk_count : Z)
    : loop_exit * list event * list next_chunk :=
  match chunks with
  | [] => (OutOfChunks, [], [])
  | ChunkRaised chunk_error :: rest =>
      let retry_chunk_count := retry_chunk_count + 1 in
      match Py.exn_cls chunk_error with
      | Py.HttpError st =>
          if transient_status st then
            if 5 <=? retry_chunk_count then (LoopRaised chunk_error, [NextChunk], rest)
            else
              prepend [NextChunk; Sleep ChunkBackoff (inject_Z (chunk_backoff retry_chunk_count))]
                      (chunk_loop callback rest last_progress stall_count retry_chunk_count)
          else (LoopRaised chunk_error, [NextChunk], rest)
      | Py.OtherException =>
          if 3 <=? retry_chunk_count then (LoopRaised chunk_error, [NextChunk], rest)
          else
            prepend [NextChunk; Sleep ChunkBackoff (inject_Z (retry_chunk_count * 2))]
                    (chunk_loop callback rest last_progress stall_count retry_chunk_count)
      end
  | Chunk status resp :: rest =>
      (* [retry_chunk_count = 0] *)
      let again evs last_progress stall_count retry_chunk_count :=
        match resp with
        | Some r => (GotResponse r, evs, rest)
        | None =>
            prepend evs (chunk_loop callback rest last_progress stall_count retry_chunk_count)
        end in
      match status with
      | None => again [NextChunk] last_progress stall_count 0
      | Some s =>
          let progress := percent s in
          if (last_progress <? progress) && elapsed_positive s then
            again (NextChunk :: (if callback then [Callback progress] else [])
                     ++ [Sleep Pace (1 # 10)])
                  progress 0 0
          else if progress =? last_progress then
            let stall_count := stall_count + 1 in
            if 50 <? stall_count then
              (* [raise Exception("... stalled ...")], caught by the
                 [except Exception] of the same [try] with
                 [retry_chunk_count] just reset: 1 < 3, sleep and continue *)
              again [NextChunk; Sleep ChunkBackoff (inject_Z (1 * 2))] last_progress stall_count 1
            else again [NextChunk; Sleep Pace (1 # 10)] last_progress stall_count 0
          else again [NextChunk; Sleep Pace (1 # 10)] last_progress stall_count 0
      end
  end.

(** What an attempt-level handler decides. *)
Inductive handled :=
| ReturnNow (r : upload_result)
| NextAttempt (service : bool) (evs : list event).

Definition network_words : list string :=
  ["network"; "connection"; "timeout"; "ssl"; "socket"].

(** The two [except] clauses of the [for attempt] loop. *)
Definition handle_exception (max_retries attempt : Z) (service : bool) (e : Py.exn)
    : handled :=
  let text := Py.lower (Py.exn_str e) in
  let backoff := [Sleep AttemptBackoff (inject_Z (2 ^ attempt))] in
  match Py.exn_cls e with
  | Py.HttpError st =>
      if st =? 403 then
        if Py.contains "quota" text || Py.contains "rate" text
        then ReturnNow (UploadFailed "Google Drive quota or rate limit exceeded")
        else ReturnNow (UploadFailed "Google Drive permission denied")
      else if st =? 404 then ReturnNow (UploadFailed "Google Drive API endpoint not found")
      else if st =? 401 then
        (* [self.service = None] *)
        if attempt <? max_retries - 1 then NextAttempt false backoff
        else ReturnNow (UploadFailed "Authentication failed")
      else if 500 <=? st then
        if attempt <? max_retries - 1 then NextAttempt service backoff
        else ReturnNow (UploadFailed ("Google Drive server error: " +:+ pretty st))
      else
        ReturnNow (UploadFailed ("Google API error (attempt " +:+ pretty (attempt + 1)
                                 +:+ "): " +:+ Py.exn_str e))
  | Py.OtherException =>
      if Py.any (fun err => Py.contains err text) network_words
         && (attempt <? max_retries - 1)
      then NextAttempt service backoff
      else if attempt =? max_retries - 1 then
        ReturnNow (UploadFailed ("Upload failed after " +:+ pretty max_retries
                                 +:+ " attempts: " +:+ Py.exn_str e))
      else NextAttempt service []
  end.

Definition no_valid_response : Py.exn :=
  Py.Exn Py.OtherException "Upload completed but no valid response received".

Definition add_events {A} (evs : list event) (r : A * list event) : A * list event :=
  let '(a, evs') := r in (a, evs ++ evs').

Section Attempt.

(** One iteration of the [for attempt] loop.  [next] stands for the
    remaining iterations, entered by [continue] or by leaving an
    [except] clause without [return]. *)
Variables (callback : bool) (max_retries attempt : Z).
Variable next : bool -> list (Py.outcome bool) -> list next_chunk -> upload_result * list event.

(** An exception reaching the attempt-level handlers. *)
Definition on_exception (e : Py.exn) (service : bool) (auths : list (Py.outcome bool))
    (chunks : list next_chunk) : upload_result * list event :=
  match handle_exception max_retries attempt service e with
  | ReturnNow r => (r, [])
  | NextAttempt service' evs => add_events evs (next service' auths chunks)
  end.

(** From the end of the chunk loop to the [return] of the attempt. *)
Definition conclude (auths : list (Py.outcome bool)) (how : loop_exit)
    (chunks : list next_chunk) : upload_result * list event :=
  match how with
  | OutOfChunks => (ScriptExhausted, [])
  | LoopRaised e => on_exception e true auths chunks
  | GotResponse r =>
      if String.eqb (resp_id r) "" then on_exception no_valid_response true auths chunks
      else (UploadOk (resp_id r) (resp_name r), [SetPermission])
  end.

(** From the creation of the request on: a new session, and the chunk
    loop started with [last_progress = 0], [stall_count = 0] and
    [retry_chunk_count = 0]. *)
Definition transfer (auths : list (Py.outcome bool)) (chunks : list next_chunk)
    : upload_result * list event :=
  let '(how, evs, chunks') := chunk_loop callback chunks 0 0 0 in
  add_events (CreateRequest :: evs) (conclude auths how chunks').

(** The whole iteration, from the test of [self.service]. *)
Definition attempt_body (service : bool) (auths : list (Py.outcome bool))
    (chunks : list next_chunk) : upload_result * list event :=
  if service then transfer auths chunks
  else
    match auths with
    | [] => (ScriptExhausted, [Authenticate])
    | Py.Returned true :: auths' => add_events [Authenticate] (transfer auths' chunks)
    | Py.Returned false :: auths' =>
        if attempt =? max_retries - 1
        then (UploadFailed "Authentication failed after all retries", [Authenticate])
        else add_events [Authenticate; Sleep AttemptBackoff (inject_Z (2 ^ attempt))]
                        (next false auths' chunks)
    | Py.Raised e :: auths' => add_events [Authenticate] (on_exception e false auths' chunks)
    end.

End Attempt.

(** The [for attempt in range(max_retries)] loop; [todo] is the number
    of iterations left, [service] whether [self.service] is set,
    [auths] the answers of [self.authenticate()] and [chunks] those of
    [next_chunk()]. *)
Fixpoint attempts (callback : bool) (max_retries : Z) (todo : nat) (attempt : Z)
    (service : bool) (auths : list (Py.outcome bool)) (chunks : list next_chunk)
    : upload_result * list event :=
  match todo with
  | O => (UploadFailed "Upload failed for unknown reason", [])
  | S todo' =>
      attempt_body callback max_retries attempt
                   (attempts callback max_retries todo' (attempt + 1))
                   service auths chunks
  end.

(** What [upload_with_progress] reads from the outside. *)
Record world := World {
  file_exists : bool;
  file_size : Z;
  service : bool;
  auths : list (Py.outcome bool);
  chunks : list next_chunk
}.

Definition upload_with_progress (w : world) (file_path : string) (callback : bool)
    (max_retries : Z) : upload_result * list event :=
  if negb (file_exists w) then (UploadFailed ("File not found: " +:+ file_path), [])
  else if file_size w =? 0 then (UploadFailed "File is empty (0 bytes)", [])
  else attempts callback max_retries (Z.to_nat max_retries) 0 (service w) (auths w) (chunks w).

(** *** [VideoUploadBot.upload_video] *)

Record video_world := VideoWorld {
  found_file : option string;      (* [find_video_file(video_name)] *)
  found_size : Z;                  (* [os.path.getsize(file_path)] *)
  upload_id : string;              (* the id built from the clock and the file hash *)
  clock : Q;
  GOOGLE_DRIVE_AVAILABLE : bool;
  awaited : Py.outcome (upload_result * list event)
                                   (* [await self.gdrive.upload_with_progress(...)] *)
}.

Definition max_file_size : Z := 5 * 1024 * 1024 * 1024.

Definition not_installed : string :=
  "Google Drive API packages not installed. Run: pip install google-api-python-client google-auth-oauthlib google-auth-httplib2".

(** [internal_progress_callback] applied to the callbacks of a run; the
    speed and ETA texts, formatted from floats, are stood for by two
    fixed non-empty strings. *)
Definition record_progress (upload_id : string) (active : gmap string upload_info)
    (evs : list event) : gmap string upload_info :=
  fold_left (fun m ev =>
               match ev with
               | Callback p => update_upload_progress m upload_id p "speed" "eta"
               | _ => m
               end) evs active.

(** [upload_video]: the value returned and the registry left behind
    (the message for a file above [max_file_size] is given without its
    float-formatted size). *)
Definition upload_video (active_uploads : gmap string upload_info) (w : video_world)
    (video_name user_info : string) : upload_result * gmap string upload_info :=
  match found_file w with
  | None => (UploadFailed ("Video dosyası bulunamadı: " +:+ video_name), active_uploads)
  | Some file_path =>
      if max_file_size <? found_size w
      then (UploadFailed "Dosya çok büyük (max 5GB)", active_uploads)
      else if found_size w =? 0 then (UploadFailed "Dosya boş", active_uploads)
      else
        let id := upload_id w in
        let active1 := add_upload active_uploads id file_path "gdrive" user_info (clock w) in
        (* try: *)
        let '(result, active2) :=
          if negb (GOOGLE_DRIVE_AVAILABLE w) then (UploadFailed not_installed, active1)
          else
            match awaited w with
            | Py.Returned (result, evs) => (result, record_progress id active1 evs)
            | Py.Raised e => (UploadFailed ("Upload failed: " +:+ Py.exn_str e), active1)
            end in
        (* finally: *)
        (result, remove_upload active2 id)
  end.

(** *** Further functions of [GoogleDriveUploader] *)

(** [calculate_optimal_chunk_size] *)
Definition calculate_optimal_chunk_size (file_size : Z) : Z :=
  if file_size <? 50 * 1024 * 1024 then 1024 * 1024
  else if file_size <? 500 * 1024 * 1024 then 5 * 1024 * 1024
  else if file_size <? 2 * 1024 * 1024 * 1024 then 10 * 1024 * 1024
  else 25 * 1024 * 1024.

(** The failure messages of the [HttpError] statuses that end the
    upload at once. *)
Definition final_messages (attempt : Z) (e : Py.exn) : list string :=
  ["Google Drive quota or rate limit exceeded";
   "Google Drive permission denied";
   "Google Drive API endpoint not found";
   "Google API error (attempt " +:+ pretty (attempt + 1) +:+ "): " +:+ Py.exn_str e].

(** *** Observations on a run *)

(** The percent values handed to the progress callback, in order. *)
Definition callbacks (evs : list event) : list Z :=
  flat_map (fun ev => match ev with Callback p => [p] | _ => [] end) evs.

(** The seconds slept by the chunk-level handlers, in order. *)
Definition chunk_backoffs (evs : list event) : list Q :=
  flat_map (fun ev => match ev with Sleep ChunkBackoff d => [d] | _ => [] end) evs.

Definition count_event (which : event -> bool) (evs : list event) : nat :=
  length (List.filter which evs).

Definition is_authenticate (ev : event) : bool :=
  match ev with Authenticate => true | _ => false end.

Definition is_create_request (ev : event) : bool :=
  match ev with CreateRequest => true | _ => false end.

Fixpoint strictly_increasing (l : list Z) : Prop :=
  match l with
  | x :: ((y :: _) as l') => x < y /\ strictly_increasing l'
  | _ => True
  end.

(** Every callback of a request reports more than the callback before
    it in the same request (more than [last] for the first one, and
    [last] is 0 when a request is created) and at most 100. *)
Fixpoint increasing_per_request (last : Z) (evs : list event) : Prop :=
  match evs with
  | [] => True
  | CreateRequest :: evs' => increasing_per_request 0 evs'
  | Callback p :: evs' => last < p /\ p <= 100 /\ increasing_per_request p evs'
  | _ :: evs' => increasing_per_request last evs'
  end.

(** The server reports a percent between 0 and 100. *)
Definition percent_in_range (c : next_chunk) : Prop :=
  match c with
  | Chunk (Some s) _ => 0 <= percent s <= 100
  | _ => True
  end.

(** A chunk accepted with the upload still unfinished. *)
Definition in_progress (c : next_chunk) : Prop :=
  match c with
  | Chunk _ None => True
  | _ => False
  end.

(** An [HttpError] of the transient server-error class. *)
Definition server_error (e : Py.exn) : Prop :=
  exists st, Py.exn_cls e = Py.HttpError st /\ transient_status st = true.

(** A backoff schedule that doubles from [base] and is capped at
    [cap], for the [n]-th consecutive failure. *)
Definition capped_exponential (base cap n : Z) : Z := Z.min (base * 2 ^ (n - 1)) cap.

(** Sample answers of the server. *)
Definition http (st : Z) : Py.exn := Py.Exn (Py.HttpError st) "HttpError".
Definition at_percent (p : Z) : next_chunk := Chunk (Some (ChunkStatus p true)) None.
Definition done : next_chunk := Chunk None (Some (Response "file-id" "episode.mp4")).

Definition sample_world (auths : list (Py.outcome bool)) (chunks : list next_chunk) : world :=
  World true (100 * 1024 * 1024) true auths chunks.

(** Half of the file is sent, the token expires, the new session reports
    30 percent and finishes. *)
Definition expiry_midway : world :=
  sample_world [Py.Returned true] [at_percent 50; ChunkRaised (http 401); at_percent 30; done].

(** The token expires, and again in the next attempt. *)
Definition expiry_twice : world :=
  sample_world [Py.Returned true; Py.Returned true]
               [at_percent 50; ChunkRaised (http 401); ChunkRaised (http 401);
                at_percent 30; done].

(** Five consecutive server errors on the first chunk, then a clean
    run. *)
Definition five_server_errors : world :=
  sample_world [] (repeat (ChunkRaised (http 503)) 5 ++ [at_percent 60; done]).

(** Ten chunks, the fourth failing twice before it is accepted. *)
Definition fourth_chunk_fails_twice : world :=
  sample_world []
    ([at_percent 10; at_percent 20; at_percent 30;
      ChunkRaised (http 503); ChunkRaised (http 502)] ++
     [at_percent 40; at_percent 50; at_percent 60; at_percent 70; at_percent 80;
      at_percent 90; done]).

(** A sample call of [upload_video]. *)
Definition sample_video_world : video_world :=
  VideoWorld (Some "encode/episode.mp4") 1000 "1700000000_abc" 1700000000 true
             (Py.Returned (upload_with_progress fourth_chunk_fails_twice
                             "encode/episode.mp4" true 3)).

End Uploader.

(** ** [bot.py]: what the upload command shows of the progress *)

Module Bot.

(** [int(length * progress / 100)]: the quotient is truncated toward
    zero; the float division is exact enough for that as long as
    [length * progress] stays below 2^53. *)
Definition filled_cells (progress length : Z) : Z := Z.quot (length * progress) 100.

(** The cells of the bar: ["█" * filled + "░" * empty], where a string
    times a number that is not positive is the empty string. *)
Definition bar_cells (progress length : Z) : list string :=
  let filled := filled_cells progress length in
  let empty := length - filled in
  repeat "█" (Z.to_nat filled) ++ repeat "░" (Z.to_nat empty).

(** [create_progress_bar(progress, length)] *)
Definition create_progress_bar (progress length : Z) : string :=
  "[" +:+ String.concat "" (bar_cells progress length) +:+ "] " +:+ pretty progress +:+ "%".

(** One call of the [progress_callback] of [slash_upload]: whether the
    message is sent or edited, and the new [last_progress]. *)
Definition progress_callback (last_progress progress : Z) : bool * Z :=
  if (progress - last_progress <? 5) && (progress <? 100) then (false, last_progress)
  else (true, progress).

(** The percents shown for the callbacks of an upload, in order. *)
Fixpoint shown_from (last_progress : Z) (delivered : list Z) : list Z :=
  match delivered with
  | [] => []
  | progress :: rest =>
      let '(sent, last_progress') := progress_callback last_progress progress in
      if sent then progress :: shown_from last_progress' rest
      else shown_from last_progress' rest
  end.

(** [last_progress = -1] at the start of the command. *)
Definition shown (delivered : list Z) : list Z := shown_from (-1) delivered.

(** Each percent shown is at least 5 above the one shown before it
    ([prev] for the first), or is 100 or more. *)
Fixpoint spaced (prev : Z) (l : list Z) : Prop :=
  match l with
  | [] => True
  | p :: l' => (5 <= p - prev \/ 100 <= p) /\ spaced p l'
  end.

End Bot.

(** ** [stats.py]: the counters of [ProfessionalBotStats] *)

Module Stats.

(** One day of ["daily_stats"]. *)
Record day_stats := DayStats {
  commands : Z;
  downloads : Z;
  encodes : Z;
  data_processed : Z
}.

(** The entries of [self.stats] that the methods below read or write. *)
Record stats := Stats {
  commands_processed : Z;
  total_downloads : Z;
  total_encodes : Z;
  active_downloads : Z;
  active_encodes : Z;
  connected_servers : Z;
  total_users : Z;
  download_success : Z;
  download_failed : Z;
  encode_success : Z;
  encode_failed : Z;
  last_updated : option Q;
  peak_concurrent_operations : Z;
  daily_stats : gmap string day_stats
}.

(** The dict literal of [__init__], as far as these entries go. *)
Definition defaults : stats :=
  Stats 0 0 0 0 0 0 0 0 0 0 0 None 0 ∅.

(** The JSON object of [logs/bot_stats.json] as [load_stats] reads it:
    which of these entries it holds, and their values, taken to be of
    the types [save_stats] writes. *)
Record stats_file := StatsFile {
  file_commands_processed : option Z;
  file_total_downloads : option Z;
  file_total_encodes : option Z;
  file_active_downloads : option Z;
  file_active_encodes : option Z;
  file_connected_servers : option Z;
  file_total_users : option Z;
  file_download_success : option Z;
  file_download_failed : option Z;
  file_encode_success : option Z;
  file_encode_failed : option Z;
  file_last_updated : option (option Q);
  file_peak_concurrent_operations : option Z;
  file_daily_stats : option (gmap string day_stats)
}.

(** [load_stats]: every entry of the file replaces the entry of
    [self.stats], unchecked; [None] is a file that is absent, cannot be
    read or is not JSON. *)
Definition load_stats (file : option stats_file) (s : stats) : stats :=
  match file with
  | None => s
  | Some f =>
      Stats (default (commands_processed s) (file_commands_processed f))
            (default (total_downloads s) (file_total_downloads f))
            (default (total_encodes s) (file_total_encodes f))
            (default (active_downloads s) (file_active_downloads f))
            (default (active_encodes s) (file_active_encodes f))
            (default (connected_servers s) (file_connected_servers f))
            (default (total_users s) (file_total_users f))
            (default (download_success s) (file_download_success f))
            (default (download_failed s) (file_download_failed f))
            (default (encode_success s) (file_encode_success f))
            (default (encode_failed s) (file_encode_failed f))
            (default (last_updated s) (file_last_updated f))
            (default (peak_concurrent_operations s) (file_peak_concurrent_operations f))
            (default (daily_stats s) (file_daily_stats f))
  end.

(** [save_stats]: the write to the file is outside the model; the
    entry ["last_updated"] is set before it. *)
Definition save_stats (now : Q) (s : stats) : stats :=
  Stats (commands_processed s) (total_downloads s) (total_encodes s) (active_downloads s)
        (active_encodes s) (connected_servers s) (total_users s) (download_success s)
        (download_failed s) (encode_success s) (encode_failed s) (Some now)
        (peak_concurrent_operations s) (daily_stats s).

Definition set_daily (d : gmap string day_stats) (s : stats) : stats :=
  Stats (commands_processed s) (total_downloads s) (total_encodes s) (active_downloads s)
        (active_encodes s) (connected_servers s) (total_users s) (download_success s)
        (download_failed s) (encode_success s) (encode_failed s) (last_updated s)
        (peak_concurrent_operations s) d.

(** [min(d.keys())]: the least key in the order of Python strings. *)
Definition min_key (d : gmap string day_stats) : option string :=
  foldr (fun k acc =>
           match acc with
           | None => Some k
           | Some k' => if String.ltb k k' then Some k else Some k'
           end)
        None (map fst (map_to_list d)).

(** [update_daily_stats]; [today] is [datetime.now().strftime("%Y-%m-%d")]. *)
Definition update_daily_stats (today : string) (s : stats) : stats :=
  let d :=
    match daily_stats s !! today with
    | Some _ => daily_stats s
    | None => <[today := DayStats 0 0 0 0]> (daily_stats s)
    end in
  let d :=
    if (30 <? size d)%nat then
      match min_key d with
      | Some oldest_date => delete oldest_date d
      | None => d
      end
    else d in
  set_daily d s.

(** [__init__]: the dict literal, [load_stats()] and
    [update_daily_stats()]. *)
Definition init (file : option stats_file) (today : string) : stats :=
  update_daily_stats today (load_stats file defaults).

(** The update of today's entry shared by three of the methods: nothing
    happens when [today] is not a key. *)
Definition bump_today (today : string) (f : day_stats -> day_stats)
    (d : gmap string day_stats) : gmap string day_stats :=
  match d !! today with
  | Some day => <[today := f day]> d
  | None => d
  end.

Definition increment_commands_processed (today : string) (now : Q) (s : stats) : stats :=
  save_stats now
    (Stats (commands_processed s + 1) (total_downloads s) (total_encodes s)
           (active_downloads s) (active_encodes s) (connected_servers s) (total_users s)
           (download_success s) (download_failed s) (encode_success s) (encode_failed s)
           (last_updated s) (peak_concurrent_operations s)
           (bump_today today
              (fun d => DayStats (commands d + 1) (downloads d) (encodes d) (data_processed d))
              (daily_stats s))).

Definition increment_total_downloads (today : string) (now : Q) (s : stats) : stats :=
  save_stats now
    (Stats (commands_processed s) (total_downloads s + 1) (total_encodes s)
           (active_downloads s) (active_encodes s) (connected_servers s) (total_users s)
           (download_success s) (download_failed s) (encode_success s) (encode_failed s)
           (last_updated s) (peak_concurrent_operations s)
           (bump_today today
              (fun d => DayStats (commands d) (downloads d + 1) (encodes d) (data_processed d))
              (daily_stats s))).

Definition increment_total_encodes (today : string) (now : Q) (s : stats) : stats :=
  save_stats now
    (Stats (commands_processed s) (total_downloads s) (total_encodes s + 1)
           (active_downloads s) (active_encodes s) (connected_servers s) (total_users s)
           (download_success s) (download_failed s) (encode_success s) (encode_failed s)
           (last_updated s) (peak_concurrent_operations s)
           (bump_today today
              (fun d => DayStats (commands d) (downloads d) (encodes d + 1) (data_processed d))
              (daily_stats s))).

(** The two entries of the live counters and the peak. *)
Definition set_active (downloads encodes peak : Z) (s : stats) : stats :=
  Stats (commands_processed s) (total_downloads s) (total_encodes s) downloads encodes
        (connected_servers s) (total_users s) (download_success s) (download_failed s)
        (encode_success s) (encode_failed s) (last_updated s) peak (daily_stats s).

Definition increment_active_downloads (now : Q) (s : stats) : stats :=
  let downloads := active_downloads s + 1 in
  let total_active := downloads + active_encodes s in
  save_stats now
    (set_active downloads (active_encodes s)
       (if peak_concurrent_operations s <? total_active then total_active
        else peak_concurrent_operations s) s).

Definition decrement_active_downloads (now : Q) (s : stats) : stats :=
  save_stats now
    (set_active (Z.max 0 (active_downloads s - 1)) (active_encodes s)
                (peak_concurrent_operations s) s).

Definition increment_active_encodes (now : Q) (s : stats) : stats :=
  let encodes := active_encodes s + 1 in
  let total_active := active_downloads s + encodes in
  save_stats now
    (set_active (active_downloads s) encodes
       (if peak_concurrent_operations s <? total_active then total_active
        else peak_concurrent_operations s) s).

Definition decrement_active_encodes (now : Q) (s : stats) : stats :=
  save_stats now
    (set_active (active_downloads s) (Z.max 0 (active_encodes s - 1))
                (peak_concurrent_operations s) s).

(** The four outcome counters. *)
Definition set_outcomes (ds df es ef : Z) (s : stats) : stats :=
  Stats (commands_processed s) (total_downloads s) (total_encodes s) (active_downloads s)
        (active_encodes s) (connected_servers s) (total_users s) ds df es ef
        (last_updated s) (peak_concurrent_operations s) (daily_stats s).

Definition increment_download_success (now : Q) (s : stats) : stats :=
  save_stats now
    (set_outcomes (download_success s + 1) (download_failed s) (encode_success s)
                  (encode_failed s) s).

Definition increment_download_failed (now : Q) (s : stats) : stats :=
  save_stats now
    (set_outcomes (download_success s) (download_failed s + 1) (encode_success s)
                  (encode_failed s) s).

Definition increment_encode_success (now : Q) (s : stats) : stats :=
  save_stats now
    (set_outcomes (download_success s) (download_failed s) (encode_success s + 1)
                  (encode_failed s) s).

Definition increment_encode_failed (now : Q) (s : stats) : stats :=
  save_stats now
    (set_outcomes (download_success s) (download_failed s) (encode_success s)
                  (encode_failed s + 1) s).

(** The calls a running bot makes on the one stats object. *)
Inductive call :=
| UpdateDailyStats (today : string)
| IncrementCommandsProcessed (today : string)
| IncrementTotalDownloads (today : string)
| IncrementTotalEncodes (today : string)
| IncrementActiveDownloads
| DecrementActiveDownloads
| IncrementActiveEncodes
| DecrementActiveEncodes
| IncrementDownloadSuccess
| IncrementDownloadFailed
| IncrementEncodeSuccess
| IncrementEncodeFailed.

Definition apply_call (now : Q) (s : stats) (c : call) : stats :=
  match c with
  | UpdateDailyStats today => update_daily_stats today s
  | IncrementCommandsProcessed today => increment_commands_processed today now s
  | IncrementTotalDownloads today => increment_total_downloads today now s
  | IncrementTotalEncodes today => increment_total_encodes today now s
  | IncrementActiveDownloads => increment_active_downloads now s
  | DecrementActiveDownloads => decrement_active_downloads now s
  | IncrementActiveEncodes => increment_active_encodes now s
  | DecrementActiveEncodes => decrement_active_encodes now s
  | IncrementDownloadSuccess => increment_download_success now s
  | IncrementDownloadFailed => increment_download_failed now s
  | IncrementEncodeSuccess => increment_encode_success now s
  | IncrementEncodeFailed => increment_encode_failed now s
  end.

Definition run (calls : list (Q * call)) (s : stats) : stats :=
  fold_left (fun s nc => apply_call (fst nc) s (snd nc)) calls s.

(** What the counters keep: the live counters are not negative, the
    peak is at least their sum, and at most 30 days are stored. *)
Definition counters_ok (s : stats) : Prop :=
  0 <= active_downloads s /\ 0 <= active_encodes s /\
  active_downloads s + active_encodes s <= peak_concurrent_operations s /\
  (size (daily_stats s) <= 30)%nat.

End Stats.

(** * Properties *)

(** ** The admission gate of the encoder *)

Section EncoderGate.
Import Encoder.

Lemma gate_inv_init : gate_inv init.
Proof. split; [reflexivity | cbn; rewrite map_size_empty; lia]. Qed.

Lemma size_insert_le (m : gmap string encode_info) (k : string) (v : encode_info) :
  (size (<[k := v]> m) <= S (size m))%nat.
Proof.
  rewrite map_size_insert. destruct (m !! k); cbn; lia.
Qed.

Lemma size_delete_le (m : gmap string encode_info) (k : string) :
  (size (delete k m) <= size m)%nat.
Proof.
  rewrite map_size_delete. destruct (m !! k); cbn; lia.
Qed.

Lemma start_unfold_full (self : FastVideoEncoder) (a : submit_args) (w : submit_world) :
  can_start_new_encode self = false ->
  encode_single_pass_start self a w =
  (ReturnedAtOnce false
     (limit_message (get_active_encode_count self) (max_concurrent_encodes self)), self).
Proof. intros H. unfold encode_single_pass_start. rewrite H. reflexivity. Qed.

Lemma gate_inv_start (self : FastVideoEncoder) (a : submit_args) (w : submit_world) :
  gate_inv self -> gate_inv (snd (encode_single_pass_start self a w)).
Proof.
  intros [Hmax Hsize]. unfold encode_single_pass_start.
  destruct (can_start_new_encode self) eqn:Hcan; cbn [negb]; [|split; assumption].
  destruct (first_missing _ _) as [[nm p]|]; [split; assumption|].
  cbn [snd]. unfold gate_inv, add_active_encode; cbn.
  split; [assumption|].
  unfold can_start_new_encode in Hcan. apply Nat.ltb_lt in Hcan.
  pose proof (size_insert_le (active_encodes self)
                (make_encode_id (clock_id w) (user_info a))
                (EncodeInfo (user_info a) (clock_add w) running)).
  lia.
Qed.

Lemma gate_inv_resume (self : FastVideoEncoder) (encode_id : string)
    (task : Py.outcome encode_result) :
  gate_inv self -> gate_inv (snd (encode_single_pass_resume self encode_id task)).
Proof.
  intros [Hmax Hsize]. unfold encode_single_pass_resume.
  destruct task as [result|e]; [|split; assumption].
  assert (gate_inv (remove_active_encode self encode_id)) as Hrm.
  { unfold gate_inv, remove_active_encode; cbn. split; [assumption|].
    destruct (active_encodes self !! encode_id); [|assumption].
    pose proof (size_delete_le (active_encodes self) encode_id). lia. }
  destruct (success result); exact Hrm.
Qed.

Lemma gate_inv_stop (self : FastVideoEncoder) (encode_id : string) :
  gate_inv self -> gate_inv (snd (stop_encode self encode_id)).
Proof.
  intros [Hmax Hsize]. unfold stop_encode.
  destruct (active_encodes self !! encode_id) as [i|] eqn:E; [|split; assumption].
  unfold gate_inv; cbn. split; [assumption|].
  rewrite map_size_insert_Some; [assumption | by rewrite E].
Qed.

Lemma gate_inv_step (self : FastVideoEncoder) (act : action) :
  gate_inv self -> gate_inv (step self act).
Proof.
  intros H. destruct act; cbn [step].
  - by apply gate_inv_start.
  - by apply gate_inv_resume.
  - by apply gate_inv_stop.
  - destruct H as [Hmax _]. unfold gate_inv, cleanup_all_processes; cbn.
    split; [assumption|]. rewrite map_size_empty. lia.
Qed.

Lemma gate_inv_run (acts : list action) (self : FastVideoEncoder) :
  gate_inv self -> gate_inv (run acts self).
Proof.
  revert self. induction acts as [|act acts IH]; intros self H; [exact H|].
  cbn. apply IH. by apply gate_inv_step.
Qed.

(** The registry itself is bounded: whatever steps the event loop
    interleaves on the encoder (submissions, resumptions of finished
    encodes, stop requests, clean-ups), starting from the encoder of
    [__init__], the registry never holds more than
    [max_concurrent_encodes = 3] ids; and a call of
    [encode_single_pass] on such an encoder with three ids registered
    returns at once, without a suspension, the rejection whose message
    reports 3/3, and leaves the registry as it was. *)
Lemma encode_admission_bounded (acts : list action) :
  let self := run acts init in
  max_concurrent_encodes self = 3%nat /\
  (size (active_encodes self) <= 3)%nat /\
  forall (a : submit_args) (w : submit_world),
    size (active_encodes self) = 3%nat ->
    encode_single_pass_start self a w =
    (ReturnedAtOnce false "❌ Maksimum encode limitine ulaşıldı! Aktif: 3/3", self).
Proof.
  intros self.
  destruct (gate_inv_run acts init gate_inv_init) as [Hmax Hsize].
  fold self in Hmax, Hsize.
  split; [exact Hmax|]. split; [lia|].
  intros a w H3.
  rewrite start_unfold_full.
  - unfold get_active_encode_count. rewrite H3, Hmax. reflexivity.
  - unfold can_start_new_encode. rewrite H3, Hmax. reflexivity.
Qed.

Lemma encode_admission_bounded_witness :
  let self := run three_submits init in
  size (active_encodes self) = 3%nat /\
  encode_single_pass_start self (sample_args "dave") sample_world =
  (ReturnedAtOnce false "❌ Maksimum encode limitine ulaşıldı! Aktif: 3/3", self).
Proof.
  split; [vm_compute; reflexivity|].
  apply (encode_admission_bounded three_submits). vm_compute; reflexivity.
Defined.

(** C1.  The limit of three concurrent encodes is not enforced: the
    gate counts the ids in the registry, and the id is the clock second
    and the first eight characters of the user, which [bot.py] never
    passes.  Three [/encode] commands of one second are all admitted
    and are one id in the registry; with these three encodes running
    (none has been resumed), a fourth command three seconds later is
    admitted as well, where the limit asks for the 3/3 rejection. *)
Theorem same_second_encodes_pass_the_gate :
  let first := submit init (encode_command "ep1.mkv" (17000000002 # 10)) in
  let second := submit (snd first) (encode_command "ep2.mkv" (17000000005 # 10)) in
  let third := submit (snd second) (encode_command "ep3.mkv" (17000000009 # 10)) in
  let fourth := submit (snd third) (encode_command "ep4.mkv" 1700000003) in
  fst first = SuspendedWith "1700000000_Unknown" /\
  fst second = SuspendedWith "1700000000_Unknown" /\
  fst third = SuspendedWith "1700000000_Unknown" /\
  get_active_encode_count (snd third) = 1%nat /\
  fst fourth = SuspendedWith "1700000003_Unknown" /\
  fst fourth <> ReturnedAtOnce false "❌ Maksimum encode limitine ulaşıldı! Aktif: 3/3" /\
  get_active_encode_count (snd fourth) = 2%nat.
Proof.
  cbv zeta. split_and!; try (vm_compute; reflexivity). vm_compute. discriminate.
Qed.

End EncoderGate.

(** ** Registration and removal in the three drivers *)

Section UploadRegistry.
Import Uploader.

Lemma remove_upload_absent (m : gmap string upload_info) (id : string) :
  remove_upload m id !! id = None.
Proof.
  unfold remove_upload. destruct (m !! id) eqn:E; [apply lookup_delete_eq | exact E].
Qed.

Lemma remove_upload_other (m : gmap string upload_info) (id id' : string) :
  id <> id' -> remove_upload m id !! id' = m !! id'.
Proof.
  intros Hne. unfold remove_upload.
  destruct (m !! id); [by apply lookup_delete_ne | reflexivity].
Qed.

(** [upload_video] leaves no entry under its upload id, whichever way
    the awaited transfer ends: the [finally] clause runs on the return
    paths and on the exception path alike. *)
Lemma upload_video_unregisters (active : gmap string upload_info) (w : video_world)
    (video_name user : string) :
  active !! upload_id w = None ->
  snd (upload_video active w video_name user) !! upload_id w = None.
Proof.
  intros Hfresh. unfold upload_video.
  destruct (found_file w); [|exact Hfresh].
  destruct (max_file_size <? found_size w); [exact Hfresh|].
  destruct (found_size w =? 0); [exact Hfresh|].
  destruct (negb (GOOGLE_DRIVE_AVAILABLE w)); [apply remove_upload_absent|].
  destruct (awaited w) as [[result evs]|e]; apply remove_upload_absent.
Qed.

End UploadRegistry.

Section DownloadRegistry.
Import Downloader.

(** Every path of [download_magnet_fast] that went past
    [get_aria2_path] ends with the download id absent from
    [active_downloads]. *)
Lemma download_unregisters (active : gmap string download_info) (w : driver_world)
    (custom_name output_dir : string) (p : string) :
  aria2_path w = Py.Returned p ->
  active_downloads (download_magnet_fast active w custom_name output_dir)
    !! download_id w = None.
Proof.
  intros Hp. unfold download_magnet_fast. rewrite Hp.
  destruct (spawn w); [|apply lookup_delete_eq].
  destruct (monitor _ _ _ _) as [[how edits] out].
  destruct how; cbn [active_downloads];
    repeat match goal with
    | |- context [match ?x with _ => _ end] => destruct x; cbn [active_downloads]
    end; unfold remove_download; apply lookup_delete_eq.
Qed.

(** The calls on the download manager are one registration followed by
    one removal, except that an exception raised after the removal makes
    the handler remove once more, and an exception of the spawn makes
    it remove what was never added. *)
Lemma download_manager_calls (active : gmap string download_info) (w : driver_world)
    (custom_name output_dir : string) :
  let id := download_id w in
  let cs := calls (download_magnet_fast active w custom_name output_dir) in
  cs = [] \/ cs = [RemoveDownload id] \/ cs = [AddDownload id; RemoveDownload id] \/
  cs = [AddDownload id; RemoveDownload id; RemoveDownload id].
Proof.
  cbn zeta. unfold download_magnet_fast.
  destruct (aria2_path w); [|by left].
  destruct (spawn w); [|by right; left].
  destruct (monitor _ _ _ _) as [[how edits] out].
  destruct how; cbn [calls];
    repeat match goal with
    | |- context [match ?x with _ => _ end] => destruct x; cbn [calls app]
    end; auto.
Qed.

End DownloadRegistry.

Section EncodeRegistry.
Import Encoder.

Lemma start_registers (self self1 : FastVideoEncoder) (a : submit_args) (w : submit_world)
    (id : string) :
  encode_single_pass_start self a w = (SuspendedWith id, self1) ->
  is_Some (active_encodes self1 !! id).
Proof.
  unfold encode_single_pass_start.
  destruct (negb (can_start_new_encode self)); [discriminate|].
  destruct (first_missing _ _) as [[nm p]|]; [discriminate|].
  intros [= <- <-]. cbn. rewrite lookup_insert_eq. by eexists.
Qed.

(** When the task returns a dict, the encode is removed. *)
Lemma resume_returned_unregisters (self : FastVideoEncoder) (id : string)
    (result : encode_result) :
  active_encodes (snd (encode_single_pass_resume self id (Py.Returned result))) !! id = None.
Proof.
  cbn. destruct (success result); cbn;
    (destruct (active_encodes self !! id) eqn:E; [apply lookup_delete_eq | exact E]).
Qed.

(** When the task raises, [encode_single_pass] raises too and the
    registry is left as it was: a registered encode stays registered. *)
Lemma resume_raised_keeps (self : FastVideoEncoder) (id : string) (e : Py.exn) :
  encode_single_pass_resume self id (Py.Raised e) = (Py.Raised e, self).
Proof. reflexivity. Qed.

(** C3 (the encoder's exit path by exception).  An encode is admitted
    and registered; its task raises the [OSError] of the log file that
    cannot be opened; [encode_single_pass] lets the exception through
    and the encode is still in [active_encodes] afterwards, where it
    counts against the limit. *)
Theorem encode_exception_leaks_registration :
  let e := Py.Exn Py.OtherException "[Errno 13] Permission denied: 'encodelog/encode_1700000000_alice.log'" in
  let id := "1700000000_alice" in
  let '(st, self1) := encode_single_pass_start init (sample_args "alice") sample_world in
  let '(out, self2) := encode_single_pass_resume self1 id (Py.Raised e) in
  st = SuspendedWith id /\
  out = Py.Raised e /\
  is_Some (active_encodes self2 !! id) /\
  get_active_encode_count self2 = 1%nat.
Proof.
  vm_compute. repeat split; try reflexivity. by eexists.
Qed.

End EncodeRegistry.

(** ** The two budgets of the fetch driver *)

Section FetchBudgets.
Import Downloader.

(** The total budget: a turn that finds the process running more than
    [max_total_time] seconds after the start leaves the loop. *)
Lemma monitor_total_timeout (start last : Q) (out : list string) (t : tick)
    (rest : list tick) :
  head_returncode t = None ->
  Qlt max_total_time (current_time t - start) ->
  monitor start last out (t :: rest) = (TotalTimeout, [], out ++ new_output t).
Proof.
  intros Hh Hlt. cbn [monitor]. rewrite Hh.
  destruct (Qle_bool (current_time t - start) max_total_time) eqn:E; [|reflexivity].
  apply Qle_bool_iff in E. exfalso. exact (Qlt_not_le _ _ Hlt E).
Qed.

(** The way the loop is left does not depend on what the process
    writes: no turn of the loop reads [output_lines]. *)
Lemma monitor_ignores_output (start : Q) (ticks : list tick) :
  forall (last : Q) (out out' : list string),
    fst (monitor start last out ticks) = fst (monitor start last out' (map silenced ticks)).
Proof.
  induction ticks as [|t rest IH]; intros last out out'; [reflexivity|].
  cbn [monitor map silenced head_returncode current_time waited new_output].
  destruct (head_returncode t); [reflexivity|].
  destruct (negb (Qle_bool (current_time t - start) max_total_time)); [reflexivity|].
  destruct (waited t); [reflexivity| |reflexivity].
  destruct (negb (Qle_bool (current_time t - last) 5)).
  - specialize (IH (current_time t) (out ++ new_output t) (out' ++ [])).
    destruct (monitor start (current_time t) (out ++ new_output t) rest) as [[ex ed] o].
    destruct (monitor start (current_time t) (out' ++ []) (map silenced rest)) as [[ex' ed'] o'].
    cbn in IH |- *. congruence.
  - apply IH.
Qed.

(** C2 (the idle budget).  A process that writes nothing for 400
    seconds, more than [max_idle_time = 300], is not terminated: the
    loop goes on until the process exits by itself.  The total budget is
    enforced, but the value returned after it names no timeout: it is
    the value returned when the process exits by itself with the same
    code. *)
Theorem idle_budget_not_enforced :
  let silent := download_magnet_fast ∅ silent_then_exit "episode" "downloads" in
  let late := download_magnet_fast ∅ runs_too_long "episode" "downloads" in
  let plain := download_magnet_fast ∅ exits_signalled "episode" "downloads" in
  Qlt max_idle_time (404 - 0) /\
  left_by silent = Some (ProcessExited 0) /\
  process_terminated silent = false /\
  left_by late = Some TotalTimeout /\
  process_terminated late = true /\
  left_by plain = Some (ProcessExited (-15)) /\
  returned late = returned plain.
Proof.
  vm_compute. repeat split; reflexivity.
Qed.

End FetchBudgets.

(** ** Strings and paths *)

Section StringLemmas.


Lemma append_nil_r (a : string) : a +:+ "" = a.
Proof.
  induction a as [|x a IH]; [reflexivity|].
  change (String x (a +:+ "") = String x a). by f_equal.
Qed.


Lemma startswith_nil (s : string) : Py.startswith s "" = true.
Proof. by destruct s. Qed.

Lemma startswith_cons (a b : ascii) (s p : string) :
  Py.startswith (String b s) (String a p) = Ascii.eqb a b && Py.startswith s p.
Proof. reflexivity. Qed.

(** [s.startswith(p)] holds exactly when [s] is [p] followed by
    something. *)
Lemma startswith_spec (p : string) :
  forall s, Py.startswith s p = true <-> exists rest, s = p +:+ rest.
Proof.
  induction p as [|a p IH]; intros s.
  - rewrite startswith_nil. split; [intros _; by exists s | done].
  - destruct s as [|b s].
    + split; [discriminate | intros [rest H]; discriminate].
    + rewrite startswith_cons, andb_true_iff, IH. split.
      * intros [Hab [rest ->]]. apply Ascii.eqb_eq in Hab. subst. by exists rest.
      * intros [rest [= -> ->]]. split; [apply Ascii.eqb_refl | by exists rest].
Qed.

Lemma endswith_unfold (s suf : string) :
  Py.endswith s suf =
  String.eqb s suf || match s with EmptyString => false | String _ s' => Py.endswith s' suf end.
Proof. by destruct s. Qed.

(** [s.endswith(suf)] holds exactly when [s] is something followed by
    [suf]. *)
Lemma endswith_spec (suf : string) :
  forall s, Py.endswith s suf = true <-> exists stem, s = stem +:+ suf.
Proof.
  induction s as [|c s IH]; rewrite endswith_unfold, orb_true_iff, String.eqb_eq.
  - split.
    + intros [<-|H]; [by exists "" | discriminate].
    + intros [stem H]. left. destruct stem; [exact H | discriminate].
  - rewrite IH. split.
    + intros [<-|[stem ->]]; [by exists "" | by exists (String c stem)].
    + intros [[|x stem] H]; [by left|]. injection H as -> ->. right. by exists stem.
Qed.

Lemma contains_unfold (sub s : string) :
  Py.contains sub s =
  Py.startswith s sub || match s with EmptyString => false | String _ s' => Py.contains sub s' end.
Proof. by destruct s. Qed.

(** [sub in s] holds exactly when [s] is something, [sub] and
    something. *)
Lemma contains_spec (sub : string) :
  forall s, Py.contains sub s = true <-> exists before after, s = before +:+ sub +:+ after.
Proof.
  induction s as [|c s IH]; rewrite contains_unfold, orb_true_iff, startswith_spec.
  - split.
    + intros [[rest H]|H]; [by exists "", rest | discriminate].
    + intros (before & after & H). left. destruct before; [by exists after | discriminate].
  - rewrite IH. split.
    + intros [[rest H]|(before & after & ->)];
        [by exists "", rest | by exists (String c before), after].
    + intros ([|x before] & after & H); [left; by exists after|].
      injection H as -> ->. right. by exists before, after.
Qed.






Lemma drop_S (n : nat) (a : ascii) (s : string) : Py.drop (S n) (String a s) = Py.drop n s.
Proof. reflexivity. Qed.









End StringLemmas.

Section PathLemmas.
Import Downloader.














End PathLemmas.

(** ** Artifact resolution *)

Section ArtifactResolver.
Import Downloader.

Lemma max_by_nonempty {A} (key : A -> Z) (l : list A) :
  l <> [] -> exists x, Py.max_by key l = Some x.
Proof.
  destruct l as [|a l]; [congruence|]. intros _. cbn.
  destruct (Py.max_by key l) as [y|]; [destruct (key a <? key y)|]; eauto.
Qed.

Lemma max_by_empty {A} (key : A -> Z) (l : list A) :
  Py.max_by key l = None -> l = [].
Proof.
  destruct l as [|a l]; [reflexivity|]. cbn.
  destruct (Py.max_by key l) as [y|]; [destruct (key a <? key y)|]; discriminate.
Qed.

Lemma max_by_spec {A} (key : A -> Z) (l : list A) (x : A) :
  Py.max_by key l = Some x ->
  In x l /\ forall y, In y l -> key y <= key x.
Proof.
  revert x. induction l as [|a l IH]; intros x; [discriminate|]. cbn.
  destruct (Py.max_by key l) as [y|] eqn:E.
  - destruct (IH y eq_refl) as [Hin Hle].
    destruct (key a <? key y) eqn:C; intros [= <-].
    + apply Z.ltb_lt in C. split; [by right|].
      intros z [<-|Hz]; [lia | by apply Hle].
    + apply Z.ltb_ge in C. split; [by left|].
      intros z [<-|Hz]; [lia | specialize (Hle z Hz); lia].
  - intros [= <-]. apply max_by_empty in E. subst l.
    split; [by left|]. intros z [<-|[]]. lia.
Qed.

(** [max] hands back the first of the largest elements. *)
Lemma max_by_first {A} (key : A -> Z) (l1 l2 : list A) (x : A) :
  (forall y, In y l1 -> key y < key x) ->
  (forall y, In y l2 -> key y <= key x) ->
  Py.max_by key (l1 ++ x :: l2) = Some x.
Proof.
  intros H1 H2. induction l1 as [|a l1 IH]; cbn [app Py.max_by].
  - destruct (Py.max_by key l2) as [y|] eqn:E; [|reflexivity].
    apply max_by_spec in E as [Hy _]. specialize (H2 y Hy).
    assert ((key x <? key y) = false) as -> by (apply Z.ltb_ge; lia). reflexivity.
  - rewrite IH by (intros y Hy; apply H1; by right).
    assert ((key a <? key x) = true) as -> by (apply Z.ltb_lt, H1; by left). reflexivity.
Qed.

Lemma filter_filter {A} (f g : A -> bool) (l : list A) :
  List.filter f (List.filter g l) = List.filter (fun x => g x && f x) l.
Proof.
  induction l as [|a l IH]; [reflexivity|]. cbn [List.filter].
  destruct (g a); cbn [andb List.filter]; [destruct (f a)|]; by rewrite IH.
Qed.

(** The loop over [all_files] computes the two filters. *)
Lemma scan_files_spec (current_time : Q) (all_files : list dir_entry) :
  scan_files current_time all_files =
  (List.filter (recent current_time) (video_candidates all_files),
   video_candidates all_files).
Proof.
  induction all_files as [|e rest IH]; [reflexivity|].
  cbn [scan_files]. rewrite IH. unfold video_candidates. cbn [List.filter].
  destruct (isfile e); cbn [negb andb]; [|reflexivity].
  destruct (is_video (name e)); [|reflexivity].
  cbn [List.filter]. unfold recent at 1 3.
  destruct (Qle_bool (age_hours current_time (st_mtime e)) 3); reflexivity.
Qed.

(** With a non-empty chosen set, the function resolves the largest file
    of that set and hands it to the renaming step. *)
Lemma find_downloaded_file_resolved (w : world) (output_dir custom_name : string)
    (all_files : list dir_entry) (largest : dir_entry) :
  listing w = Some all_files ->
  Py.max_by st_size (chosen_set (now w) all_files) = Some largest ->
  find_downloaded_file w output_dir custom_name =
  if String.eqb custom_name "" then (Some (path_of output_dir largest), Some all_files)
  else
    let '(p, dir') :=
      rename_to_custom w output_dir custom_name all_files (path_of output_dir largest) in
    (Some p, Some dir').
Proof.
  intros Hl Hmax. unfold find_downloaded_file. rewrite Hl, scan_files_spec.
  cbv beta iota zeta. unfold chosen_set in Hmax. cbv zeta in Hmax. rewrite Hmax.
  destruct (String.eqb custom_name ""); reflexivity.
Qed.

(** Without a video candidate, what is left is the marker test and the
    last-resort pick. *)
Lemma find_downloaded_file_unresolved (w : world) (output_dir custom_name : string)
    (all_files : list dir_entry) :
  listing w = Some all_files ->
  video_candidates all_files = [] ->
  find_downloaded_file w output_dir custom_name =
  match temp_files all_files with
  | _ :: _ => (None, Some all_files)
  | [] =>
      match desperate_pick (now w) all_files with
      | Some file => (Some (path_of output_dir file), Some all_files)
      | None => (None, Some all_files)
      end
  end.
Proof.
  intros Hl Hc. unfold find_downloaded_file. rewrite Hl, scan_files_spec, Hc. reflexivity.
Qed.

(** The tests of the loop say what the description says. *)
Lemma isfile_spec (e : dir_entry) : isfile e = true <-> kind e = RegularFile.
Proof. unfold isfile. by destruct (kind e). Qed.

Lemma is_video_spec (file : string) :
  is_video file = true <->
  exists stem ext,
    In ext [".mkv"; ".mp4"; ".avi"; ".mov"; ".wmv"; ".flv"; ".webm"; ".m4v"; ".ts"; ".m2ts"] /\
    Py.lower file = stem +:+ ext.
Proof.
  unfold is_video, Py.any. rewrite existsb_exists. split.
  - intros (ext & Hin & He). apply endswith_spec in He as [stem He]. by exists stem, ext.
  - intros (stem & ext & Hin & He). exists ext. split; [exact Hin|].
    apply endswith_spec. by exists stem.
Qed.

Lemma video_file_spec (e : dir_entry) :
  isfile e && is_video (name e) = true <-> video_file e.
Proof. unfold video_file. by rewrite andb_true_iff, isfile_spec, is_video_spec. Qed.

Lemma within_hours (hours : Z) (current_time : Q) (e : dir_entry) :
  Qle_bool (age_hours current_time (st_mtime e)) (inject_Z hours) = true <->
  modified_within hours current_time e.
Proof.
  rewrite Qle_bool_iff. unfold modified_within, age_hours.
  destruct (current_time - st_mtime e)%Q as [n d].
  unfold Qle, Qdiv, Qmult, Qinv. cbn. rewrite Pos2Z.inj_mul. lia.
Qed.

Lemma recent_spec (current_time : Q) (e : dir_entry) :
  recent current_time e = true <-> modified_within 3 current_time e.
Proof. apply (within_hours 3). Qed.

Lemma video_candidates_spec (all_files : list dir_entry) (e : dir_entry) :
  In e (video_candidates all_files) <-> In e all_files /\ video_file e.
Proof. unfold video_candidates. by rewrite filter_In, video_file_spec. Qed.

(** The chosen set of the code is the chosen set of the description. *)
Lemma chosen_set_spec (current_time : Q) (all_files : list dir_entry) (e : dir_entry) :
  In e (chosen_set current_time all_files) <-> chosen current_time all_files e.
Proof.
  unfold chosen_set, chosen. cbv zeta.
  destruct (List.filter (recent current_time) (video_candidates all_files)) as [|r rs] eqn:E.
  - rewrite video_candidates_spec. split; [|tauto].
    intros [Hin Hv]. split; [exact Hin|]. split; [exact Hv|].
    intros (e' & Hin' & Hv' & Hr'). exfalso.
    assert (In e' (List.filter (recent current_time) (video_candidates all_files))) as H.
    { apply filter_In. split; [by apply video_candidates_spec | by apply recent_spec]. }
    by rewrite E in H.
  - rewrite <- E, filter_In, video_candidates_spec, recent_spec. split; [tauto|].
    intros (Hin & Hv & Hr). split; [by split|]. apply Hr.
    assert (In r (List.filter (recent current_time) (video_candidates all_files))) as H
      by (rewrite E; by left).
    apply filter_In in H as [H1 H2]. apply video_candidates_spec in H1 as [H1 H3].
    apply recent_spec in H2. by exists r.
Qed.

Lemma chosen_set_filter (current_time : Q) (all_files : list dir_entry) :
  exists test : dir_entry -> bool,
    chosen_set current_time all_files = List.filter test all_files.
Proof.
  unfold chosen_set. cbv zeta.
  destruct (List.filter (recent current_time) (video_candidates all_files)) as [|r rs] eqn:E.
  - by eexists.
  - rewrite <- E. unfold video_candidates. rewrite filter_filter. by eexists.
Qed.

(** The largest file of the chosen set, the first one in listing order
    when several are as large, is the maximum that the code takes. *)
Lemma chosen_largest (current_time : Q) (before after : list dir_entry) (largest : dir_entry) :
  chosen current_time (before ++ largest :: after) largest ->
  (forall e, In e before -> chosen current_time (before ++ largest :: after) e ->
             st_size e < st_size largest) ->
  (forall e, In e after -> chosen current_time (before ++ largest :: after) e ->
             st_size e <= st_size largest) ->
  Py.max_by st_size (chosen_set current_time (before ++ largest :: after)) = Some largest.
Proof.
  intros Hl Hb Ha.
  destruct (chosen_set_filter current_time (before ++ largest :: after)) as [test Ht].
  assert (forall e, In e (before ++ largest :: after) -> test e = true ->
                    chosen current_time (before ++ largest :: after) e) as Hc.
  { intros e Hin He. apply chosen_set_spec. rewrite Ht. by apply filter_In. }
  assert (test largest = true) as Hlt.
  { apply chosen_set_spec in Hl. rewrite Ht in Hl. apply filter_In in Hl. tauto. }
  rewrite Ht, List.filter_app. cbn [List.filter]. rewrite Hlt.
  apply max_by_first.
  - intros y Hy. apply filter_In in Hy as [Hy1 Hy2]. apply Hb; [exact Hy1|].
    apply Hc; [|exact Hy2]. apply in_or_app. by left.
  - intros y Hy. apply filter_In in Hy as [Hy1 Hy2]. apply Ha; [exact Hy1|].
    apply Hc; [|exact Hy2]. apply in_or_app. right. by right.
Qed.

(** C5.  Of the regular files of the directory whose name ends, in
    lower case, with one of the ten video extensions, the function
    takes those modified within three hours when there is one, and all
    of them otherwise; it resolves the largest file of this chosen set,
    the first one in listing order among equally large ones.  The file
    is returned as it is when no name is desired, and handed to the
    renaming step otherwise. *)
Theorem largest_of_chosen_set_resolved (w : world) (output_dir custom_name : string)
    (before after : list dir_entry) (largest : dir_entry) :
  listing w = Some (before ++ largest :: after) ->
  chosen (now w) (before ++ largest :: after) largest ->
  (forall e, In e before -> chosen (now w) (before ++ largest :: after) e ->
             st_size e < st_size largest) ->
  (forall e, In e after -> chosen (now w) (before ++ largest :: after) e ->
             st_size e <= st_size largest) ->
  find_downloaded_file w output_dir ""
  = (Some (path_of output_dir largest), Some (before ++ largest :: after)) /\
  (custom_name <> "" ->
   find_downloaded_file w output_dir custom_name =
   let '(p, dir') :=
     rename_to_custom w output_dir custom_name (before ++ largest :: after)
                      (path_of output_dir largest) in
   (Some p, Some dir')).
Proof.
  intros Hl Hc Hb Ha.
  pose proof (chosen_largest (now w) before after largest Hc Hb Ha) as Hmax.
  split.
  - by rewrite (find_downloaded_file_resolved _ _ _ _ _ Hl Hmax).
  - intros Hname. rewrite (find_downloaded_file_resolved _ _ _ _ _ Hl Hmax).
    apply String.eqb_neq in Hname. by rewrite Hname.
Qed.

(** A large old video file, a smaller one that is a minute old, and
    a part file: the recent one is resolved. *)
Lemma largest_of_chosen_set_resolved_witness :
  find_downloaded_file (sample_world [old_movie; movie; part_file] true) "downloads" ""
  = (Some "downloads/X.mp4", Some [old_movie; movie; part_file]).
Proof.
  assert (video_file movie) as Hv.
  { split; [reflexivity|]. exists "x", ".mp4". split; [cbn; tauto | reflexivity]. }
  assert (modified_within 3 100000 movie) as Hr
    by (unfold modified_within, Qle; vm_compute; discriminate).
  apply (largest_of_chosen_set_resolved
           (sample_world [old_movie; movie; part_file] true) "downloads" ""
           [old_movie] [part_file] movie).
  - reflexivity.
  - split; [cbn; tauto|]. split; [exact Hv | intros _; exact Hr].
  - intros e [<-|[]] (_ & _ & Hold). exfalso.
    assert (modified_within 3 100000 old_movie) as H.
    { apply Hold. exists movie. split; [cbn; tauto | by split]. }
    unfold modified_within, Qle in H. vm_compute in H. by apply H.
  - intros e [<-|[]] _. vm_compute. discriminate.
Defined.

End ArtifactResolver.

Section ArtifactFallbacks.
Import Downloader.

Lemma desperate_ok_eligible (current_time : Q) (e : dir_entry) :
  desperate_ok current_time e = true <-> eligible current_time e.
Proof.
  unfold desperate_ok, eligible.
  rewrite !andb_true_iff, isfile_spec, Z.ltb_lt. by rewrite <- (within_hours 2).
Qed.


Lemma desperate_pick_none (current_time : Q) (all_files : list dir_entry) :
  (forall e, In e all_files -> ~ eligible current_time e) ->
  desperate_pick current_time all_files = None.
Proof.
  induction all_files as [|f rest IH]; intros H; [reflexivity|]. cbn.
  destruct (desperate_ok current_time f) eqn:E.
  - apply desperate_ok_eligible in E. destruct (H f (or_introl eq_refl) E).
  - apply IH. intros e He. apply H. by right.
Qed.

(** The last-resort loop stops at the first eligible file of the
    listing. *)
Lemma desperate_pick_first (current_time : Q) (before after : list dir_entry)
    (file : dir_entry) :
  eligible current_time file ->
  (forall e, In e before -> ~ eligible current_time e) ->
  desperate_pick current_time (before ++ file :: after) = Some file.
Proof.
  intros Hf Hb. induction before as [|b before IH]; cbn.
  - apply desperate_ok_eligible in Hf. by rewrite Hf.
  - destruct (desperate_ok current_time b) eqn:E.
    + apply desperate_ok_eligible in E. destruct (Hb b (or_introl eq_refl) E).
    + apply IH. intros e He. apply Hb. by right.
Qed.

Lemma is_temp_markers (file : string) :
  is_temp file = existsb (fun m => Py.contains m (Py.lower file)) temporary_markers.
Proof. reflexivity. Qed.

Lemma marked_spec (e : dir_entry) : is_temp (name e) = true <-> marked e.
Proof.
  rewrite is_temp_markers, existsb_exists. unfold marked. split.
  - intros (m & Hm & Hc). apply contains_spec in Hc as (before & after & Hc).
    by exists m, before, after.
  - intros (m & before & after & Hm & Hc). exists m. split; [exact Hm|].
    apply contains_spec. by exists before, after.
Qed.

Lemma no_markers_no_temp_files (all_files : list dir_entry) :
  (forall e, In e all_files -> ~ marked e) -> temp_files all_files = [].
Proof.
  intros H. unfold temp_files.
  induction all_files as [|f rest IH]; [reflexivity|]. cbn [List.filter].
  assert (is_temp (name f) = false) as ->.
  { apply not_true_is_false. intros Hm. apply marked_spec in Hm.
    exact (H f (or_introl eq_refl) Hm). }
  apply IH. intros e He. apply H. by right.
Qed.

Lemma no_video_no_candidates (all_files : list dir_entry) :
  (forall e, In e all_files -> ~ video_file e) -> video_candidates all_files = [].
Proof.
  intros H. unfold video_candidates.
  induction all_files as [|f rest IH]; [reflexivity|]. cbn [List.filter].
  assert (isfile f && is_video (name f) = false) as ->.
  { apply not_true_is_false. intros Hv. apply video_file_spec in Hv.
    exact (H f (or_introl eq_refl) Hv). }
  apply IH. intros e He. apply H. by right.
Qed.

(** C6, as the code has it.  Without a video candidate and with an
    entry whose lower-cased name contains a marker of an unfinished
    download, the function returns [None] and leaves the directory as
    it is; [None] is also what it returns for the empty directory. *)
Theorem pending_returns_none (w : world) (output_dir custom_name : string)
    (all_files : list dir_entry) :
  listing w = Some all_files ->
  video_candidates all_files = [] ->
  temp_files all_files <> [] ->
  find_downloaded_file w output_dir custom_name = (None, Some all_files) /\
  fst (find_downloaded_file
         (World (now w) (Some []) (remove_permitted w) (rename_permitted w))
         output_dir custom_name) = None.
Proof.
  intros Hl Hc Ht. split; [|reflexivity].
  rewrite (find_downloaded_file_unresolved w output_dir custom_name all_files Hl Hc).
  destruct (temp_files all_files); [congruence | reflexivity].
Qed.

Lemma pending_returns_none_witness :
  find_downloaded_file (sample_world [part_file] true) "downloads" "episode"
  = (None, Some [part_file]) /\
  fst (find_downloaded_file (World 100000 (Some []) true true) "downloads" "episode") = None.
Proof.
  apply (pending_returns_none (sample_world [part_file] true) "downloads" "episode"
           [part_file]).
  - reflexivity.
  - reflexivity.
  - vm_compute. discriminate.
Defined.

(** C6, as stated, fails: with only a [.part] file in the directory the
    caller receives the very value it receives for the empty
    directory. *)
Lemma pending_indistinguishable_from_not_found :
  video_candidates [part_file] = [] /\
  temp_files [part_file] = ["Y.tmp.part"] /\
  fst (find_downloaded_file (sample_world [part_file] true) "downloads" "episode") =
  fst (find_downloaded_file (sample_world [] true) "downloads" "episode").
Proof. vm_compute. repeat split; reflexivity. Qed.

(** C10, as the code has it.  In a directory without a video file and
    without an entry, file or directory, whose name in lower case
    contains one of the markers [.aria2], [.part], [.downloading],
    [.tmp], the function returns the path of the first regular file of
    the listing that is larger than 10 MiB and at most two hours old,
    whatever its extension and without renaming it, and [None] when the
    directory has no such file. *)
Theorem last_resort_pick (w : world) (output_dir custom_name : string)
    (all_files : list dir_entry) :
  listing w = Some all_files ->
  (forall e, In e all_files -> ~ video_file e) ->
  (forall e, In e all_files -> ~ marked e) ->
  (forall before file after,
      all_files = before ++ file :: after ->
      eligible (now w) file ->
      (forall e, In e before -> ~ eligible (now w) e) ->
      find_downloaded_file w output_dir custom_name
      = (Some (path_of output_dir file), Some all_files)) /\
  ((forall e, In e all_files -> ~ eligible (now w) e) ->
   find_downloaded_file w output_dir custom_name = (None, Some all_files)).
Proof.
  intros Hl Hv Ht.
  rewrite (find_downloaded_file_unresolved w output_dir custom_name all_files Hl
             (no_video_no_candidates _ Hv)).
  rewrite (no_markers_no_temp_files _ Ht). split.
  - intros before file after -> Hf Hb. by rewrite desperate_pick_first.
  - intros Hnone. by rewrite desperate_pick_none.
Qed.

Lemma last_resort_pick_witness :
  find_downloaded_file (sample_world [readme; image] true) "downloads" "episode"
  = (Some "downloads/disc.iso", Some [readme; image]).
Proof.
  assert (forall e, In e [readme; image] -> ~ video_file e) as Hv.
  { intros e [<-|[<-|[]]] H; apply video_file_spec in H; vm_compute in H; discriminate. }
  assert (forall e, In e [readme; image] -> ~ marked e) as Hm.
  { intros e [<-|[<-|[]]] H; apply marked_spec in H; vm_compute in H; discriminate. }
  apply (proj1 (last_resort_pick (sample_world [readme; image] true) "downloads" "episode"
                  [readme; image] eq_refl Hv Hm) [readme] image []).
  - reflexivity.
  - split; [reflexivity|]. split; [vm_compute; reflexivity|].
    unfold modified_within, Qle. vm_compute. discriminate.
  - intros e [<-|[]] (_ & Hsize & _). vm_compute in Hsize. discriminate.
Defined.

(** C10, as stated, fails: the marker test reads every entry of the
    listing, in lower case.  Beside a directory [cache.tmp], or a
    small file [NOTES.TMP], no regular file has a video extension and
    no file has a name that contains a marker, and the file [disc.iso]
    (50 MiB, a minute old) is there; the function returns [None]. *)
Lemma marker_on_directory_blocks_last_resort :
  (forall e, In e [cache_dir; notes; image] -> kind e = RegularFile -> ~ video_file e) /\
  (forall e m, In e [cache_dir; notes; image] -> kind e = RegularFile ->
               In m [".aria2"; ".part"; ".downloading"; ".tmp"] ->
               Py.contains m (name e) = false) /\
  eligible 100000 image /\
  find_downloaded_file (sample_world [cache_dir; image] true) "downloads" "episode"
  = (None, Some [cache_dir; image]) /\
  find_downloaded_file (sample_world [notes; image] true) "downloads" "episode"
  = (None, Some [notes; image]).
Proof.
  split; [|split; [|split; [|split]]].
  - intros e [<-|[<-|[<-|[]]]] Hk H; try discriminate;
      apply video_file_spec in H; vm_compute in H; discriminate.
  - intros e m [<-|[<-|[<-|[]]]] Hk Hm; try discriminate;
      cbn in Hm; destruct Hm as [<-|[<-|[<-|[<-|[]]]]]; vm_compute; reflexivity.
  - split; [reflexivity|]. split; [vm_compute; reflexivity|].
    unfold modified_within, Qle. vm_compute. discriminate.
  - vm_compute. reflexivity.
  - vm_compute. reflexivity.
Qed.

End ArtifactFallbacks.

Section ArtifactRename.
Import Downloader.

Variable output_dir : string.








Variables (w : world) (custom_name : string) (dir : list dir_entry) (src : string).

Let new_name : string := custom_name +:+ new_extension src.
Let new_path : string := OsPath.join output_dir new_name.




(** For a new name without separator, the three calls act on the entry
    of that name. *)
Hypothesis Hplain : Py.contains "/" new_name = false.








End ArtifactRename.

Section DesiredName.
Import Downloader.




(** A desired name with a separator in it can lead back to the
    resolved file: [downloads/./X.mp4] is [downloads/X.mp4] and not
    the same string, so the file is removed as what is in the way, the
    rename fails, and the path handed back is the path of a file that
    is gone. *)
Lemma alias_of_resolved_file_removes_it :
  find_downloaded_file
    (Build_world 100000 (Some [movie]) true true
       (fun p => if String.eqb p "downloads/./X.mp4" then InDirectory "X.mp4"
                 else Outside None))
    "downloads" "./X"
  = (Some "downloads/X.mp4", Some []).
Proof. vm_compute. reflexivity. Qed.

End DesiredName.


(** ** The chunked transfer *)

Section ProgressStream.
Import Uploader.

Lemma snd_add_events {A} (evs : list event) (r : A * list event) :
  snd (add_events evs r) = evs ++ snd r.
Proof. by destruct r. Qed.

Lemma fst_add_events {A} (evs : list event) (r : A * list event) :
  fst (add_events evs r) = fst r.
Proof. by destruct r. Qed.

Lemma increasing_app (a b : list event) :
  forall last,
    increasing_per_request last a ->
    (forall last', increasing_per_request last' b) ->
    increasing_per_request last (a ++ b).
Proof.
  induction a as [|ev a IH]; intros last Ha Hb; [apply Hb|].
  destruct ev; cbn in *; try (apply IH; assumption).
  destruct Ha as (H1 & H2 & H3). repeat split; try assumption. by apply IH.
Qed.

Lemma increasing_weaken (evs : list event) :
  forall a b, a <= b -> increasing_per_request b evs -> increasing_per_request a evs.
Proof.
  induction evs as [|ev evs IH]; intros a b Hab H; [exact I|].
  destruct ev; cbn in *; try (eapply IH; eassumption); try assumption.
  destruct H as (H1 & H2 & H3). repeat split; [lia | assumption | assumption].
Qed.

(** One run of the chunk loop: each callback reports more than the one
    before, starting above [last_progress]. *)
Lemma chunk_loop_increasing (callback : bool) (chunks : list next_chunk) :
  forall last_progress stall_count retry_chunk_count,
    Forall percent_in_range chunks ->
    increasing_per_request last_progress
      (snd (fst (chunk_loop callback chunks last_progress stall_count retry_chunk_count))) /\
    Forall percent_in_range
      (snd (chunk_loop callback chunks last_progress stall_count retry_chunk_count)).
Proof.
  induction chunks as [|c rest IH]; intros lp sc rc Hall; [split; [exact I | constructor]|].
  apply List.Forall_cons_iff in Hall as [Hc Hrest].
  destruct c as [[s|] resp|e]; cbn [chunk_loop percent_in_range] in *;
    repeat match goal with
    | |- context [chunk_loop ?cb rest ?a ?b ?c] =>
        let H := fresh "Hrec" in
        pose proof (IH a b c Hrest) as H;
        destruct (chunk_loop cb rest a b c) as [[? ?] ?]; cbn in H
    | |- context [if ?x then _ else _] => destruct x eqn:?
    | |- context [match ?x with _ => _ end] => destruct x eqn:?
    end; cbn; repeat split; try tauto; try lia.
  all: apply andb_true_iff in Heqb as [Hlt _]; apply Z.ltb_lt in Hlt; try lia.
  apply (increasing_weaken _ lp (percent s)); [lia | tauto].
Qed.

Lemma handle_exception_quiet (max_retries attempt : Z) (service service' : bool)
    (e : Py.exn) (evs : list event) :
  handle_exception max_retries attempt service e = NextAttempt service' evs ->
  forall last, increasing_per_request last evs.
Proof.
  unfold handle_exception.
  repeat match goal with
         | |- context [match ?x with _ => _ end] => destruct x
         end; intros [= <- <-] last; exact I.
Qed.

Section OneAttempt.

Variables (callback : bool) (max_retries attempt : Z).
Variable next : bool -> list (Py.outcome bool) -> list next_chunk -> upload_result * list event.

Hypothesis next_increasing :
  forall service auths chunks,
    Forall percent_in_range chunks ->
    forall last, increasing_per_request last (snd (next service auths chunks)).

Lemma on_exception_increasing (e : Py.exn) (service : bool)
    (auths : list (Py.outcome bool)) (chunks : list next_chunk) :
  Forall percent_in_range chunks ->
  forall last,
    increasing_per_request last
      (snd (on_exception max_retries attempt next e service auths chunks)).
Proof.
  intros Hall last. unfold on_exception.
  destruct (handle_exception max_retries attempt service e) as [r|service' evs] eqn:E;
    [exact I|].
  rewrite snd_add_events. apply increasing_app.
  - by apply (handle_exception_quiet _ _ _ _ _ _ E).
  - by apply next_increasing.
Qed.

Lemma conclude_increasing (auths : list (Py.outcome bool)) (how : loop_exit)
    (chunks : list next_chunk) :
  Forall percent_in_range chunks ->
  forall last,
    increasing_per_request last (snd (conclude max_retries attempt next auths how chunks)).
Proof.
  intros Hall last. unfold conclude. destruct how as [r|e|]; [|by apply on_exception_increasing|exact I].
  destruct (String.eqb (resp_id r) ""); [by apply on_exception_increasing | exact I].
Qed.

Lemma transfer_increasing (auths : list (Py.outcome bool)) (chunks : list next_chunk) :
  Forall percent_in_range chunks ->
  forall last,
    increasing_per_request last
      (snd (transfer callback max_retries attempt next auths chunks)).
Proof.
  intros Hall last. unfold transfer.
  destruct (chunk_loop_increasing callback chunks 0 0 0 Hall) as [Hinc Hrest].
  destruct (chunk_loop callback chunks 0 0 0) as [[how evs] chunks'].
  rewrite snd_add_events. cbn in *.
  apply increasing_app; [exact Hinc|]. by apply conclude_increasing.
Qed.

Lemma attempt_body_increasing (service : bool) (auths : list (Py.outcome bool))
    (chunks : list next_chunk) :
  Forall percent_in_range chunks ->
  forall last,
    increasing_per_request last
      (snd (attempt_body callback max_retries attempt next service auths chunks)).
Proof.
  intros Hall last. unfold attempt_body.
  destruct service; [by apply transfer_increasing|].
  destruct auths as [|[[|]|e] auths']; [exact I| | |].
  - rewrite snd_add_events. cbn. by apply transfer_increasing.
  - destruct (attempt =? max_retries - 1); [exact I|].
    rewrite snd_add_events. cbn. by apply next_increasing.
  - rewrite snd_add_events. cbn. by apply on_exception_increasing.
Qed.

End OneAttempt.

Lemma attempts_increasing (callback : bool) (max_retries : Z) (todo : nat) :
  forall attempt service auths chunks,
    Forall percent_in_range chunks ->
    forall last,
      increasing_per_request last
        (snd (attempts callback max_retries todo attempt service auths chunks)).
Proof.
  induction todo as [|todo IH]; intros attempt service auths chunks Hall last; [exact I|].
  cbn [attempts]. apply attempt_body_increasing; [|exact Hall].
  intros service' auths' chunks' Hall' last'. by apply IH.
Qed.

(** C4, as the code has it.  When the server reports percents between 0
    and 100, every percent handed to the progress callback is at most
    100 and larger than the percent handed over before it for the same
    request, and larger than 0 for the first callback of a request:
    within one attempt the stream is strictly increasing, and a retry
    attempt, which creates a new request, starts again from 0. *)
Theorem progress_increases_per_request (w : world) (file_path : string) (callback : bool)
    (max_retries : Z) :
  Forall percent_in_range (chunks w) ->
  increasing_per_request 0 (snd (upload_with_progress w file_path callback max_retries)).
Proof.
  intros Hall. unfold upload_with_progress.
  destruct (negb (file_exists w)); [exact I|].
  destruct (file_size w =? 0); [exact I|].
  by apply attempts_increasing.
Qed.

Lemma progress_increases_per_request_witness :
  increasing_per_request 0
    (snd (upload_with_progress fourth_chunk_fails_twice "encode/episode.mp4" true 3)).
Proof.
  apply (progress_increases_per_request fourth_chunk_fails_twice "encode/episode.mp4" true 3).
  vm_compute. repeat constructor; discriminate.
Defined.

(** C4, as stated, fails: after the token expired at 50 percent, the
    retry attempt reports 30 percent to the same callback. *)
Lemma progress_regresses_across_attempts :
  callbacks (snd (upload_with_progress expiry_midway "encode/episode.mp4" true 3)) = [50; 30]
  /\ fst (upload_with_progress expiry_midway "encode/episode.mp4" true 3)
     = UploadOk "file-id" "episode.mp4"
  /\ ~ strictly_increasing
        (callbacks (snd (upload_with_progress expiry_midway "encode/episode.mp4" true 3))).
Proof.
  split; [vm_compute; reflexivity|]. split; [vm_compute; reflexivity|].
  vm_compute. intros [H _]. discriminate.
Qed.

End ProgressStream.

Section ChunkRetry.
Import Uploader.

Lemma prepend_nil {A B} (r : A * list event * B) : prepend [] r = r.
Proof. by destruct r as [[a evs] b]. Qed.

Lemma prepend_prepend {A B} (evs evs' : list event) (r : A * list event * B) :
  prepend evs (prepend evs' r) = prepend (evs ++ evs') r.
Proof. destruct r as [[a evs0] b]. cbn. by rewrite app_assoc. Qed.

Lemma chunk_backoffs_app (a b : list event) :
  chunk_backoffs (a ++ b) = chunk_backoffs a ++ chunk_backoffs b.
Proof. unfold chunk_backoffs. apply flat_map_app. Qed.

Lemma server_error_cases (e : Py.exn) :
  server_error e ->
  exists st, Py.exn_cls e = Py.HttpError st /\ transient_status st = true /\
             (st = 500 \/ st = 502 \/ st = 503 \/ st = 504).
Proof.
  intros (st & Hcls & Ht). exists st. repeat split; try assumption.
  unfold transient_status, Py.any in Ht. cbn in Ht.
  repeat (apply orb_true_iff in Ht as [Ht|Ht];
          [apply Z.eqb_eq in Ht; lia|]).
  discriminate.
Qed.

(** A transient failure numbered [n + 1 < 5] in a row: sleep and call
    [next_chunk] again, with everything but the retry counter as it
    was. *)
Lemma chunk_loop_transient (callback : bool) (e : Py.exn) (rest : list next_chunk)
    (lp sc rc : Z) :
  server_error e -> rc + 1 < 5 ->
  chunk_loop callback (ChunkRaised e :: rest) lp sc rc =
  prepend [NextChunk; Sleep ChunkBackoff (inject_Z (chunk_backoff (rc + 1)))]
          (chunk_loop callback rest lp sc (rc + 1)).
Proof.
  intros (st & Hcls & Ht) Hlt. cbn [chunk_loop]. rewrite Hcls, Ht.
  assert ((5 <=? rc + 1) = false) as -> by (apply Z.leb_gt; lia). reflexivity.
Qed.

(** The fifth transient failure in a row is raised out of the loop. *)
Lemma chunk_loop_fifth (callback : bool) (e : Py.exn) (rest : list next_chunk)
    (lp sc : Z) :
  server_error e ->
  chunk_loop callback (ChunkRaised e :: rest) lp sc 4 = (LoopRaised e, [NextChunk], rest).
Proof. intros (st & Hcls & Ht). cbn [chunk_loop]. rewrite Hcls, Ht. reflexivity. Qed.

(** An accepted chunk resets the retry counter. *)
Lemma chunk_loop_accepts (callback : bool) (st : option chunk_status)
    (resp : option response) (rest : list next_chunk) (lp sc rc : Z) :
  chunk_loop callback (Chunk st resp :: rest) lp sc rc =
  chunk_loop callback (Chunk st resp :: rest) lp sc 0.
Proof. reflexivity. Qed.

(** Up to fifty accepted chunks in a row cannot trip the stall
    counter: the loop goes through them without a chunk backoff and ends
    with the retry counter at 0. *)
Lemma chunk_loop_in_progress (callback : bool) (pre : list next_chunk) :
  forall lp sc,
    Forall in_progress pre -> 0 <= sc -> sc + Z.of_nat (length pre) <= 50 ->
    exists evs lp' sc',
      chunk_backoffs evs = [] /\
      forall tail, chunk_loop callback (pre ++ tail) lp sc 0 =
                   prepend evs (chunk_loop callback tail lp' sc' 0).
Proof.
  induction pre as [|c pre IH]; intros lp sc Hall Hsc Hlen.
  - exists [], lp, sc. split; [reflexivity|]. intros tail. by rewrite prepend_nil.
  - apply List.Forall_cons_iff in Hall as [Hc Hpre].
    destruct c as [st [r|]|e]; try contradiction. cbn [length] in Hlen.
    destruct st as [s|].
    + destruct ((lp <? percent s) && elapsed_positive s) eqn:E1.
      * destruct (IH (percent s) 0 Hpre ltac:(lia) ltac:(lia)) as (evs & lp' & sc' & Hb & Heq).
        eexists _, lp', sc'. split; [|intros tail; cbn [app chunk_loop]; rewrite E1, Heq;
                                       apply prepend_prepend].
        rewrite chunk_backoffs_app, Hb. by destruct callback.
      * destruct (percent s =? lp) eqn:E2.
        -- destruct (IH lp (sc + 1) Hpre ltac:(lia) ltac:(lia)) as (evs & lp' & sc' & Hb & Heq).
           eexists _, lp', sc'.
           split; [|intros tail; cbn [app chunk_loop]; rewrite E1, E2;
                    assert ((50 <? sc + 1) = false) as -> by (apply Z.ltb_ge; lia);
                    rewrite Heq; apply prepend_prepend].
           by rewrite chunk_backoffs_app, Hb.
        -- destruct (IH lp sc Hpre ltac:(lia) ltac:(lia)) as (evs & lp' & sc' & Hb & Heq).
           eexists _, lp', sc'.
           split; [|intros tail; cbn [app chunk_loop]; rewrite E1, E2, Heq;
                    apply prepend_prepend].
           by rewrite chunk_backoffs_app, Hb.
    + destruct (IH lp sc Hpre ltac:(lia) ltac:(lia)) as (evs & lp' & sc' & Hb & Heq).
      eexists _, lp', sc'.
      split; [|intros tail; cbn [app chunk_loop]; rewrite Heq; apply prepend_prepend].
      by rewrite chunk_backoffs_app, Hb.
Qed.

Lemma handle_server_error (max_retries attempt : Z) (service : bool) (e : Py.exn) :
  server_error e ->
  exists code,
    Py.exn_cls e = Py.HttpError code /\
    handle_exception max_retries attempt service e =
    if attempt <? max_retries - 1
    then NextAttempt service [Sleep AttemptBackoff (inject_Z (2 ^ attempt))]
    else ReturnNow (UploadFailed ("Google Drive server error: " +:+ pretty code)).
Proof.
  intros He. destruct (server_error_cases e He) as (code & Hcls & _ & Hcode).
  exists code. split; [exact Hcls|]. unfold handle_exception. rewrite Hcls.
  destruct Hcode as [->|[->|[->| ->]]]; reflexivity.
Qed.

(** C8, as the code has it.  A chunk that fails twice with a status of
    500, 502, 503 or 504 and is then accepted costs two chunk backoffs,
    of 2 and 4 seconds, and changes nothing else: the result is the
    result of the same upload without the two failures.  The delays are
    [min(2 n, 10)] for the [n]-th failure in a row; the fifth failure in
    a row is raised to the attempt level, where the whole upload starts
    again after [2 ^ attempt] seconds while attempts are left, and
    fails with the server-error message otherwise. *)
Theorem transient_chunk_failures_backed_off (w : world) (file_path : string)
    (callback : bool) (max_retries : Z) (pre post : list next_chunk) (e1 e2 : Py.exn)
    (st : option chunk_status) (resp : option response) :
  file_exists w = true -> file_size w <> 0 -> service w = true -> 0 < max_retries ->
  Forall in_progress pre -> (length pre <= 50)%nat ->
  server_error e1 -> server_error e2 ->
  chunks w = pre ++ ChunkRaised e1 :: ChunkRaised e2 :: Chunk st resp :: post ->
  let clean :=
    World (file_exists w) (file_size w) (service w) (auths w) (pre ++ Chunk st resp :: post) in
  let run := upload_with_progress w file_path callback max_retries in
  let clean_run := upload_with_progress clean file_path callback max_retries in
  fst run = fst clean_run /\
  chunk_backoffs (snd run) = inject_Z 2 :: inject_Z 4 :: chunk_backoffs (snd clean_run) /\
  (forall n, chunk_backoff n = Z.min (n * 2) 10) /\
  (forall e3 e4 e5 rest lp sc,
      server_error e3 -> server_error e4 -> server_error e5 ->
      chunk_loop callback
        (ChunkRaised e1 :: ChunkRaised e2 :: ChunkRaised e3 :: ChunkRaised e4
           :: ChunkRaised e5 :: rest) lp sc 0 =
      (LoopRaised e5,
       [NextChunk; Sleep ChunkBackoff (inject_Z 2); NextChunk; Sleep ChunkBackoff (inject_Z 4);
        NextChunk; Sleep ChunkBackoff (inject_Z 6); NextChunk; Sleep ChunkBackoff (inject_Z 8);
        NextChunk], rest)) /\
  (forall e attempt service,
      server_error e ->
      exists code,
        Py.exn_cls e = Py.HttpError code /\
        handle_exception max_retries attempt service e =
        if attempt <? max_retries - 1
        then NextAttempt service [Sleep AttemptBackoff (inject_Z (2 ^ attempt))]
        else ReturnNow (UploadFailed ("Google Drive server error: " +:+ pretty code))).
Proof.
  intros Hex Hsize Hsvc Hmr Hpre Hlen He1 He2 Hchunks clean run clean_run.
  split; [|split]; [| |split; [reflexivity|split]].
  3: { intros e3 e4 e5 rest lp sc He3 He4 He5.
       rewrite (chunk_loop_transient callback e1 _ lp sc 0 He1) by lia.
       rewrite (chunk_loop_transient callback e2 _ lp sc (0 + 1) He2) by lia.
       rewrite (chunk_loop_transient callback e3 _ lp sc (0 + 1 + 1) He3) by lia.
       rewrite (chunk_loop_transient callback e4 _ lp sc (0 + 1 + 1 + 1) He4) by lia.
       change (0 + 1 + 1 + 1 + 1) with 4.
       rewrite (chunk_loop_fifth callback e5 rest lp sc He5). reflexivity. }
  3: { intros e attempt service He. by apply handle_server_error. }
  all: unfold run, clean_run, upload_with_progress, clean; cbn [file_exists file_size service auths chunks];
    rewrite Hex; cbn [negb]; apply Z.eqb_neq in Hsize; rewrite Hsize;
    destruct (Z.to_nat max_retries) as [|todo] eqn:Etodo; [lia|];
    cbn [attempts]; unfold attempt_body; rewrite Hsvc; unfold transfer; rewrite Hchunks;
    destruct (chunk_loop_in_progress callback pre 0 0 Hpre ltac:(lia) ltac:(lia))
      as (evs & lp' & sc' & Hb & Heq);
    rewrite !Heq;
    rewrite (chunk_loop_transient callback e1 _ lp' sc' 0 He1) by lia;
    rewrite (chunk_loop_transient callback e2 _ lp' sc' (0 + 1) He2) by lia;
    rewrite (chunk_loop_accepts callback st resp post lp' sc' (0 + 1 + 1));
    destruct (chunk_loop callback (Chunk st resp :: post) lp' sc' 0) as [[how evs0] rest0];
    cbn [prepend];
    destruct (conclude max_retries 0 (attempts callback max_retries todo (0 + 1))
                       (auths w) how rest0) as [r tail];
    cbn [add_events fst snd].
  - reflexivity.
  - change (CreateRequest :: ?l) with ([CreateRequest] ++ l).
    rewrite !chunk_backoffs_app, Hb. reflexivity.
Qed.

End ChunkRetry.

Section ChunkRetryExamples.
Import Uploader.

Lemma transient_chunk_failures_backed_off_witness :
  let clean :=
    sample_world []
      ([at_percent 10; at_percent 20; at_percent 30] ++
       [at_percent 40; at_percent 50; at_percent 60; at_percent 70; at_percent 80;
        at_percent 90; done]) in
  let run := upload_with_progress fourth_chunk_fails_twice "encode/episode.mp4" true 3 in
  let clean_run := upload_with_progress clean "encode/episode.mp4" true 3 in
  fst run = fst clean_run /\
  chunk_backoffs (snd run) = inject_Z 2 :: inject_Z 4 :: chunk_backoffs (snd clean_run).
Proof.
  destruct (transient_chunk_failures_backed_off
              fourth_chunk_fails_twice "encode/episode.mp4" true 3
              [at_percent 10; at_percent 20; at_percent 30]
              [at_percent 50; at_percent 60; at_percent 70; at_percent 80;
               at_percent 90; done]
              (http 503) (http 502) (Some (ChunkStatus 40 true)) None)
    as (H1 & H2 & _).
  - reflexivity.
  - discriminate.
  - reflexivity.
  - lia.
  - repeat constructor.
  - cbn. lia.
  - exists 503. split; reflexivity.
  - exists 502. split; reflexivity.
  - reflexivity.
  - split; [exact H1 | exact H2].
Defined.

(** The ten-chunk upload whose fourth chunk fails twice: two chunk
    backoffs and a successful result. *)
Example fourth_chunk_fails_twice_succeeds :
  let run := upload_with_progress fourth_chunk_fails_twice "encode/episode.mp4" true 3 in
  fst run = UploadOk "file-id" "episode.mp4" /\
  chunk_backoffs (snd run) = [inject_Z 2; inject_Z 4] /\
  callbacks (snd run) = [10; 20; 30; 40; 50; 60; 70; 80; 90].
Proof. vm_compute. repeat split; reflexivity. Qed.

(** C8, as stated, fails twice over: the chunk backoffs 2, 4, 6, 8 are
    no capped doubling schedule, whatever the base and the cap; and five
    server errors in a row do not fail the upload, which starts again
    and succeeds. *)
Lemma chunk_backoff_linear_and_restart :
  map chunk_backoff [1; 2; 3; 4] = [2; 4; 6; 8] /\
  (~ exists base cap, forall n, 1 <= n <= 4 ->
                                chunk_backoff n = capped_exponential base cap n) /\
  fst (upload_with_progress five_server_errors "encode/episode.mp4" true 3)
  = UploadOk "file-id" "episode.mp4" /\
  count_event is_create_request
    (snd (upload_with_progress five_server_errors "encode/episode.mp4" true 3)) = 2%nat.
Proof.
  split; [reflexivity|]. split; [|split; vm_compute; reflexivity].
  intros (base & cap & H).
  pose proof (H 1 ltac:(lia)) as H1. pose proof (H 2 ltac:(lia)) as H2.
  pose proof (H 3 ltac:(lia)) as H3. pose proof (H 4 ltac:(lia)) as H4.
  unfold chunk_backoff, capped_exponential in *.
  change (2 ^ (1 - 1)) with 1 in H1. change (2 ^ (2 - 1)) with 2 in H2.
  change (2 ^ (3 - 1)) with 4 in H3. change (2 ^ (4 - 1)) with 8 in H4.
  lia.
Qed.

End ChunkRetryExamples.

Section AuthExpiry.
Import Uploader.

(** C9, as the code has it.  When the chunk loop of an attempt is left
    by an [HttpError] 401 and attempts are left, the function sleeps
    [2 ^ attempt] seconds and enters the next attempt with
    [self.service] unset; that attempt calls [authenticate()] and, when
    it succeeds, creates a new request and runs the chunk loop from its
    initial state.  In the last attempt the 401 returns "Authentication
    failed". *)
Theorem auth_expiry_restarts_upload (callback : bool) (max_retries : Z) (todo : nat)
    (attempt : Z) (auths : list (Py.outcome bool)) (chunks : list next_chunk)
    (e : Py.exn) (evs : list event) (rest : list next_chunk) :
  Py.exn_cls e = Py.HttpError 401 ->
  chunk_loop callback chunks 0 0 0 = (LoopRaised e, evs, rest) ->
  attempts callback max_retries (S todo) attempt true auths chunks =
  (if attempt <? max_retries - 1 then
     add_events (CreateRequest :: evs ++ [Sleep AttemptBackoff (inject_Z (2 ^ attempt))])
                (attempts callback max_retries todo (attempt + 1) false auths rest)
   else (UploadFailed "Authentication failed", CreateRequest :: evs)) /\
  (forall auths' chunks' attempt',
      attempts callback max_retries (S todo) attempt' false (Py.Returned true :: auths') chunks'
      = add_events [Authenticate]
                   (attempts callback max_retries (S todo) attempt' true auths' chunks')) /\
  (forall auths' chunks' attempt',
      exists tail,
        snd (attempts callback max_retries (S todo) attempt' true auths' chunks') =
        CreateRequest :: snd (fst (chunk_loop callback chunks' 0 0 0)) ++ tail).
Proof.
  intros Hcls Hloop. split; [|split].
  - cbn [attempts]. unfold attempt_body, transfer. rewrite Hloop.
    unfold conclude, on_exception, handle_exception. rewrite Hcls.
    change (401 =? 403) with false. change (401 =? 404) with false.
    change (401 =? 401) with true. cbv iota.
    destruct (attempt <? max_retries - 1).
    + destruct (attempts callback max_retries todo (attempt + 1) false auths rest)
        as [r tail]. cbn. by rewrite <- app_assoc.
    + cbn. by rewrite app_nil_r.
  - intros auths' chunks' attempt'. reflexivity.
  - intros auths' chunks' attempt'. cbn [attempts]. unfold attempt_body, transfer.
    destruct (chunk_loop callback chunks' 0 0 0) as [[how evs'] rest'].
    destruct (conclude _ _ _ _ _ _) as [r tail]. cbn. by exists tail.
Qed.

Lemma auth_expiry_restarts_upload_witness :
  attempts true 3 3 0 true [Py.Returned true]
           [at_percent 50; ChunkRaised (http 401); at_percent 30; done] =
  add_events [CreateRequest; NextChunk; Callback 50; Sleep Pace (1 # 10); NextChunk;
              Sleep AttemptBackoff (inject_Z (2 ^ 0))]
             (attempts true 3 2 (0 + 1) false [Py.Returned true] [at_percent 30; done]).
Proof.
  apply (auth_expiry_restarts_upload true 3 2 0 [Py.Returned true]
           [at_percent 50; ChunkRaised (http 401); at_percent 30; done]
           (http 401)
           [NextChunk; Callback 50; Sleep Pace (1 # 10); NextChunk]
           [at_percent 30; done]).
  - reflexivity.
  - reflexivity.
Defined.

(** C9, as stated, fails: the token expires in two attempts in a row;
    the function authenticates again after each, creates a request
    three times, reports 30 percent after 50, and succeeds. *)
Lemma auth_expiry_retried_twice_from_start :
  let run := upload_with_progress expiry_twice "encode/episode.mp4" true 3 in
  fst run = UploadOk "file-id" "episode.mp4" /\
  count_event is_authenticate (snd run) = 2%nat /\
  count_event is_create_request (snd run) = 3%nat /\
  callbacks (snd run) = [50; 30].
Proof. vm_compute. repeat split; reflexivity. Qed.

End AuthExpiry.

(** * Further properties *)

(** ** The upload: chunk size, registry and attempts *)

Section UploadMore.
Import Uploader.

(** X1.  The chunk size grows with the file size, lies between 1 MiB
    and 25 MiB, and is a multiple of 256 KiB. *)
Theorem chunk_size_monotone (a b : Z) :
  a <= b ->
  calculate_optimal_chunk_size a <= calculate_optimal_chunk_size b /\
  1024 * 1024 <= calculate_optimal_chunk_size a <= 25 * 1024 * 1024 /\
  (256 * 1024 | calculate_optimal_chunk_size a).
Proof.
  intros Hab. unfold calculate_optimal_chunk_size.
  repeat match goal with
         | |- context [?x <? ?y] => destruct (Z.ltb_spec x y)
         end; repeat split; try lia.
  all: first [by exists 4 | by exists 20 | by exists 40 | by exists 100].
Qed.

Lemma chunk_size_monotone_witness :
  calculate_optimal_chunk_size (40 * 1024 * 1024)
  <= calculate_optimal_chunk_size (3 * 1024 * 1024 * 1024) /\
  1024 * 1024 <= calculate_optimal_chunk_size (40 * 1024 * 1024) <= 25 * 1024 * 1024 /\
  (256 * 1024 | calculate_optimal_chunk_size (40 * 1024 * 1024)).
Proof.
  apply (chunk_size_monotone (40 * 1024 * 1024) (3 * 1024 * 1024 * 1024)). lia.
Defined.

(** X2.  A file that passes the size test of [upload_video] (not empty,
    at most 5 GiB) is covered by at most 205 chunks of the size chosen
    for it. *)
Theorem admitted_file_within_205_chunks (file_size : Z) :
  0 < file_size <= max_file_size ->
  file_size <= 205 * calculate_optimal_chunk_size file_size.
Proof.
  unfold max_file_size, calculate_optimal_chunk_size. intros H.
  repeat match goal with
         | |- context [?x <? ?y] => destruct (Z.ltb_spec x y)
         end; lia.
Qed.

Lemma admitted_file_within_205_chunks_witness :
  max_file_size <= 205 * calculate_optimal_chunk_size max_file_size.
Proof. apply (admitted_file_within_205_chunks max_file_size). unfold max_file_size. lia. Defined.

Lemma update_upload_progress_other (m : gmap string upload_info) (id k : string) (p : Z)
    (speed eta : string) :
  k <> id -> update_upload_progress m id p speed eta !! k = m !! k.
Proof.
  intros Hne. unfold update_upload_progress.
  destruct (m !! id); [by apply lookup_insert_ne | reflexivity].
Qed.

Lemma record_progress_other (id k : string) (evs : list event) :
  forall m : gmap string upload_info,
    k <> id -> record_progress id m evs !! k = m !! k.
Proof.
  unfold record_progress. induction evs as [|ev evs IH]; intros m Hne; [reflexivity|].
  cbn [fold_left]. rewrite IH by assumption.
  destruct ev; try reflexivity. by apply update_upload_progress_other.
Qed.

(** X3.  Once [upload_video] has registered its upload, the registry it
    leaves behind is the registry it found without the upload id,
    whatever the transfer did: no other entry is touched, nothing of the
    upload stays, and an entry that was already under the same id is
    gone as well. *)
Theorem upload_video_leaves_registry (active : gmap string upload_info) (w : video_world)
    (video_name user file : string) :
  found_file w = Some file ->
  0 < found_size w <= max_file_size ->
  snd (upload_video active w video_name user) = delete (upload_id w) active.
Proof.
  intros Hfile [Hpos Hmax]. unfold upload_video. rewrite Hfile.
  assert ((max_file_size <? found_size w) = false) as -> by (apply Z.ltb_ge; lia).
  assert ((found_size w =? 0) = false) as -> by (apply Z.eqb_neq; lia).
  set (id := upload_id w).
  set (active1 := add_upload active id file "gdrive" user (clock w)).
  assert (forall k, k <> id -> active1 !! k = active !! k) as H1.
  { intros k Hk. unfold active1, add_upload. by apply lookup_insert_ne. }
  assert (forall active2 : gmap string upload_info,
             (forall k, k <> id -> active2 !! k = active !! k) ->
             remove_upload active2 id = delete id active) as Hfin.
  { intros active2 H2. apply map_eq. intros k. destruct (decide (k = id)) as [->|Hk].
    - by rewrite remove_upload_absent, lookup_delete_eq.
    - rewrite remove_upload_other by congruence.
      rewrite lookup_delete_ne by congruence. by apply H2. }
  destruct (negb (GOOGLE_DRIVE_AVAILABLE w)); cbn [snd]; [by apply Hfin|].
  destruct (awaited w) as [[result evs]|e]; cbn [snd]; apply Hfin; [|exact H1].
  intros k Hk. rewrite record_progress_other by assumption. by apply H1.
Qed.

Lemma upload_video_leaves_registry_witness :
  snd (upload_video ∅ sample_video_world "episode" "alice") = delete "1700000000_abc" ∅.
Proof.
  apply (upload_video_leaves_registry ∅ sample_video_world "episode" "alice"
           "encode/episode.mp4").
  - reflexivity.
  - unfold max_file_size. cbn. lia.
Defined.

(** X4.  While an upload runs, its entry shows the percent of the last
    callback, and 0 before the first; the other fields of the entry
    stay as [add_upload] wrote them. *)
Theorem registry_shows_last_percent (active : gmap string upload_info)
    (id file service user : string) (now : Q) (evs : list event) :
  exists entry,
    record_progress id (add_upload active id file service user now) evs !! id = Some entry /\
    progress entry = List.last (callbacks evs) 0 /\
    file_path entry = file /\ user_info entry = user /\ start_time entry = now.
Proof.
  assert (forall (evs : list event) (m : gmap string upload_info) i,
             m !! id = Some i ->
             exists entry,
               record_progress id m evs !! id = Some entry /\
               progress entry = List.last (callbacks evs) (progress i) /\
               file_path entry = file_path i /\ user_info entry = user_info i /\
               start_time entry = start_time i) as H.
  { clear. unfold record_progress.
    induction evs as [|ev evs IH]; intros m i Hi; [by exists i|].
    cbn [fold_left].
    destruct ev as [| | |p| |]; try (by apply IH).
    assert (exists i', update_upload_progress m id p "speed" "eta" !! id = Some i' /\
                       progress i' = p /\ file_path i' = file_path i /\
                       user_info i' = user_info i /\ start_time i' = start_time i)
      as (i' & Hi' & Hp' & Hf' & Hu' & Hs').
    { unfold update_upload_progress. rewrite Hi, lookup_insert_eq. by eexists. }
    destruct (IH _ i' Hi') as (entry & He & Hp & Hf & Hu & Hs).
    exists entry. split; [exact He|].
    rewrite Hp, Hf, Hu, Hs, Hp'. repeat split; try assumption.
    unfold callbacks. cbn [flat_map app].
    destruct (flat_map _ evs) as [|z l]; [reflexivity|].
    change (List.last (p :: z :: l) (progress i)) with (List.last (z :: l) (progress i)).
    clear. revert z. induction l as [|y l IHl]; intros z; [reflexivity | apply IHl]. }
  edestruct (H evs (add_upload active id file service user now)) as (entry & He & Hp & Hr);
    [apply lookup_insert_eq|].
  exists entry. split; [exact He|]. cbn in *. tauto.
Qed.

End UploadMore.

Section UploadAttempts.
Import Uploader.

Lemma count_event_app (which : event -> bool) (a b : list event) :
  count_event which (a ++ b) = (count_event which a + count_event which b)%nat.
Proof. unfold count_event. by rewrite List.filter_app, length_app. Qed.

(** The chunk loop neither authenticates nor creates a request. *)
Lemma chunk_loop_quiet (which : event -> bool) (callback : bool)
    (chunks : list next_chunk) :
  which = is_create_request \/ which = is_authenticate ->
  forall lp sc rc,
    count_event which (snd (fst (chunk_loop callback chunks lp sc rc))) = 0%nat.
Proof.
  intros Hw. induction chunks as [|c rest IH]; intros lp sc rc; [reflexivity|].
  destruct c as [[s|] resp|e]; cbn [chunk_loop];
    repeat match goal with
    | |- context [chunk_loop ?cb rest ?a ?b ?c] =>
        let H := fresh "Hrec" in
        pose proof (IH a b c) as H;
        destruct (chunk_loop cb rest a b c) as [[? ?] ?]; cbn in H
    | |- context [if ?x then _ else _] => destruct x eqn:?
    | |- context [match ?x with _ => _ end] => destruct x eqn:?
    end; cbn [prepend fst snd]; rewrite ?count_event_app;
    destruct Hw as [-> | ->]; cbn; try reflexivity; try assumption;
    unfold count_event in *; cbn; lia.
Qed.

Lemma handle_exception_events (which : event -> bool) (max_retries attempt : Z)
    (service service' : bool) (e : Py.exn) (evs : list event) :
  which = is_create_request \/ which = is_authenticate ->
  handle_exception max_retries attempt service e = NextAttempt service' evs ->
  count_event which evs = 0%nat.
Proof.
  intros Hw. unfold handle_exception.
  repeat match goal with
         | |- context [match ?x with _ => _ end] => destruct x
         end; intros [= <- <-]; destruct Hw as [-> | ->]; reflexivity.
Qed.

Section OneAttemptCount.

Variable which : event -> bool.
Hypothesis which_one : which = is_create_request \/ which = is_authenticate.
Variables (callback : bool) (max_retries attempt : Z) (n : nat).
Variable next : bool -> list (Py.outcome bool) -> list next_chunk -> upload_result * list event.

Hypothesis next_bounded :
  forall service auths chunks, (count_event which (snd (next service auths chunks)) <= n)%nat.

Lemma on_exception_count (e : Py.exn) (service : bool) (auths : list (Py.outcome bool))
    (chunks : list next_chunk) :
  (count_event which (snd (on_exception max_retries attempt next e service auths chunks))
   <= n)%nat.
Proof.
  unfold on_exception.
  destruct (handle_exception max_retries attempt service e) as [r|service' evs] eqn:E;
    [cbn; unfold count_event; cbn; lia|].
  rewrite snd_add_events, count_event_app,
    (handle_exception_events which _ _ _ _ _ _ which_one E).
  apply next_bounded.
Qed.

Lemma conclude_count (auths : list (Py.outcome bool)) (how : loop_exit)
    (chunks : list next_chunk) :
  (count_event which (snd (conclude max_retries attempt next auths how chunks)) <= n)%nat.
Proof.
  unfold conclude. destruct how as [r|e|].
  - destruct (String.eqb (resp_id r) ""); [apply on_exception_count|].
    destruct which_one as [-> | ->]; cbn; unfold count_event; cbn; lia.
  - apply on_exception_count.
  - unfold count_event; cbn; lia.
Qed.

Lemma transfer_count (auths : list (Py.outcome bool)) (chunks : list next_chunk) :
  (count_event which (snd (transfer callback max_retries attempt next auths chunks))
   <= count_event which [CreateRequest] + n)%nat.
Proof.
  unfold transfer.
  pose proof (chunk_loop_quiet which callback chunks which_one 0 0 0) as Hq.
  destruct (chunk_loop callback chunks 0 0 0) as [[how evs] chunks']. cbn [fst snd] in Hq.
  rewrite snd_add_events.
  change (CreateRequest :: evs) with ([CreateRequest] ++ evs).
  rewrite !count_event_app, Hq.
  pose proof (conclude_count auths how chunks'). lia.
Qed.

Lemma attempt_body_count (service : bool) (auths : list (Py.outcome bool))
    (chunks : list next_chunk) :
  (count_event which
     (snd (attempt_body callback max_retries attempt next service auths chunks)) <= S n)%nat.
Proof.
  assert (count_event which [CreateRequest] + count_event which [Authenticate] = 1)%nat
    as Hone by (destruct which_one as [-> | ->]; reflexivity).
  unfold attempt_body. destruct service.
  - pose proof (transfer_count auths chunks). lia.
  - destruct auths as [|[[|]|e] auths'].
    + cbn [snd]. lia.
    + rewrite snd_add_events, count_event_app.
      pose proof (transfer_count auths' chunks). lia.
    + destruct (attempt =? max_retries - 1); [cbn [snd]; lia|].
      rewrite snd_add_events.
      change [Authenticate; Sleep AttemptBackoff (inject_Z (2 ^ attempt))]
        with ([Authenticate] ++ [Sleep AttemptBackoff (inject_Z (2 ^ attempt))]).
      rewrite !count_event_app.
      assert (count_event which [Sleep AttemptBackoff (inject_Z (2 ^ attempt))] = 0)%nat
        as -> by (destruct which_one as [-> | ->]; reflexivity).
      pose proof (next_bounded false auths' chunks). lia.
    + rewrite snd_add_events, count_event_app.
      pose proof (on_exception_count e false auths' chunks). lia.
Qed.

End OneAttemptCount.

Lemma attempts_count (which : event -> bool) (callback : bool) (max_retries : Z)
    (todo : nat) :
  which = is_create_request \/ which = is_authenticate ->
  forall attempt service auths chunks,
    (count_event which (snd (attempts callback max_retries todo attempt service auths chunks))
     <= todo)%nat.
Proof.
  intros Hw. induction todo as [|todo IH]; intros attempt service auths chunks;
    [cbn; unfold count_event; cbn; lia|].
  cbn [attempts]. apply attempt_body_count; [exact Hw|].
  intros service' auths' chunks'. apply IH.
Qed.

(** X5.  Whatever the server and the authentication answer,
    [upload_with_progress] creates at most [max_retries] requests and
    calls [authenticate()] at most [max_retries] times; with
    [max_retries] not positive it does neither. *)
Theorem upload_attempts_bounded (w : world) (file_path : string) (callback : bool)
    (max_retries : Z) :
  let evs := snd (upload_with_progress w file_path callback max_retries) in
  (count_event is_create_request evs <= Z.to_nat max_retries)%nat /\
  (count_event is_authenticate evs <= Z.to_nat max_retries)%nat.
Proof.
  cbn zeta. unfold upload_with_progress.
  destruct (negb (file_exists w)); [split; cbn; unfold count_event; cbn; lia|].
  destruct (file_size w =? 0); [split; cbn; unfold count_event; cbn; lia|].
  split; apply attempts_count; auto.
Qed.

(** X6.  The chunk loop is left by an exception only with an exception
    that [next_chunk()] raised: the exception of the stall test
    ("Upload progress stalled for too long") is caught by the handler of
    the same [try], which sleeps two seconds and goes on. *)
Theorem chunk_loop_raises_only_what_next_chunk_raised (callback : bool)
    (chunks : list next_chunk) :
  forall lp sc rc e evs rest,
    chunk_loop callback chunks lp sc rc = (LoopRaised e, evs, rest) ->
    In (ChunkRaised e) chunks.
Proof.
  induction chunks as [|c chunks' IH]; intros lp sc rc e evs rest; [discriminate|].
  destruct c as [[s|] resp|e0]; cbn [chunk_loop];
    repeat match goal with
    | |- context [chunk_loop ?cb chunks' ?a ?b ?c] =>
        let H := fresh "Hrec" in
        pose proof (IH a b c) as H;
        destruct (chunk_loop cb chunks' a b c) as [[? ?] ?]
    | |- context [if ?x then _ else _] => destruct x eqn:?
    | |- context [match ?x with _ => _ end] => destruct x eqn:?
    end; cbn [prepend]; intros [= ? ? ?]; subst;
    first [ by left
          | right;
            match goal with
            | H : forall e evs rest, _ = _ -> In _ _ |- _ => eapply H; reflexivity
            end ].
Qed.

Lemma chunk_loop_raises_only_what_next_chunk_raised_witness :
  In (ChunkRaised (http 401)) [at_percent 50; ChunkRaised (http 401); at_percent 30; done].
Proof.
  apply (chunk_loop_raises_only_what_next_chunk_raised true
           [at_percent 50; ChunkRaised (http 401); at_percent 30; done] 0 0 0 (http 401)
           [NextChunk; Callback 50; Sleep Pace (1 # 10); NextChunk] [at_percent 30; done]).
  reflexivity.
Defined.

(** X7.  An [HttpError] below 500 other than 401 that leaves the chunk
    loop ends the upload at once, in any attempt: the request is not
    created again and the failure returned is the quota, permission,
    not found or API error message. *)
Theorem client_errors_not_retried (callback : bool) (max_retries : Z) (todo : nat)
    (attempt : Z) (auths : list (Py.outcome bool)) (chunks : list next_chunk)
    (e : Py.exn) (st : Z) (evs : list event) (rest : list next_chunk) :
  Py.exn_cls e = Py.HttpError st -> st < 500 -> st <> 401 ->
  chunk_loop callback chunks 0 0 0 = (LoopRaised e, evs, rest) ->
  exists message,
    attempts callback max_retries (S todo) attempt true auths chunks =
    (UploadFailed message, CreateRequest :: evs) /\
    In message (final_messages attempt e).
Proof.
  intros Hcls Hlt Hne Hloop. cbn [attempts]. unfold attempt_body, transfer.
  rewrite Hloop. unfold conclude, on_exception, handle_exception. rewrite Hcls.
  assert ((st =? 401) = false) as H401 by (by apply Z.eqb_neq).
  assert ((500 <=? st) = false) as H500 by (apply Z.leb_gt; lia).
  unfold final_messages.
  destruct (st =? 403).
  - destruct (_ || _); eexists; cbn; rewrite app_nil_r; (split; [reflexivity|]); cbn; tauto.
  - destruct (st =? 404); [|rewrite H401, H500];
      eexists; cbn; rewrite app_nil_r; (split; [reflexivity|]); cbn; tauto.
Qed.

Lemma client_errors_not_retried_witness :
  exists message,
    attempts true 3 3 0 true [] [at_percent 50; ChunkRaised (http 403); done] =
    (UploadFailed message,
     CreateRequest :: [NextChunk; Callback 50; Sleep Pace (1 # 10); NextChunk]) /\
    In message (final_messages 0 (http 403)).
Proof.
  apply (client_errors_not_retried true 3 2 0 []
           [at_percent 50; ChunkRaised (http 403); done] (http 403) 403
           [NextChunk; Callback 50; Sleep Pace (1 # 10); NextChunk] [done]).
  - reflexivity.
  - lia.
  - lia.
  - reflexivity.
Defined.

End UploadAttempts.

(** ** The progress display of the upload command *)

Section ProgressDisplay.
Import Bot.

(** X8.  For a percent between 0 and 100 the bar has exactly [length]
    cells, and it is entirely filled only at 100 percent (for a bar of
    positive length); for a percent so far above 100 or below 0 that
    the number of filled cells leaves the range, the bar has more than
    [length] cells. *)
Theorem progress_bar_cells (progress length : Z) :
  0 <= length ->
  (0 <= progress <= 100 ->
   List.length (bar_cells progress length) = Z.to_nat length /\
   0 <= filled_cells progress length <= length /\
   (0 < length -> (filled_cells progress length = length <-> progress = 100))) /\
  (100 <= length * (progress - 100) \/ length * progress <= -100 ->
   (Z.to_nat length < List.length (bar_cells progress length))%nat).
Proof.
  intros Hlen. unfold bar_cells, filled_cells. split.
  - intros [H0 H100].
    assert (0 <= length * progress ÷ 100 <= length) as Hf.
    { rewrite Z.quot_div_nonneg by nia. split.
      - apply Z.div_pos; nia.
      - apply Z.div_le_upper_bound; nia. }
    split; [rewrite length_app, !repeat_length; lia|]. split; [exact Hf|].
    intros Hpos. rewrite Z.quot_div_nonneg by nia. split.
    + intros Heq.
      pose proof (Z.mul_div_le (length * progress) 100 ltac:(lia)) as Hle.
      rewrite Heq in Hle. nia.
    + intros ->. by rewrite Z.div_mul by lia.
  - intros [Hhigh|Hlow]; rewrite length_app, !repeat_length.
    + rewrite Z.quot_div_nonneg by nia.
      assert (length + 1 <= length * progress / 100).
      { apply Z.div_le_lower_bound; [lia|]. nia. }
      lia.
    + assert (length * progress ÷ 100 <= -1).
      { replace (length * progress) with (- (- (length * progress))) by lia.
        rewrite Z.quot_opp_l by lia. rewrite Z.quot_div_nonneg by lia.
        assert (1 <= - (length * progress) / 100)
          by (apply Z.div_le_lower_bound; lia).
        lia. }
      lia.
Qed.

Lemma progress_bar_cells_witness :
  List.length (bar_cells 45 20) = Z.to_nat 20 /\
  (Z.to_nat 20 < List.length (bar_cells 105 20))%nat.
Proof.
  destruct (progress_bar_cells 45 20 ltac:(lia)) as [H _].
  destruct (H ltac:(lia)) as (Hlen & _).
  destruct (progress_bar_cells 105 20 ltac:(lia)) as [_ H'].
  split; [exact Hlen | apply H'; lia].
Defined.

Lemma shown_from_spaced (delivered : list Z) :
  forall last, spaced last (shown_from last delivered) /\
               sublist (shown_from last delivered) delivered /\
               Forall (fun p => 100 <= p -> In p (shown_from last delivered)) delivered.
Proof.
  induction delivered as [|p rest IH]; intros last;
    [split; [exact I | split; [constructor | constructor]]|].
  cbn [shown_from]. unfold progress_callback.
  destruct ((p - last <? 5) && (p <? 100)) eqn:E.
  - destruct (IH last) as (H1 & H2 & H3). split; [exact H1|].
    split; [by apply sublist_cons|]. constructor; [|exact H3].
    intros Hp. apply andb_true_iff in E as [_ E]. apply Z.ltb_lt in E. lia.
  - destruct (IH p) as (H1 & H2 & H3). split; [|split].
    + cbn. split; [|exact H1].
      apply andb_false_iff in E as [E|E]; [left; apply Z.ltb_ge in E | right; apply Z.ltb_ge in E];
        lia.
    + by apply sublist_skip.
    + constructor; [intros _; by left|].
      eapply List.Forall_impl; [|exact H3]. cbn. intros a Ha Ha'. right. by apply Ha.
Qed.

Lemma shown_from_bound (delivered : list Z) :
  forall last prev,
    last <= 100 -> prev < 100 ->
    Uploader.strictly_increasing (prev :: delivered) ->
    Forall (fun p => p <= 100) delivered ->
    5 * Z.of_nat (List.length (shown_from last delivered)) <= 105 - last.
Proof.
  induction delivered as [|p rest IH]; intros last prev Hlast Hprev Hinc Hall; [cbn; lia|].
  apply List.Forall_cons_iff in Hall as [Hp Hrest].
  assert (prev < p /\ Uploader.strictly_increasing (p :: rest)) as [Hlt Hinc'].
  { destruct Hinc as [H1 H2]. split; assumption. }
  cbn [shown_from]. unfold progress_callback.
  destruct ((p - last <? 5) && (p <? 100)) eqn:E.
  - destruct (Z.eq_dec p 100) as [->|Hne].
    + apply andb_true_iff in E as [_ E]. apply Z.ltb_lt in E. lia.
    + apply (IH last p); try assumption. lia.
  - apply andb_false_iff in E. cbn [List.length].
    destruct (Z.eq_dec p 100) as [->|Hne].
    + (* nothing can follow 100 in an increasing list bounded by 100 *)
      destruct rest as [|q rest']; [cbn; lia|].
      destruct Hinc' as [Hq _]. apply List.Forall_cons_iff in Hrest as [Hq' _]. lia.
    + assert (5 <= p - last) by (destruct E as [E|E]; [apply Z.ltb_ge in E | apply Z.ltb_ge in E]; lia).
      pose proof (IH p p ltac:(lia) ltac:(lia) Hinc' Hrest). lia.
Qed.

(** X9.  Of the percents delivered to the callback of the upload
    command, those shown are a subsequence in which each is at least 5
    above the one shown before it (counting from -1) or is at least
    100, and every delivered percent of 100 or more is shown; of a
    strictly increasing run of percents up to 100, at most 21 are
    shown. *)
Theorem upload_display_throttled (delivered : list Z) :
  spaced (-1) (shown delivered) /\
  sublist (shown delivered) delivered /\
  Forall (fun p => 100 <= p -> In p (shown delivered)) delivered /\
  (Uploader.strictly_increasing delivered -> Forall (fun p => p <= 100) delivered ->
   (List.length (shown delivered) <= 21)%nat).
Proof.
  unfold shown. destruct (shown_from_spaced delivered (-1)) as (H1 & H2 & H3).
  repeat split; try assumption.
  intros Hinc Hall.
  destruct delivered as [|p rest]; [cbn; lia|].
  pose proof (shown_from_bound (p :: rest) (-1) (Z.min (p - 1) 99) ltac:(lia) ltac:(lia)) as H.
  assert (Uploader.strictly_increasing (Z.min (p - 1) 99 :: p :: rest)) as Hinc'
    by (split; [lia | exact Hinc]).
  specialize (H Hinc' Hall). lia.
Qed.

Lemma upload_display_throttled_witness :
  (List.length (shown [10; 20; 30; 40; 50; 60; 70; 80; 90]%Z) <= 21)%nat.
Proof.
  destruct (upload_display_throttled [10; 20; 30; 40; 50; 60; 70; 80; 90])
    as (_ & _ & _ & H).
  apply H.
  - cbn. lia.
  - repeat constructor; lia.
Defined.

End ProgressDisplay.

(** ** The counters of the statistics *)

Section StatsCounters.
Import Stats.

Lemma string_lt_trans (a : string) :
  forall b c,
    String.compare a b = Lt -> String.compare b c = Lt -> String.compare a c = Lt.
Proof.
  induction a as [|x a IH]; intros [|y b] [|z c]; cbn; try congruence.
  unfold Ascii.compare.
  destruct (N.compare_spec (N_of_ascii x) (N_of_ascii y)) as [Hxy|Hxy|Hxy];
    destruct (N.compare_spec (N_of_ascii y) (N_of_ascii z)) as [Hyz|Hyz|Hyz];
    destruct (N.compare_spec (N_of_ascii x) (N_of_ascii z)) as [Hxz|Hxz|Hxz];
    try congruence; try lia; try (intros; eapply IH; eassumption).
Qed.

Lemma string_ltb_irrefl (a : string) : String.ltb a a = false.
Proof.
  unfold String.ltb. pose proof (String.compare_antisym a a) as H.
  destruct (String.compare a a); try reflexivity; discriminate.
Qed.

(** The fold of [min_key] over a list of keys. *)
Lemma fold_min_spec (keys : list string) (k : string) :
  foldr (fun k acc =>
           match acc with
           | None => Some k
           | Some k' => if String.ltb k k' then Some k else Some k'
           end) None keys = Some k ->
  In k keys /\ forall k', In k' keys -> String.ltb k' k = false.
Proof.
  revert k. induction keys as [|a keys IH]; intros k; [discriminate|]. cbn [foldr].
  destruct (foldr _ None keys) as [m|] eqn:E.
  - destruct (IH m eq_refl) as [Hin Hmin].
    destruct (String.ltb a m) eqn:Hlt; intros [= <-].
    + split; [by left|]. intros k' [<-|Hk']; [apply string_ltb_irrefl|].
      specialize (Hmin k' Hk'). unfold String.ltb in *.
      destruct (String.compare k' a) eqn:C1; try reflexivity.
      destruct (String.compare a m) eqn:C2; try discriminate.
      by rewrite (string_lt_trans k' a m C1 C2) in Hmin.
    + split; [by right|]. intros k' [<-|Hk']; [exact Hlt | by apply Hmin].
  - intros [= <-]. destruct keys as [|b keys']; [|cbn in E; destruct (foldr _ _ _);
                                                  [destruct (String.ltb _ _)|]; discriminate].
    split; [by left|]. intros k' [<-|[]]. apply string_ltb_irrefl.
Qed.

Lemma min_key_spec (d : gmap string day_stats) (k : string) :
  min_key d = Some k ->
  is_Some (d !! k) /\ forall k', is_Some (d !! k') -> String.ltb k' k = false.
Proof.
  unfold min_key. intros H. apply fold_min_spec in H as [Hin Hmin]. split.
  - apply in_map_iff in Hin as ([k0 v] & <- & Hin).
    apply list_elem_of_In, elem_of_map_to_list in Hin. by exists v.
  - intros k' [v Hv]. apply Hmin. apply in_map_iff. exists (k', v). split; [reflexivity|].
    by apply list_elem_of_In, elem_of_map_to_list.
Qed.

Lemma min_key_some (d : gmap string day_stats) :
  (0 < size d)%nat -> exists k, min_key d = Some k.
Proof.
  unfold min_key. rewrite <- length_map_to_list.
  destruct (map_to_list d) as [|[k v] l]; cbn; [lia|]. intros _.
  destruct (foldr _ None (map fst l)); [destruct (String.ltb k s)|]; eauto.
Qed.

Lemma bump_today_size (today : string) (f : day_stats -> day_stats)
    (d : gmap string day_stats) : size (bump_today today f d) = size d.
Proof.
  unfold bump_today. destruct (d !! today) eqn:E; [|reflexivity].
  apply map_size_insert_Some. by rewrite E.
Qed.

Lemma update_daily_stats_size (today : string) (s : stats) :
  (size (daily_stats s) <= 30)%nat ->
  (size (daily_stats (update_daily_stats today s)) <= 30)%nat.
Proof.
  intros Hs. unfold update_daily_stats. cbn [daily_stats set_daily].
  set (d := match daily_stats s !! today with
            | Some _ => daily_stats s
            | None => <[today := DayStats 0 0 0 0]> (daily_stats s)
            end).
  assert (size d <= 31)%nat as Hd.
  { unfold d. destruct (daily_stats s !! today) eqn:E; [lia|].
    rewrite map_size_insert_None by assumption. lia. }
  destruct (30 <? size d)%nat eqn:E; [|apply Nat.ltb_ge in E; lia].
  apply Nat.ltb_lt in E.
  destruct (min_key_some d ltac:(lia)) as [k Hk]. rewrite Hk.
  destruct (min_key_spec d k Hk) as [Hin _].
  rewrite map_size_delete_Some by assumption. lia.
Qed.

Lemma counters_ok_call (now : Q) (s : stats) (c : call) :
  counters_ok s -> counters_ok (apply_call now s c).
Proof.
  intros (Hd & He & Hp & Hs). destruct c; cbn [apply_call];
    unfold counters_ok, increment_commands_processed, increment_total_downloads,
      increment_total_encodes, increment_active_downloads, decrement_active_downloads,
      increment_active_encodes, decrement_active_encodes, increment_download_success,
      increment_download_failed, increment_encode_success, increment_encode_failed,
      save_stats, set_active, set_outcomes;
    cbn [active_downloads active_encodes peak_concurrent_operations daily_stats];
    rewrite ?bump_today_size;
    try (repeat split; try assumption; try lia;
         repeat match goal with
                | |- context [?x <? ?y] => destruct (Z.ltb_spec x y)
                end; lia).
  unfold update_daily_stats, set_daily. cbn. repeat split; try assumption.
  by apply (update_daily_stats_size today s).
Qed.

Lemma counters_ok_run (calls : list (Q * call)) :
  forall s, counters_ok s -> counters_ok (run calls s).
Proof.
  unfold run. induction calls as [|[now c] calls IH]; intros s Hs; [exact Hs|].
  cbn [fold_left fst snd]. apply IH. by apply counters_ok_call.
Qed.

(** X10.  [__init__] takes over the counters of the stats file
    unchecked.  When there is no file, or the file's two live counters
    are not negative, its peak is at least their sum and it stores at
    most 30 days, then after [__init__] and after any sequence of the
    counting calls the two live counters are not negative (a decrement
    at 0 stays at 0), the recorded peak is at least their sum, and at
    most 30 days are stored. *)
Theorem stats_counters_ok (file : option stats_file) (today : string)
    (calls : list (Q * call)) :
  file = None \/ counters_ok (load_stats file defaults) ->
  counters_ok (run calls (init file today)).
Proof.
  intros Hfile. apply counters_ok_run. unfold init.
  apply (counters_ok_call 0 _ (UpdateDailyStats today)).
  destruct Hfile as [->|H]; [|exact H].
  unfold counters_ok, load_stats, defaults; cbn. rewrite map_size_empty. lia.
Qed.

Lemma stats_counters_ok_witness :
  counters_ok
    (run [(1700000000 # 1, IncrementActiveDownloads); (1700000001 # 1, DecrementActiveDownloads);
          (1700000002 # 1, DecrementActiveDownloads); (1700000003 # 1, IncrementActiveEncodes)]
         (init None "2024-05-01")).
Proof.
  apply (stats_counters_ok None "2024-05-01"). by left.
Defined.

(** A file with a negative live counter: [__init__] leaves it
    negative. *)
Lemma loaded_counters_unchecked :
  active_downloads
    (init (Some (StatsFile None None None (Some (-5)) None None None None None None None
                           None None None)) "2024-05-01") = -5.
Proof. reflexivity. Qed.

(** X11.  [update_daily_stats] on at most 30 stored days: entries are
    only added (today, with zero counts) or dropped, never changed; with
    fewer than 30 days stored, today has an entry afterwards; and a day
    that is dropped is not later than any day that is kept, so that
    today itself is dropped when it is earlier than the 30 days
    stored. *)
Theorem update_daily_stats_drops_oldest (today : string) (s : stats) :
  (size (daily_stats s) <= 30)%nat ->
  let before := daily_stats s in
  let after := daily_stats (update_daily_stats today s) in
  (forall k v, after !! k = Some v ->
               before !! k = Some v \/ (k = today /\ v = DayStats 0 0 0 0)) /\
  ((size before < 30)%nat -> is_Some (after !! today)) /\
  (forall k, is_Some (before !! k) \/ k = today -> after !! k = None ->
             forall k', is_Some (after !! k') -> String.ltb k' k = false).
Proof.
  intros Hs before after. subst before after.
  unfold update_daily_stats. cbn [daily_stats set_daily].
  set (d := match daily_stats s !! today with
            | Some _ => daily_stats s
            | None => <[today := DayStats 0 0 0 0]> (daily_stats s)
            end).
  assert (forall k v, d !! k = Some v ->
                      daily_stats s !! k = Some v \/ (k = today /\ v = DayStats 0 0 0 0))
    as Hadd.
  { intros k v. unfold d. destruct (daily_stats s !! today) eqn:E; [by left|].
    destruct (decide (k = today)) as [->|Hne].
    - rewrite lookup_insert_eq. intros [= <-]. by right.
    - rewrite lookup_insert_ne by congruence. by left. }
  assert (forall k, is_Some (daily_stats s !! k) \/ k = today -> is_Some (d !! k)) as Hkeep.
  { intros k Hk. unfold d. destruct (daily_stats s !! today) eqn:E.
    - destruct Hk as [Hk| ->]; [exact Hk | by rewrite E].
    - destruct (decide (k = today)) as [->|Hne]; [by rewrite lookup_insert_eq|].
      rewrite lookup_insert_ne by congruence. destruct Hk; [assumption | congruence]. }
  assert (size d <= S (size (daily_stats s)))%nat as Hd.
  { unfold d. destruct (daily_stats s !! today) eqn:E; [lia|].
    rewrite map_size_insert_None by assumption. lia. }
  destruct (30 <? size d)%nat eqn:E.
  - apply Nat.ltb_lt in E.
    destruct (min_key_some d ltac:(lia)) as [k0 Hk0]. rewrite Hk0.
    destruct (min_key_spec d k0 Hk0) as [Hin Hmin].
    split; [|split].
    + intros k v Hv. apply Hadd. destruct (decide (k = k0)) as [->|Hne].
      * by rewrite lookup_delete_eq in Hv.
      * by rewrite lookup_delete_ne in Hv by congruence.
    + intros Hlt. lia.
    + intros k Hk Hgone k' [v' Hk'].
      destruct (decide (k = k0)) as [->|Hne].
      * apply Hmin. destruct (decide (k' = k0)) as [->|Hne'].
        -- by rewrite lookup_delete_eq in Hk'.
        -- rewrite lookup_delete_ne in Hk' by congruence. by exists v'.
      * rewrite lookup_delete_ne in Hgone by congruence.
        destruct (Hkeep k Hk) as [v Hv]. congruence.
  - split; [exact Hadd|]. split; [intros _; apply Hkeep; by right|].
    intros k Hk Hgone. destruct (Hkeep k Hk) as [v Hv]. congruence.
Qed.

Lemma update_daily_stats_drops_oldest_witness :
  let before := daily_stats defaults in
  let after := daily_stats (update_daily_stats "2024-05-01" defaults) in
  (forall k v, after !! k = Some v ->
               before !! k = Some v \/ (k = "2024-05-01" /\ v = DayStats 0 0 0 0)) /\
  ((size before < 30)%nat -> is_Some (after !! "2024-05-01")) /\
  (forall k, is_Some (before !! k) \/ k = "2024-05-01" -> after !! k = None ->
             forall k', is_Some (after !! k') -> String.ltb k' k = false).
Proof.
  apply (update_daily_stats_drops_oldest "2024-05-01" defaults).
  cbn. rewrite map_size_empty. lia.
Defined.

End StatsCounters.

(** ** The encoder: colliding ids, stop requests and the files of a job *)

Section EncoderMore.
Import Encoder.

Lemma first_missing_none (exists_path : string -> bool) (files : list (string * string)) :
  first_missing exists_path files = None <->
  forall name path, In (name, path) files -> exists_path path = true.
Proof.
  induction files as [|[n p] files IH]; cbn; [split; [intros _ ? ? [] | reflexivity]|].
  destruct (exists_path p) eqn:E.
  - rewrite IH. split.
    + intros H name path [[= <- <-]|Hin]; [exact E | by apply (H name)].
    + intros H name path Hin. apply (H name). by right.
  - split; [discriminate|]. intros H. specialize (H n p (or_introl eq_refl)). congruence.
Qed.

(** What a submission that is admitted does. *)
Lemma start_admitted (self self' : FastVideoEncoder) (a : submit_args) (w : submit_world)
    (id : string) :
  encode_single_pass_start self a w = (SuspendedWith id, self') ->
  can_start_new_encode self = true /\
  id = make_encode_id (clock_id w) (user_info a) /\
  exists_path w (intro_path a) = true /\ exists_path w (episode_path a) = true /\
  exists_path w (subtitle_path a) = true /\
  self' = add_active_encode self id (user_info a) (clock_add w).
Proof.
  unfold encode_single_pass_start.
  destruct (can_start_new_encode self); cbn [negb]; [|discriminate].
  destruct (first_missing _ _) as [[nm p]|] eqn:E; [discriminate|].
  intros [= <- <-]. pose proof (proj1 (first_missing_none _ _) E) as H.
  repeat split; try reflexivity.
  - apply (H "Intro"). cbn. tauto.
  - apply (H "Episode"). cbn. tauto.
  - apply (H "Subtitle"). cbn. tauto.
Qed.

(** The id takes eight characters of the user, not eight bytes. *)
Lemma encode_id_counts_characters :
  make_encode_id 1700000000 "Çağrı Yılmaz" = "1700000000_Çağrı_Yı".
Proof. reflexivity. Qed.

(** Submissions of one slot get the id of the slot. *)
Lemma in_slot_id (second : Z) (prefix : string) (job : submit_args * submit_world) :
  0 <= second -> in_slot second prefix job ->
  make_encode_id (clock_id (snd job)) (user_info (fst job))
  = pretty second +:+ "_" +:+ prefix.
Proof.
  intros H0 (Hlo & Hhi & Hp & _). unfold make_encode_id. rewrite Hp. do 2 f_equal.
  unfold Py.int. destruct (clock_id (snd job)) as [n d].
  unfold Qle, Qlt in *. cbn in *.
  assert (0 <= n) by nia.
  rewrite Z.quot_div_nonneg by lia.
  symmetry. apply (Z.div_unique n (Zpos d) second (n - Zpos d * second)); lia.
Qed.

Lemma in_slot_submit (second : Z) (prefix : string) (job : submit_args * submit_world)
    (self : FastVideoEncoder) :
  0 <= second -> in_slot second prefix job ->
  max_concurrent_encodes self = 3%nat ->
  (active_encodes self = ∅ \/
   exists info, active_encodes self = {[ pretty second +:+ "_" +:+ prefix := info ]}) ->
  fst (submit self job) = SuspendedWith (pretty second +:+ "_" +:+ prefix) /\
  max_concurrent_encodes (snd (submit self job)) = 3%nat /\
  exists info,
    active_encodes (snd (submit self job)) = {[ pretty second +:+ "_" +:+ prefix := info ]}.
Proof.
  intros H0 Hslot Hmax Hreg. pose proof (in_slot_id second prefix job H0 Hslot) as Hid.
  destruct Hslot as (_ & _ & _ & Hi & He & Hs).
  unfold submit, encode_single_pass_start.
  assert (can_start_new_encode self = true) as ->.
  { unfold can_start_new_encode. rewrite Hmax.
    destruct Hreg as [->|[info ->]];
      [rewrite map_size_empty | rewrite map_size_singleton]; reflexivity. }
  cbn [negb first_missing]. rewrite Hi, He, Hs, Hid. cbn [fst snd].
  split; [reflexivity|]. split; [exact Hmax|].
  unfold add_active_encode. cbn [active_encodes]. eexists.
  destruct Hreg as [->|[info ->]]; [apply insert_empty | apply insert_singleton_eq].
Qed.

(** X12.  Submissions made within one clock second by users whose
    names, spaces replaced, begin with the same eight characters get
    the same [encode_id], the second and these characters, and share
    one entry of [active_encodes]: however many of them were admitted
    and are running, the registry counts one active encode, and the
    next such submission is admitted again. *)
Theorem same_id_submissions_share_one_slot (second : Z) (prefix : string)
    (job : submit_args * submit_world) (jobs : list (submit_args * submit_world))
    (next : submit_args * submit_world) :
  0 <= second ->
  Forall (in_slot second prefix) (job :: jobs) -> in_slot second prefix next ->
  let self := run (submits (job :: jobs)) init in
  get_active_encode_count self = 1%nat /\
  is_Some (active_encodes self !! (pretty second +:+ "_" +:+ prefix)) /\
  fst (submit self next) = SuspendedWith (pretty second +:+ "_" +:+ prefix).
Proof.
  intros H0 Hjobs Hnext.
  assert (forall l self,
             Forall (in_slot second prefix) l ->
             max_concurrent_encodes self = 3%nat ->
             (exists info,
                 active_encodes self = {[ pretty second +:+ "_" +:+ prefix := info ]}) ->
             max_concurrent_encodes (run (submits l) self) = 3%nat /\
             exists info,
               active_encodes (run (submits l) self)
               = {[ pretty second +:+ "_" +:+ prefix := info ]}) as Hrun.
  { induction l as [|j l IH]; intros self Hl Hmax Hreg; [by split|].
    apply Forall_cons in Hl as [Hj Hl].
    destruct (in_slot_submit second prefix j self H0 Hj Hmax (or_intror Hreg))
      as (_ & Hmax' & Hreg').
    apply (IH (snd (submit self j)) Hl Hmax' Hreg'). }
  apply Forall_cons in Hjobs as [Hjob Hjobs].
  destruct (in_slot_submit second prefix job init H0 Hjob eq_refl (or_introl eq_refl))
    as (_ & Hmax1 & Hreg1).
  destruct (Hrun jobs (snd (submit init job)) Hjobs Hmax1 Hreg1) as (Hmax & info & Hreg).
  cbn zeta. change (run (submits (job :: jobs)) init)
    with (run (submits jobs) (snd (submit init job))).
  split; [unfold get_active_encode_count; by rewrite Hreg, map_size_singleton|].
  split; [rewrite Hreg, lookup_singleton_eq; by eexists|].
  apply (in_slot_submit second prefix next _ H0 Hnext Hmax). right. by exists info.
Qed.

Lemma same_id_submissions_share_one_slot_witness :
  let self :=
    run (submits [encode_command "ep1.mkv" (17000000002 # 10);
                  encode_command "ep2.mkv" (17000000005 # 10);
                  encode_command "ep3.mkv" (17000000009 # 10)]) init in
  get_active_encode_count self = 1%nat /\
  is_Some (active_encodes self !! "1700000000_Unknown") /\
  fst (submit self (encode_command "ep4.mkv" (17000000009 # 10)))
  = SuspendedWith "1700000000_Unknown".
Proof.
  apply (same_id_submissions_share_one_slot 1700000000 "Unknown"
           (encode_command "ep1.mkv" (17000000002 # 10))
           [encode_command "ep2.mkv" (17000000005 # 10);
            encode_command "ep3.mkv" (17000000009 # 10)]
           (encode_command "ep4.mkv" (17000000009 # 10))).
  - lia.
  - repeat constructor; unfold Qle, Qlt; cbn; lia.
  - repeat constructor; unfold Qle, Qlt; cbn; lia.
Defined.

(** X13.  [stop_encode] answers whether the id is registered; it marks
    the entry as stopped and changes nothing else: the stopped encode
    keeps its place in the count, so that the admission test answers as
    before, until the encode is removed. *)
Theorem stop_encode_keeps_slot (self : FastVideoEncoder) (encode_id : string) :
  let '(answer, self') := stop_encode self encode_id in
  (answer = true <-> is_Some (active_encodes self !! encode_id)) /\
  (answer = false -> self' = self) /\
  (answer = true ->
   exists i, active_encodes self' !! encode_id = Some i /\ status i = stopped) /\
  (forall k, k <> encode_id -> active_encodes self' !! k = active_encodes self !! k) /\
  get_active_encode_count self' = get_active_encode_count self /\
  can_start_new_encode self' = can_start_new_encode self.
Proof.
  unfold stop_encode.
  destruct (active_encodes self !! encode_id) as [i|] eqn:E.
  - assert (size (<[encode_id := EncodeInfo (user i) (start_time i) stopped]>
                    (active_encodes self)) = size (active_encodes self)) as Hsize
      by (apply map_size_insert_Some; by rewrite E).
    split_and!; try done.
    all: first [ by intros _; eexists
               | intros _; eexists; split; [apply lookup_insert_eq | reflexivity]
               | intros k Hk; cbn; by rewrite lookup_insert_ne by congruence
               | unfold get_active_encode_count; cbn; by rewrite Hsize
               | unfold can_start_new_encode; cbn; by rewrite Hsize ].
  - split_and!; done.
Qed.

Lemma stop_encode_keeps_slot_witness :
  let self := add_active_encode init "1700000000_alice" "alice" 1700000000 in
  fst (stop_encode self "1700000000_alice") = true /\
  can_start_new_encode (snd (stop_encode self "1700000000_alice"))
  = can_start_new_encode self.
Proof.
  intros self. generalize (stop_encode_keeps_slot self "1700000000_alice").
  destruct (stop_encode self "1700000000_alice") as [answer self'].
  intros (Hanswer & _ & _ & _ & _ & Hgate). split; [|exact Hgate].
  apply Hanswer. unfold self, add_active_encode. cbn [active_encodes].
  rewrite lookup_insert_eq. by eexists.
Defined.


Lemma first_existing_spec (exists_path : string -> bool) (candidates : list string) :
  match first_existing exists_path candidates with
  | Some p => In p candidates /\ exists_path p = true
  | None => forall p, In p candidates -> exists_path p = false
  end.
Proof.
  induction candidates as [|c rest IH]; cbn; [intros p []|].
  destruct (exists_path c) eqn:E; [split; [by left | exact E]|].
  destruct (first_existing exists_path rest).
  - destruct IH. split; [by right | assumption].
  - intros p [<-|Hp]; [exact E | by apply IH].
Qed.

Lemma find_in_dirs_spec (exists_path : string -> bool) (filename : string)
    (dirs : list string) :
  match find_in_dirs exists_path filename dirs with
  | Some p =>
      exists_path p = true /\
      exists d, In d dirs /\ exists_path d = true /\ In p (candidates_in d filename)
  | None =>
      forall d p, In d dirs -> exists_path d = true -> In p (candidates_in d filename) ->
                  exists_path p = false
  end.
Proof.
  induction dirs as [|d dirs IH]; cbn [find_in_dirs]; [intros d p []|].
  destruct (exists_path d) eqn:Ed.
  - pose proof (first_existing_spec exists_path (candidates_in d filename)) as Hf.
    destruct (first_existing exists_path (candidates_in d filename)) as [p|].
    + destruct Hf. split; [assumption|]. exists d. split; [by left | by split].
    + destruct (find_in_dirs exists_path filename dirs) as [p|].
      * destruct IH as (Hp & d' & Hd' & He & Hc). split; [exact Hp|].
        exists d'. split; [by right | by split].
      * intros d' p [<-|Hd'] He Hp; [by apply Hf | by apply (IH d')].
  - destruct (find_in_dirs exists_path filename dirs) as [p|].
    + destruct IH as (Hp & d' & Hd' & He & Hc). split; [exact Hp|].
      exists d'. split; [by right | by split].
    + intros d' p [<-|Hd'] He Hp; [congruence | by apply (IH d')].
Qed.

(** X14.  [find_video_file] hands back only a path that exists: the
    name, or the name with one of the six extensions, inside one of the
    five search directories that exists, or else the name as it is; it
    answers [None] only when none of these paths exists. *)
Theorem find_video_file_finds_existing (exists_path : string -> bool) (filename : string) :
  match find_video_file exists_path filename with
  | Some p =>
      exists_path p = true /\
      (p = filename \/
       exists d, In d search_dirs /\ exists_path d = true /\ In p (candidates_in d filename))
  | None =>
      exists_path filename = false /\
      forall d p, In d search_dirs -> exists_path d = true ->
                  In p (candidates_in d filename) -> exists_path p = false
  end.
Proof.
  unfold find_video_file.
  pose proof (find_in_dirs_spec exists_path filename search_dirs) as H.
  destruct (find_in_dirs exists_path filename search_dirs) as [p|].
  - destruct H as [Hp Hd]. split; [exact Hp | by right].
  - destruct (exists_path filename) eqn:E; [split; [exact E | by left]|].
    split; [reflexivity | exact H].
Qed.

(** X15.  When [encode_video] registers an encode, the episode was
    found by [find_video_file], the intro, the episode found and the
    subtitle file all exist, and the gate had a free place; the entry is
    registered under the id of the clock second and the user. *)
Theorem encode_video_registers_existing_files (self self' : FastVideoEncoder)
    (intro_path episode_file subtitle_path user : string) (w : submit_world) (id : string) :
  encode_video_start self intro_path episode_file subtitle_path user w
  = (SuspendedWith id, self') ->
  exists episode_path,
    find_video_file (exists_path w) episode_file = Some episode_path /\
    exists_path w intro_path = true /\ exists_path w episode_path = true /\
    exists_path w subtitle_path = true /\
    can_start_new_encode self = true /\
    id = make_encode_id (clock_id w) user /\
    self' = add_active_encode self id user (clock_add w).
Proof.
  unfold encode_video_start.
  destruct (find_video_file (exists_path w) episode_file) as [episode_path|];
    [|discriminate].
  destruct (String.eqb episode_path ""); [discriminate|].
  intros H. apply start_admitted in H as (Hc & Hid & Hi & He & Hs & Hself).
  exists episode_path. cbn in *. repeat split; assumption.
Qed.

Lemma encode_video_registers_existing_files_witness :
  exists episode_path,
    find_video_file (exists_path sample_world) "ep1" = Some episode_path /\
    exists_path sample_world "downloads/intro.mp4" = true /\
    exists_path sample_world episode_path = true /\
    exists_path sample_world "subs/ep1.ass" = true /\
    can_start_new_encode init = true /\
    "1700000000_alice" = make_encode_id (clock_id sample_world) "alice" /\
    add_active_encode init "1700000000_alice" "alice" 1700000000
    = add_active_encode init "1700000000_alice" "alice" (clock_add sample_world).
Proof.
  apply (encode_video_registers_existing_files init
           (add_active_encode init "1700000000_alice" "alice" 1700000000)
           "downloads/intro.mp4" "ep1" "subs/ep1.ass" "alice" sample_world
           "1700000000_alice").
  vm_compute. reflexivity.
Defined.

End EncoderMore.

Section EncoderParsing.
Import Encoder.

Lemma digit_range (c : ascii) (d : Z) : digit c = Some d -> 0 <= d <= 9.
Proof.
  unfold digit. destruct (_ && _)%bool eqn:E; [|discriminate].
  apply andb_true_iff in E as [E1 E2]. apply Nat.leb_le in E1, E2.
  intros [= <-]. lia.
Qed.

Lemma two_digits_range (s rest : string) (n : Z) :
  two_digits s = Some (n, rest) -> 0 <= n <= 99.
Proof.
  destruct s as [|a [|b s']]; cbn; try discriminate.
  destruct (digit a) as [x|] eqn:Ea; [|discriminate].
  destruct (digit b) as [y|] eqn:Eb; [|discriminate].
  intros [= <- <-]. apply digit_range in Ea, Eb. lia.
Qed.

Lemma match_time_here_range (s : string) (h m sec cs : Z) :
  match_time_here s = Some (h, m, sec, cs) ->
  0 <= h <= 99 /\ 0 <= m <= 99 /\ 0 <= sec <= 99 /\ 0 <= cs <= 99.
Proof.
  unfold match_time_here.
  repeat match goal with
         | |- context [match literal ?l ?x with _ => _ end] =>
             destruct (literal l x); [|discriminate]
         | |- context [match two_digits ?x with _ => _ end] =>
             let E := fresh "E" in
             destruct (two_digits x) as [[? ?]|] eqn:E; [apply two_digits_range in E|discriminate]
         end.
  intros [= <- <- <- <-]. tauto.
Qed.

Lemma search_time_range (line : string) (h m sec cs : Z) :
  search_time line = Some (h, m, sec, cs) ->
  0 <= h <= 99 /\ 0 <= m <= 99 /\ 0 <= sec <= 99 /\ 0 <= cs <= 99.
Proof.
  induction line as [|c line IH]; cbn [search_time].
  - destruct (match_time_here "") as [[[[? ?] ?] ?]|] eqn:E; [|discriminate].
    intros [= <- <- <- <-]. by apply (match_time_here_range "").
  - destruct (match_time_here (String c line)) as [[[[? ?] ?] ?]|] eqn:E; [|exact IH].
    intros [= <- <- <- <-]. by apply (match_time_here_range (String c line)).
Qed.

Lemma binary_round_aux_signed (s : bool) (m e : Z) (l : SpecFloat.location) :
  Py.signed s (SpecFloat.binary_round_aux 53 1024 s m e l).
Proof.
  unfold SpecFloat.binary_round_aux.
  destruct (SpecFloat.shr_fexp 53 1024 m e l) as [mrs' e'].
  destruct (SpecFloat.shr_fexp 53 1024 _ e' SpecFloat.loc_Exact) as [mrs'' e''].
  destruct (SpecFloat.shr_m mrs''); [reflexivity| |exact I].
  destruct (e'' <=? 1024 - 53); reflexivity.
Qed.

Lemma binary_round_signed (s : bool) (m : positive) (e : Z) :
  Py.signed s (SpecFloat.binary_round 53 1024 s m e).
Proof.
  unfold SpecFloat.binary_round.
  destruct (SpecFloat.shl_align m e _) as [mz ez]. apply binary_round_aux_signed.
Qed.

Lemma float_of_int_signed (n : Z) : 0 <= n -> Py.signed false (Py.float_of_int n).
Proof.
  intros H. unfold Py.float_of_int, SpecFloat.binary_normalize.
  destruct n as [|p|p]; [reflexivity | apply binary_round_signed | lia].
Qed.

Lemma float_add_signed (x y : Py.float) :
  Py.signed false x -> Py.signed false y -> Py.signed false (Py.float_add x y).
Proof.
  unfold Py.float_add.
  destruct x as [sx|sx| |sx mx ex], y as [sy|sy| |sy my ey]; cbn [Py.signed SpecFloat.SFadd];
    intros Hx Hy; subst; try done.
  unfold SpecFloat.cond_Zopp, SpecFloat.binary_normalize. cbn [Z.add].
  apply binary_round_signed.
Qed.

Lemma float_mul_signed (x y : Py.float) :
  Py.signed false x -> Py.signed false y -> Py.signed false (Py.float_mul x y).
Proof.
  unfold Py.float_mul.
  destruct x as [sx|sx| |sx mx ex], y as [sy|sy| |sy my ey]; cbn [Py.signed SpecFloat.SFmul];
    intros Hx Hy; subst; try done.
  apply binary_round_aux_signed.
Qed.

Lemma float_truediv_signed (x y : Py.float) :
  Py.signed false x -> Py.signed false y -> Py.signed false (Py.float_truediv x y).
Proof.
  unfold Py.float_truediv.
  destruct x as [sx|sx| |sx mx ex], y as [sy|sy| |sy my ey]; cbn [Py.signed SpecFloat.SFdiv];
    intros Hx Hy; subst; try done.
  destruct (SpecFloat.SFdiv_core_binary 53 1024 _ _ _ _) as [[mz ez] lz].
  apply binary_round_aux_signed.
Qed.

Lemma positive_signed (x : Py.float) :
  Py.float_lt (Py.float_of_int 0) x = true -> Py.signed false x.
Proof.
  destruct x as [s|s| |s m e]; cbn; try discriminate; by destruct s.
Qed.

Lemma int_of_float_nonneg (x : Py.float) (n : Z) :
  Py.signed false x -> Py.int_of_float x = Some n -> 0 <= n.
Proof.
  destruct x as [s|s| |s m e]; cbn; try discriminate.
  - intros _ [= <-]. lia.
  - intros -> [= <-]. cbn. destruct e as [|p|p].
    + lia.
    + apply Z.mul_nonneg_nonneg; [lia|]. apply Z.pow_nonneg. lia.
    + apply Z.div_pos; [lia|]. apply Z.pow_pos_nonneg; lia.
Qed.

(** X16.  The percent that a progress line of ffmpeg yields lies
    between 0 and 99, whatever the time on the line and the expected
    duration, and is yielded only for a line with [time=] and a
    duration above zero; a line without [time=] and a duration that is
    not above zero (zero, negative or not a number) yield none. *)
Theorem ffmpeg_progress_range (expected_duration : Py.float) (stderr_line : string) :
  (forall percent,
      ffmpeg_progress expected_duration stderr_line = Some percent ->
      0 <= percent <= 99 /\
      Py.float_lt (Py.float_of_int 0) expected_duration = true /\
      Py.contains "time=" stderr_line = true) /\
  (Py.float_lt (Py.float_of_int 0) expected_duration = false \/
   Py.contains "time=" stderr_line = false ->
   ffmpeg_progress expected_duration stderr_line = None).
Proof.
  unfold ffmpeg_progress. split.
  - intros percent. destruct (Py.contains "time=" stderr_line); cbn [andb]; [|discriminate].
    destruct (Py.float_lt (Py.float_of_int 0) expected_duration) eqn:Ed; [|discriminate].
    apply positive_signed in Ed.
    destruct (search_time stderr_line) as [[[[h m] sec] cs]|] eqn:Es; [|discriminate].
    apply search_time_range in Es as (Hh & Hm & Hsec & Hcs).
    set (ratio := Py.float_mul _ _).
    assert (Py.signed false ratio) as Hr.
    { unfold ratio. apply float_mul_signed; [|by apply float_of_int_signed].
      apply float_truediv_signed; [|exact Ed].
      apply float_add_signed; [apply float_of_int_signed; lia|].
      apply float_truediv_signed; apply float_of_int_signed; lia. }
    destruct (Py.float_lt (Py.float_of_int 100) ratio).
    + intros [= <-]. split; [lia | by split].
    + destruct (Py.int_of_float ratio) as [n|] eqn:En; [|discriminate].
      apply (int_of_float_nonneg ratio n Hr) in En.
      intros [= <-]. split; [lia | by split].
  - intros [H|H]; rewrite H; [by rewrite andb_false_r | reflexivity].
Qed.

(** An encode of 1410 seconds at 4 minutes 27.9 seconds: the quotient
    is not exact in binary, and the percent is 18. *)
Lemma ffmpeg_progress_range_witness :
  ffmpeg_progress (Py.float_of_int 1410)
                  "frame= 6697 fps= 60 time=00:04:27.90 bitrate=1000kbits/s" = Some 18 /\
  0 <= 18 <= 99.
Proof.
  assert (ffmpeg_progress (Py.float_of_int 1410)
            "frame= 6697 fps= 60 time=00:04:27.90 bitrate=1000kbits/s" = Some 18) as H
    by (vm_compute; reflexivity).
  split; [exact H|].
  apply (proj1 (ffmpeg_progress_range
                  (Py.float_of_int 1410)
                  "frame= 6697 fps= 60 time=00:04:27.90 bitrate=1000kbits/s") 18 H).
Defined.

Lemma escape_colons_well_escaped (s : string) :
  (forall c, Py.contains (String c "") s = true -> c <> "\"%char) ->
  well_escaped (escape_colons s) = true.
Proof.
  induction s as [|c s IH]; intros H; [reflexivity|].
  assert (c <> "\"%char) as Hc.
  { apply H. cbn. rewrite Ascii.eqb_refl. by destruct s. }
  assert (well_escaped (escape_colons s) = true) as IH'.
  { apply IH. intros c' Hc'. apply H. cbn in *. rewrite Hc'. apply orb_true_r. }
  cbn [escape_colons]. destruct (Ascii.eqb c ":"%char) eqn:E.
  - cbn. exact IH'.
  - cbn [well_escaped]. apply Ascii.eqb_neq in Hc. rewrite Hc, E. exact IH'.
Qed.

Lemma replace_backslash_none (s : string) (c : ascii) :
  Py.contains (String c "") (Py.replace_char "\"%char "/"%char s) = true -> c <> "\"%char.
Proof.
  induction s as [|a s IH]; cbn; [discriminate|].
  intros H Hc. subst c. apply orb_true_iff in H as [H|H].
  - apply andb_true_iff in H as [H _]. destruct (Ascii.eqb a "\"%char) eqn:E.
    + discriminate.
    + apply Ascii.eqb_eq in H. subst a. by rewrite Ascii.eqb_refl in E.
  - by apply IH in H.
Qed.

(** X17.  [_validate_subtitle_file] accepts a file exactly when it
    could be read, is not empty and contains [[Script Info]],
    [[V4 Styles]] or [[V4+ Styles]]; it then hands back the path with
    every backslash turned into a slash and every colon preceded by a
    backslash, so that in it a backslash stands only before a colon and
    a colon only after a backslash; in every other case the path comes
    back unchanged. *)
Theorem subtitle_path_escaped (content : Py.outcome string) (subtitle_path : string) :
  let '(path, is_valid) := _validate_subtitle_file content subtitle_path in
  (is_valid = true <->
   exists text, content = Py.Returned text /\ text <> "" /\
                (Py.contains "[Script Info]" text = true \/
                 Py.contains "[V4 Styles]" text = true \/
                 Py.contains "[V4+ Styles]" text = true)) /\
  (is_valid = true ->
   path = fix_subtitle_path subtitle_path /\ well_escaped path = true) /\
  (is_valid = false -> path = subtitle_path).
Proof.
  unfold _validate_subtitle_file. destruct content as [text|e].
  - destruct (String.eqb text "") eqn:E.
    + apply String.eqb_eq in E. split_and!; try done.
      split; [discriminate|]. intros (t & [= <-] & Hne & _). done.
    + apply String.eqb_neq in E. unfold Py.any, subtitle_markers. cbn [existsb].
      rewrite orb_false_r.
      destruct (Py.contains "[Script Info]" text) eqn:E1;
        destruct (Py.contains "[V4 Styles]" text) eqn:E2;
        destruct (Py.contains "[V4+ Styles]" text) eqn:E3; cbn [orb negb];
        (split; [|split];
         [ split; [first [discriminate | intros _; exists text; tauto]
                  | try done; intros (t & [= <-] & _ & [H|[H|H]]); congruence]
         | first [ done
                 | intros _; split; [reflexivity|];
                   unfold fix_subtitle_path; apply escape_colons_well_escaped;
                   intros c; apply replace_backslash_none ]
         | done ]).
  - split_and!; try done. split; [discriminate|]. intros (t & [=] & _).
Qed.

Lemma subtitle_path_escaped_witness :
  _validate_subtitle_file (Py.Returned "[V4 Styles]") "C:\subs\ep1.ass"
  = ("C\:/subs/ep1.ass", true) /\
  well_escaped "C\:/subs/ep1.ass" = true.
Proof.
  generalize (subtitle_path_escaped (Py.Returned "[V4 Styles]") "C:\subs\ep1.ass").
  destruct (_validate_subtitle_file (Py.Returned "[V4 Styles]") "C:\subs\ep1.ass")
    as [path is_valid].
  intros (Hvalid & Hpath & _).
  assert (is_valid = true) as ->.
  { apply Hvalid. exists "[V4 Styles]". split; [reflexivity|]. split; [discriminate|].
    right. left. reflexivity. }
  destruct (Hpath eq_refl) as [-> Hw]. split; [reflexivity | exact Hw].
Defined.

(** A file that holds only the [[Events]] section is refused. *)
Lemma events_section_alone_refused :
  _validate_subtitle_file (Py.Returned "[Events]") "ep1.ass" = ("ep1.ass", false).
Proof. reflexivity. Qed.

End EncoderParsing.

(** ** The fetch driver and the resolver, further *)

Section DownloaderMore.
Import Downloader.

Lemma first_working_spec (probe : string -> Py.outcome Z) (paths : list string) :
  match first_working probe paths with
  | Some path =>
      exists before after,
        paths = before ++ path :: after /\ probe path = Py.Returned 0 /\
        forall p, In p before -> probe p <> Py.Returned 0
  | None => forall p, In p paths -> probe p <> Py.Returned 0
  end.
Proof.
  induction paths as [|path rest IH]; cbn [first_working]; [intros p []|].
  destruct (probe path) as [[|q|q]|e] eqn:E.
  - exists [], rest. split; [reflexivity|]. split; [exact E | intros p []].
  - destruct (first_working probe rest) as [found|].
    + destruct IH as (before & after & -> & Hf & Hb). exists (path :: before), after.
      split; [reflexivity|]. split; [exact Hf|]. intros p [<-|Hp]; [congruence | by apply Hb].
    + intros p [<-|Hp]; [congruence | by apply IH].
  - destruct (first_working probe rest) as [found|].
    + destruct IH as (before & after & -> & Hf & Hb). exists (path :: before), after.
      split; [reflexivity|]. split; [exact Hf|]. intros p [<-|Hp]; [congruence | by apply Hb].
    + intros p [<-|Hp]; [congruence | by apply IH].
  - destruct (first_working probe rest) as [found|].
    + destruct IH as (before & after & -> & Hf & Hb). exists (path :: before), after.
      split; [reflexivity|]. split; [exact Hf|]. intros p [<-|Hp]; [congruence | by apply Hb].
    + intros p [<-|Hp]; [congruence | by apply IH].
Qed.

(** X18.  [get_aria2_path] hands back the first of its four candidates
    whose version call returns 0, a candidate that raises or returns
    another code being passed over; it raises its "not found" error
    exactly when no candidate returns 0, and [download_magnet_fast] then
    returns that message without registering or spawning anything. *)
Theorem aria2_first_working_candidate (probe : string -> Py.outcome Z)
    (active : gmap string download_info) (w : driver_world)
    (custom_name output_dir : string) :
  aria2_path w = get_aria2_path probe ->
  match get_aria2_path probe with
  | Py.Returned path =>
      exists before after,
        aria2_candidates = before ++ path :: after /\ probe path = Py.Returned 0 /\
        forall p, In p before -> probe p <> Py.Returned 0
  | Py.Raised e =>
      e = aria2_not_found /\
      (forall p, In p aria2_candidates -> probe p <> Py.Returned 0) /\
      download_magnet_fast active w custom_name output_dir
      = DriverResult (false, Py.exn_str aria2_not_found) active [] false None
  end.
Proof.
  intros Hw. unfold get_aria2_path in *.
  pose proof (first_working_spec probe aria2_candidates) as H.
  destruct (first_working probe aria2_candidates) as [path|]; [exact H|].
  split; [reflexivity|]. split; [exact H|].
  unfold download_magnet_fast. by rewrite Hw.
Qed.

Lemma aria2_first_working_candidate_witness :
  let probe := fun p : string =>
                 if String.eqb p "aria2c.exe" then Py.Returned 0
                 else Py.Raised (Py.Exn Py.OtherException "[Errno 2] No such file") in
  exists before after,
    aria2_candidates = before ++ "aria2c.exe" :: after /\
    probe "aria2c.exe" = Py.Returned 0 /\
    forall p, In p before -> probe p <> Py.Returned 0.
Proof.
  exact (aria2_first_working_candidate
           (fun p : string =>
              if String.eqb p "aria2c.exe" then Py.Returned 0
              else Py.Raised (Py.Exn Py.OtherException "[Errno 2] No such file"))
           ∅
           (DriverWorld (Py.Returned "aria2c.exe") "AB12CD34" 0 (Py.Returned tt) []
                        (Terminated (-15)) (World 2000 (Some []) true true) (Py.Returned 0))
           "episode" "downloads" eq_refl).
Defined.

(** A process that stays running is caught by the total budget at the
    first turn past it. *)
Lemma monitor_running_past_budget (start : Q) (ticks : list tick) :
  Forall still_running ticks ->
  Exists (past_budget start) ticks ->
  forall last out, fst (fst (monitor start last out ticks)) = TotalTimeout.
Proof.
  intros Hrun Hpast. induction ticks as [|t rest IH]; [by apply Exists_nil in Hpast|].
  intros last out. apply List.Forall_cons_iff in Hrun as [[Hh Hw] Hrest].
  cbn [monitor]. rewrite Hh.
  destruct (Qle_bool (current_time t - start) max_total_time) eqn:E; cbn [negb];
    [|reflexivity].
  apply Exists_cons in Hpast as [Hp|Hp].
  - apply Qle_bool_iff in E. exfalso. exact (Qlt_not_le _ _ Hp E).
  - rewrite Hw. specialize (IH Hrest Hp).
    destruct (negb (Qle_bool (current_time t - last) 5)).
    + specialize (IH (current_time t) (out ++ new_output t)).
      destruct (monitor start (current_time t) (out ++ new_output t) rest) as [[ex ed] o].
      exact IH.
    + apply IH.
Qed.

(** X19.  A fetch process that never exits, however much it writes, is
    terminated once a turn of the monitoring loop reads a clock more
    than 1800 seconds past the start: the loop is left on the total
    budget, [process.terminate()] is called, and the download is out of
    the registry afterwards. *)
Theorem running_process_terminated_on_total_budget (active : gmap string download_info)
    (w : driver_world) (custom_name output_dir path : string) :
  aria2_path w = Py.Returned path -> spawn w = Py.Returned tt ->
  Forall still_running (ticks w) ->
  Exists (past_budget (start_time w)) (ticks w) ->
  let r := download_magnet_fast active w custom_name output_dir in
  left_by r = Some TotalTimeout /\ process_terminated r = true /\
  active_downloads r !! download_id w = None.
Proof.
  intros Hp Hs Hrun Hpast r.
  split; [|split; [|by apply (download_unregisters active w custom_name output_dir path)]];
    unfold r, download_magnet_fast; rewrite Hp, Hs;
    pose proof (monitor_running_past_budget _ _ Hrun Hpast 0 []) as Hm;
    destruct (monitor (start_time w) 0 [] (ticks w)) as [[how edits] out];
    cbn in Hm; subst how;
    destruct (on_terminate w) as [rc|rc|e]; cbn;
    repeat match goal with
           | |- context [match ?x with _ => _ end] => destruct x; cbn
           end; reflexivity.
Qed.

Lemma running_process_terminated_on_total_budget_witness :
  let r := download_magnet_fast ∅ runs_too_long "episode" "downloads" in
  left_by r = Some TotalTimeout /\ process_terminated r = true /\
  active_downloads r !! download_id runs_too_long = None.
Proof.
  apply (running_process_terminated_on_total_budget ∅ runs_too_long "episode" "downloads"
           "aria2c").
  - reflexivity.
  - reflexivity.
  - unfold runs_too_long, sample_driver. cbn [ticks].
    apply Forall_app. split.
    + generalize (0 : Q). generalize 451%nat. intros n.
      induction n as [|n IH]; intros q; [constructor|].
      cbn. constructor; [by split | apply IH].
    + repeat constructor.
  - unfold runs_too_long, sample_driver. cbn [ticks start_time].
    apply Exists_app. right. left. reflexivity.
Defined.

(** X20.  Whether [download_magnet_fast] reports success is decided by
    [find_downloaded_file] alone, not by how the process ended: with
    the process spawned and no exception on the way, it returns
    [(True, name)] exactly when a file is resolved, whatever the exit
    code, a timeout or a kill; and [(False, ...)] with exit code 0 when
    none is. *)
Theorem download_success_is_file_found (active : gmap string download_info)
    (w : driver_world) (custom_name output_dir path : string) (size : Z) :
  aria2_path w = Py.Returned path -> spawn w = Py.Returned tt ->
  (forall e, on_terminate w <> KillRaised e) ->
  getsize_result w = Py.Returned size ->
  let r := download_magnet_fast active w custom_name output_dir in
  match fst (find_downloaded_file (find_world w) output_dir custom_name) with
  | Some result_file => returned r = (true, OsPath.basename result_file)
  | None => exists return_code, returned r = (false, not_found_message return_code)
  end /\
  calls r = [AddDownload (download_id w); RemoveDownload (download_id w)].
Proof.
  intros Hp Hs Hk Hg r. unfold r, download_magnet_fast. rewrite Hp, Hs, Hg.
  destruct (monitor (start_time w) 0 [] (ticks w)) as [[how edits] out].
  destruct (on_terminate w) as [rc|rc|e] eqn:Et; [| |by destruct (Hk e)];
    destruct how; cbn;
    destruct (fst (find_downloaded_file (find_world w) output_dir custom_name));
    cbn; split; try reflexivity; by eexists.
Qed.

Lemma download_success_is_file_found_witness :
  let r := download_magnet_fast ∅ exits_signalled "episode" "downloads" in
  match fst (find_downloaded_file (find_world exits_signalled) "downloads" "episode") with
  | Some result_file => returned r = (true, OsPath.basename result_file)
  | None => exists return_code, returned r = (false, not_found_message return_code)
  end /\
  calls r = [AddDownload (download_id exits_signalled);
             RemoveDownload (download_id exits_signalled)].
Proof.
  apply (download_success_is_file_found ∅ exits_signalled "episode" "downloads" "aria2c" 0).
  - reflexivity.
  - reflexivity.
  - discriminate.
  - reflexivity.
Defined.

End DownloaderMore.

Section ResolverResult.
Import Downloader.







End ResolverResult.

(** ** Names and registries end to end *)

Section NamedDownload.
Import Downloader.





End NamedDownload.

Section EncodeRoundTrip.
Import Encoder.

(** X24.  An encode admitted under an id that was not in use, whose
    task returns its result (a success or a failure), hands that result
    on and leaves the encoder as the submission found it: the slot is
    free again. *)
Theorem completed_encode_restores_encoder (self self' : FastVideoEncoder)
    (a : submit_args) (w : submit_world) (id : string) (result : encode_result) :
  encode_single_pass_start self a w = (SuspendedWith id, self') ->
  active_encodes self !! id = None ->
  encode_single_pass_resume self' id (Py.Returned result)
  = (Py.Returned (success result, message result), self).
Proof.
  intros Hstart Hfresh. apply start_admitted in Hstart as (_ & _ & _ & _ & _ & ->).
  unfold encode_single_pass_resume, remove_active_encode, add_active_encode.
  cbn [active_encodes max_concurrent_encodes]. rewrite lookup_insert_eq.
  rewrite delete_insert_eq, delete_id by assumption.
  destruct self as [m act]. cbn. by destruct (success result).
Qed.

Lemma completed_encode_restores_encoder_witness :
  encode_single_pass_resume
    (snd (encode_single_pass_start init (sample_args "alice") sample_world))
    (make_encode_id (clock_id sample_world) "alice")
    (Py.Returned (EncodeResult false "ffmpeg failed"))
  = (Py.Returned (false, "ffmpeg failed"), init).
Proof.
  apply (completed_encode_restores_encoder init _ (sample_args "alice") sample_world
           (make_encode_id (clock_id sample_world) "alice")
           (EncodeResult false "ffmpeg failed")).
  - reflexivity.
  - reflexivity.
Defined.

End EncodeRoundTrip.

Section ConsecutiveFailures.
Import Uploader.

Lemma chunk_backoffs_prepend (d : Q) (evs : list event) :
  chunk_backoffs ([NextChunk; Sleep ChunkBackoff d] ++ evs) = d :: chunk_backoffs evs.
Proof. reflexivity. Qed.

(** With [rc] failures counted already, failing calls that bring the
    count to five leave the loop with one of their exceptions. *)
Lemma chunk_loop_failures (callback : bool) (es : list Py.exn) :
  forall rest lp sc rc,
    es <> [] -> 0 <= rc -> 5 <= rc + Z.of_nat (length es) ->
    exists e evs rest',
      In e es /\
      chunk_loop callback (map ChunkRaised es ++ rest) lp sc rc = (LoopRaised e, evs, rest') /\
      (length (chunk_backoffs evs) < length es)%nat.
Proof.
  induction es as [|e es IH]; intros rest lp sc rc Hne Hrc Hlen; [done|].
  assert (es <> [] \/ 5 <= rc + 1) as Hcases
    by (destruct es; [right; cbn in Hlen; lia | by left]).
  cbn [map app chunk_loop].
  destruct (Py.exn_cls e) as [st|].
  - destruct (transient_status st).
    + destruct (5 <=? rc + 1) eqn:E5.
      * exists e, [NextChunk], (map ChunkRaised es ++ rest). cbn.
        split; [by left|]. split; [reflexivity | lia].
      * assert (es <> []) as Hes by (destruct Hcases as [|H5]; [assumption | lia]).
        destruct (IH rest lp sc (rc + 1) Hes) as (e' & evs & rest' & Hin & -> & Hb);
          [lia | cbn [length] in Hlen; lia |].
        exists e'. eexists. exists rest'. split; [by right|]. split; [reflexivity|].
        rewrite chunk_backoffs_prepend. cbn [length]. lia.
    + exists e, [NextChunk], (map ChunkRaised es ++ rest). cbn.
      split; [by left|]. split; [reflexivity | lia].
  - destruct (3 <=? rc + 1) eqn:E3.
    + exists e, [NextChunk], (map ChunkRaised es ++ rest). cbn.
      split; [by left|]. split; [reflexivity | lia].
    + assert (es <> []) as Hes by (destruct Hcases as [|H5]; [assumption | lia]).
      destruct (IH rest lp sc (rc + 1) Hes) as (e' & evs & rest' & Hin & -> & Hb);
        [lia | cbn [length] in Hlen; lia |].
      exists e'. eexists. exists rest'. split; [by right|]. split; [reflexivity|].
      rewrite chunk_backoffs_prepend. cbn [length]. lia.
Qed.

(** X25.  Five [next_chunk()] calls that fail one after the other, with
    whatever exceptions, always end the chunk loop of the attempt with
    one of these exceptions, after at most four chunk backoffs: no
    chunk is tried a sixth time, and the answers after the five
    failures are not read by this loop. *)
Theorem five_failures_leave_chunk_loop (callback : bool) (es : list Py.exn)
    (rest : list next_chunk) (last_progress stall_count : Z) :
  length es = 5%nat ->
  exists e evs rest',
    In e es /\
    chunk_loop callback (map ChunkRaised es ++ rest) last_progress stall_count 0
    = (LoopRaised e, evs, rest') /\
    (length (chunk_backoffs evs) <= 4)%nat.
Proof.
  intros Hlen.
  destruct (chunk_loop_failures callback es rest last_progress stall_count 0)
    as (e & evs & rest' & Hin & Heq & Hb).
  - by destruct es.
  - lia.
  - rewrite Hlen. lia.
  - exists e, evs, rest'. split; [exact Hin|]. split; [exact Heq | lia].
Qed.

Lemma five_failures_leave_chunk_loop_witness :
  exists e evs rest',
    In e [http 503; Py.Exn Py.OtherException "timeout"; http 502; http 500; http 504] /\
    chunk_loop true
      (map ChunkRaised
           [http 503; Py.Exn Py.OtherException "timeout"; http 502; http 500; http 504]
       ++ [at_percent 60; done]) 0 0 0
    = (LoopRaised e, evs, rest') /\
    (length (chunk_backoffs evs) <= 4)%nat.
Proof.
  apply (five_failures_leave_chunk_loop true
           [http 503; Py.Exn Py.OtherException "timeout"; http 502; http 500; http 504]
           [at_percent 60; done] 0 0).
  reflexivity.
Defined.

End ConsecutiveFailures.
